(** * Points style of the tangram map renderer: label queueing, linking and
      quad encoding

    A shallow embedding of [styles/points/points.js] (the [Points] style
    object): [addFeature], [queueFeature], [endData] up to its return (the
    callbacks on the promises of the two collision passes run later),
    [_preprocess] (text part), [computeLayout], [buildLabels], [buildQuad],
    [buildLabel] and [buildArticulatedLabel]; and of [material.js] and
    [light.js].

    Conventions of the embedding.
    - JavaScript numbers are exact rationals ([Q]); equalities between
      numbers are stated with [==].  [NaN], the infinities and binary64
      rounding are outside the model.
    - Untyped JavaScript data that the style only passes along (coordinates,
      texture coordinates, per-segment arrays) is a [jsval].
    - Mutation of [this], of the collision registry and of the log is
      explicit state passing over the record [World].
    - An exception is a [Throw] of the [result] type; what a thrown
      exception leaves behind in the objects mutated so far is not tracked.
    - Collaborators that live in other modules of the renderer are the
      fields of the classes [Collaborators] and [CollisionPasses].
    - Plain objects used as maps are finite maps of their own properties.
      Tile ids and texture names are taken not to be names every object
      inherits ([Object_prototype_names]); sprite names may be, and
      [js_has_truthy] reads them. *)

From Stdlib Require Import ZArith QArith Qminmax Qabs Lqa Lia.
From stdpp Require Import base option list gmap strings.

Set Warnings "-register-all".
Open Scope Q_scope.

(** ** JavaScript values *)

Inductive jsval : Type :=
| JUndefined
| JNull
| JBool (b : bool)
| JNum (q : Q)
| JStr (s : string)
| JArr (l : list jsval)
| JObj (fields : list (string * jsval)).

(** [a[i]] on an array held in a list: out of range reads give [undefined]. *)
Definition js_index (l : list jsval) (i : nat) : jsval :=
  default JUndefined (l !! i).

(** [o[k]] on a plain object; a missing key reads as [undefined]. *)
Fixpoint js_field (fields : list (string * jsval)) (k : string) : jsval :=
  match fields with
  | [] => JUndefined
  | (k', v) :: rest => if String.eqb k k' then v else js_field rest k
  end.

(** Truthiness of a number: [0] is falsy. *)
Definition num_truthy (q : Q) : bool := negb (Qeq_bool q 0).

(** Truthiness of a value. *)
Definition js_truthy (v : jsval) : bool :=
  match v with
  | JUndefined | JNull => false
  | JBool b => b
  | JNum q => num_truthy q
  | JStr s => negb (String.eqb s "")
  | JArr _ | JObj _ => true
  end.

(** [a || b] on values. *)
Definition js_or (a b : jsval) : jsval := if js_truthy a then a else b.

(** ** Exceptions *)

(** The exception the code of the style can raise by itself: a property read
    on [undefined] or [null]. *)
Inductive exn : Type := TypeError.

Inductive result (A : Type) : Type :=
| Ok (a : A)
| Throw (e : exn).
Arguments Ok {A} a.
Arguments Throw {A} e.

Definition result_bind {A B : Type} (r : result A) (k : A -> result B) : result B :=
  match r with
  | Ok a => k a
  | Throw e => Throw e
  end.

Notation "'try' x <- r ; k" := (result_bind r (fun x => k))
  (at level 10, x name, r at level 100, k at level 200).
Notation "'try' ' pat <- r ; k" :=
  (result_bind r (fun x => match x with pat => k end))
  (at level 10, pat pattern, r at level 100, k at level 200).

(** [v.length] as a loop bound, [v[i]] and [v[k]], on a value that is expected
    to be an array or an object.  Reading a property of [undefined] or [null]
    throws; a number, a boolean or a plain object has no [length], so a loop
    bounded by it does not run. *)
Definition js_length (v : jsval) : result nat :=
  match v with
  | JUndefined | JNull => Throw TypeError
  | JArr l => Ok (length l)
  | JStr s => Ok (String.length s)
  | JBool _ | JNum _ | JObj _ => Ok 0%nat
  end.

Definition js_get_index (v : jsval) (i : nat) : result jsval :=
  match v with
  | JUndefined | JNull => Throw TypeError
  | JArr l => Ok (js_index l i)
  | JStr s => Ok (match String.get i s with
                  | Some c => JStr (String c EmptyString)
                  | None => JUndefined
                  end)
  | JBool _ | JNum _ | JObj _ => Ok JUndefined
  end.

Definition js_get_field (v : jsval) (k : string) : result jsval :=
  match v with
  | JUndefined | JNull => Throw TypeError
  | JObj fields => Ok (js_field fields k)
  | JArr _ | JStr _ | JBool _ | JNum _ => Ok JUndefined
  end.

(** A counting loop [for (let i = 0; i < n; i++) body], threading the
    variables the body updates; an exception leaves the loop. *)
Fixpoint for_loop_from {S : Type} (i count : nat) (body : nat -> S -> result S)
    (s : S) : result S :=
  match count with
  | O => Ok s
  | Datatypes.S count' =>
      try s' <- body i s;
      for_loop_from (Datatypes.S i) count' body s'
  end.

Definition for_loop {S : Type} (n : nat) (body : nat -> S -> result S) (s : S)
    : result S :=
  for_loop_from 0 n body s.

(** ** Module constants *)

(** [Math.PI]: the binary64 number nearest to pi, as an exact rational. *)
Definition Math_PI : Q := 884279719003555 # 281474976710656.

Definition pre_angles_normalize : Q := 128 / Math_PI.
Definition angles_normalize : Q := 16384 / Math_PI.
Definition offsets_normalize : Q := 64.
Definition texcoord_normalize : Q := 65535.

Definition TANGRAM_POINT_TYPE_TEXTURE : Q := 1.
Definition TANGRAM_POINT_TYPE_LABEL : Q := 2.
Definition TANGRAM_POINT_TYPE_SHADER : Q := 3.

(** Modelled from the spec: [LabelPoint.PLACEMENT] is declared in
    [labels/label_point], which is missing from the sources; these are the
    placement strategies section 4.1 names. *)
Inductive Placement : Type := VERTEX | MIDPOINT | SPACED | CENTROID.

Definition Placement_eqb (a b : Placement) : bool :=
  match a, b with
  | VERTEX, VERTEX | MIDPOINT, MIDPOINT | SPACED, SPACED | CENTROID, CENTROID => true
  | _, _ => false
  end.

(** ** Tiles, features and draw parameters *)

Record Tile : Type := mkTile {
  tile_id : string;
  tile_key : string;
  tile_generation : Z;
  tile_canceled : bool;
  tile_units_per_pixel : option Q
}.

Record Geometry : Type := mkGeometry {
  geometry_type : string;
  geometry_coordinates : jsval
}.

Record Feature : Type := mkFeature {
  feature_geometry : Geometry;
  feature_properties : jsval
}.

Record Context : Type := mkContext {
  context_tile : Tile;
  context_env : jsval
}.

Definition Color : Type := list Q.

(** A size as a draw group gives it: one number, or a pair. *)
Inductive SizeValue : Type :=
| SizeNumber (s : Q)
| SizePair (w h : Q).

(** [draw.priority]: a number, or a function of the context. *)
Inductive PriorityProp : Type :=
| PriorityNumber (p : Q)
| PriorityFunction (f : Context -> Q).

(** [draw.repeat_group]: a function of the context, or a string. *)
Inductive RepeatGroupProp : Type :=
| RepeatGroupFunction (f : Context -> jsval)
| RepeatGroupString (s : string).

(** A property that went through [StyleParser.createPropertyCache] (or
    [createColorPropertyCache]) in [_preprocess] is held as the function that
    [StyleParser.evalCachedProperty] (or [this.parseColor]) computes from
    the context; a property read with [StyleParser.evalProperty] likewise. *)
Record Outline : Type := mkOutline {
  outline_width : Context -> option Q;
  outline_color : Context -> option Color
}.

(** [draw.text], the nested text draw group. *)
Record TextDraw : Type := mkTextDraw {
  text_visible : jsval;
  text_priority : option PriorityProp;
  text_optional : jsval;
  text_text_source : jsval;
  text_key : string;
  text_group : jsval;
  text_layers : list string;
  text_order : jsval;
  text_repeat_group : option RepeatGroupProp;
  text_anchor : jsval;
  text_interactive : jsval
}.

(** A draw group.  [draw_texture] tells a [texture] that is [undefined]
    ([None]: the texture of the style is used) from one that is [null]
    ([Some None]: no texture) and from a name. *)
Record Draw : Type := mkDraw {
  draw_color : Context -> option Color;
  draw_texture : option (option string);
  draw_sprite : Context -> option string;
  draw_sprite_default : option string;
  draw_size : option (Context -> SizeValue);
  draw_outline : option Outline;
  draw_placement : Placement;
  draw_placement_min_length_ratio : Context -> option Q;
  draw_placement_spacing : option (Context -> Q);
  draw_angle : Context -> jsval;
  draw_z : option (Context -> Q);
  draw_tile_edges : jsval;
  draw_text : option TextDraw;
  draw_key : string;
  draw_group : jsval;
  draw_layers : list string;
  draw_order : jsval;
  draw_interactive : jsval;
  draw_collide : jsval;
  draw_cull_from_tile : jsval;
  draw_anchor : jsval;
  draw_offset : Context -> jsval;
  draw_buffer : Context -> jsval;
  draw_repeat_distance : Context -> option Q;
  draw_repeat_group : option RepeatGroupProp;
  draw_priority : option PriorityProp
}.

(** The [style] object [addFeature] fills in; [computeLayout] writes the
    layout properties (from [style_id] on) into the same object. *)
Record Style : Type := mkStyle {
  style_color : option Color;
  style_texture : option string;
  style_texcoords : jsval;
  style_size : Q * Q;
  style_outline_width : option Q;
  style_outline_color : option Color;
  style_outline_edge_pct : Q;
  style_placement : Placement;
  style_placement_min_length_ratio : option Q;
  style_placement_spacing : option Q;
  style_angle : jsval;
  style_z : Q;
  style_tile_edges : jsval;
  style_label_texture : jsval;
  style_id : Feature;
  style_units_per_pixel : Q;
  style_collide : bool;
  style_cull_from_tile : jsval;
  style_move_into_tile : bool;
  style_anchor : jsval;
  style_offset : jsval;
  style_buffer : jsval;
  style_repeat_distance : option Q;
  style_repeat_group : jsval;
  style_priority : Q
}.

(** The layout of a parsed text feature, as far as [addFeature] touches it. *)
Record TextLayout : Type := mkTextLayout {
  layout_parent : option Style;
  layout_priority : Q;
  layout_move_into_tile : bool;
  layout_rest : jsval
}.

(** What [parseTextFeature] returns for one text source. *)
Record TextFeature : Type := mkTextFeature {
  tf_draw : TextDraw;
  tf_text : string;
  tf_text_settings_key : string;
  tf_layout : TextLayout
}.

(** The three shapes of the value of [parseTextFeature]: nothing, an array
    (boundary labels), or one text feature. *)
Inductive ParsedText : Type :=
| ParsedNone
| ParsedArray (tfs : list TextFeature)
| ParsedOne (tf : TextFeature).

(** An entry of [this.queues[tile.id]]. *)
Record QueueItem : Type := mkQueueItem {
  q_feature : Feature;
  q_draw : Draw;
  q_context : Context;
  q_style : Style;
  q_text_feature : option TextFeature
}.

Record SpriteInfo : Type := mkSpriteInfo {
  sprite_texcoords : jsval;
  sprite_size : Q * Q
}.

(** An entry of [Texture.textures]. *)
Record TextureEntry : Type := mkTextureEntry {
  texture_sprites : option (gmap string jsval)
}.

Record LogEntry : Type := mkLogEntry {
  log_level : string;
  log_once : bool;
  log_message : string
}.

(** ** Vertex layout, as declared in [init] *)

Inductive GLType : Type := GL_SHORT | GL_UNSIGNED_SHORT | GL_UNSIGNED_BYTE | GL_FLOAT.

Record Attrib : Type := mkAttrib {
  attrib_name : string;
  attrib_size : nat;
  attrib_type : GLType;
  attrib_normalized : bool;
  attrib_static : option (list Q)
}.

Definition attribs : list Attrib := [
  mkAttrib "a_position" 4 GL_SHORT false None;
  mkAttrib "a_shape" 4 GL_SHORT false None;
  mkAttrib "a_texcoord" 2 GL_UNSIGNED_SHORT true None;
  mkAttrib "a_offset" 2 GL_SHORT false None;
  mkAttrib "a_color" 4 GL_UNSIGNED_BYTE true None;
  mkAttrib "a_outline_color" 4 GL_UNSIGNED_BYTE true (Some [0; 0; 0; 0]);
  mkAttrib "a_outline_edge" 1 GL_FLOAT false (Some [0]);
  mkAttrib "a_selection_color" 4 GL_UNSIGNED_BYTE true None
].

(** The copy of [attribs] made for shader-drawn points: the static values of
    the two outline attributes are cleared. *)
Definition attribs_shader_point : list Attrib :=
  map (fun x =>
         if (String.eqb (attrib_name x) "a_outline_color"
             || String.eqb (attrib_name x) "a_outline_edge")%bool
         then mkAttrib (attrib_name x) (attrib_size x) (attrib_type x)
                       (attrib_normalized x) None
         else x) attribs.

(** A vertex layout: the attributes and the [index] object that maps an
    attribute name to its position in the vertex template. *)
Record VertexLayout : Type := mkVertexLayout {
  layout_attribs : list Attrib;
  layout_index : gmap string nat
}.

(** ** Quads, buffers and meshes *)

(** The fourth argument of [buildQuadsForPoints]. *)
Record QuadIndices : Type := mkQuadIndices {
  texcoord_index : option nat;
  position_index : option nat;
  shape_index : option nat;
  offset_index : option nat;
  offsets_index : option nat;
  pre_angles_index : option nat;
  angles_index : option nat
}.

(** The fifth argument of [buildQuadsForPoints]. *)
Record QuadOptions : Type := mkQuadOptions {
  quad : jsval;
  quad_normalize : Q;
  quad_offset : jsval;
  quad_offsets : jsval;
  quad_pre_angles : jsval;
  quad_angle : Q;
  quad_angles : jsval;
  quad_curve : bool;
  quad_texcoord_scale : jsval;
  quad_texcoord_normalize : Q;
  quad_pre_angles_normalize : Q;
  quad_angles_normalize : Q;
  quad_offsets_normalize : Q
}.

(** One invocation of [buildQuadsForPoints]. *)
Record QuadCall : Type := mkQuadCall {
  call_points : list jsval;
  call_template : list jsval;
  call_indices : QuadIndices;
  call_options : QuadOptions
}.

(** Modelled from the spec: the vertex buffer behind [vertex_data] is owned
    by the caller and is write-only for the encoder (sections 3 and 4.3), and
    [builders/points] is missing from the sources; the buffer is the sequence
    of quad requests appended to it. *)
Record VertexData : Type := mkVertexData {
  vertex_layout : VertexLayout;
  vertex_quads : list QuadCall
}.

Record MeshVariant : Type := mkMeshVariant {
  variant_key : string;
  variant_order : nat
}.

Record Mesh : Type := mkMesh {
  mesh_variant : MeshVariant;
  mesh_uniforms : option (gmap string jsval);
  mesh_vertex_data : VertexData
}.

(** An entry of [this.tile_data]. *)
Record TileData : Type := mkTileData {
  td_meshes : gmap string Mesh;
  td_textures : list jsval
}.

(** The label and the style that [build] receives: a label as the collision
    pass accepted it, and the style of the feature being built. *)
Record BuildLabel : Type := mkBuildLabel {
  label_type : option string;
  label_angle : Q;
  label_position : jsval;
  label_offset : jsval;
  label_num_segments : nat;
  label_angles : jsval;
  label_pre_angles : jsval;
  label_offsets : jsval
}.

Record BuildStyle : Type := mkBuildStyle {
  bs_size : jsval;
  bs_texcoords : jsval;
  bs_texcoords_stroke : jsval;
  bs_label_textures : list string;
  bs_label_texture : option string;
  bs_texture : option string;
  bs_angle : Q;
  bs_label : BuildLabel
}.

(** Truthiness of a string that may be [undefined] or [null]. *)
Definition str_truthy (o : option string) : bool :=
  match o with
  | Some s => negb (String.eqb s "")
  | None => false
  end.

(** A property name: [undefined] as a key reads the property "undefined". *)
Definition js_key (o : option string) : string := default "undefined" o.

(** The property names every plain object inherits. *)
Definition Object_prototype_names : list string :=
  ["constructor"; "hasOwnProperty"; "isPrototypeOf"; "propertyIsEnumerable";
   "toLocaleString"; "toString"; "valueOf"; "__proto__"; "__defineGetter__";
   "__defineSetter__"; "__lookupGetter__"; "__lookupSetter__"].

(** [o[k]] as a condition, on a plain object with the own properties [o]: a
    name every object inherits reads a built-in, which is truthy, when the
    object has no property of its own under it. *)
Definition js_has_truthy (o : gmap string jsval) (k : string) : bool :=
  match o !! k with
  | Some v => js_truthy v
  | None => bool_decide (k ∈ Object_prototype_names)
  end.

(** A mesh object is named by the tile and the variant key it is kept
    under. *)
Definition MeshRef : Type := (string * string)%type.

(** ** Collaborators *)

(** The modules the style calls that are missing from the sources, as
    parameters.  Those typed as plain functions are taken to return a value
    on every input: what the style does when one of them throws is not
    modelled, and a property that has the style return is relative to that.
    [getTileMesh], of the base style, gives the reference of a mesh, the
    mesh and the tile data after the lookup, or throws. *)
Class Collaborators : Type := {
  (* labels/label_point, labels/point_placement, geo *)
  Label : Type;
  LabelPoint : jsval -> Q * Q -> Style -> Label;
  placePointsOnLine : jsval -> Q * Q -> Style -> list Label;
  Geo_centroid : jsval -> jsval;
  Geo_multiCentroid : jsval -> jsval;
  (* styles/text/text_labels *)
  TextsState : Type;
  parseTextFeature :
    Feature -> TextDraw -> Context -> Tile -> TextsState -> TextsState * ParsedText;
  preprocessText : option TextDraw -> option TextDraw;
  (* labels/collision *)
  CollisionState : Type;
  Collision_addStyle : string -> string -> CollisionState -> CollisionState;
  (* gl/texture *)
  Texture_getSpriteInfo : string -> string -> option SpriteInfo;
  Texture_default : jsval;
  (* styles/style_parser *)
  defaults_outline_width : Q;
  defaults_z : Q;
  zeroPair : jsval;
  (* styles/style, gl/vertex_layout, builders/points *)
  startData : Tile -> gmap string TileData -> gmap string TileData;
  getTileMesh :
    gmap string TileData -> Tile -> MeshVariant
    -> result (MeshRef * Mesh * gmap string TileData);
  VertexLayout_new : list Attrib -> VertexLayout;
  default_mesh_variant_key : string;
  is_default_mesh_variant : MeshVariant -> bool;
  makeVertexTemplate : BuildStyle -> MeshVariant -> list jsval;
  quads_geom_count : list jsval -> QuadOptions -> nat;
  (* built-in *)
  JSON_stringify : jsval -> string
}.

Section Points.

Context `{Collaborators}.

(** ** The style object and the module-level state it touches *)

Record World : Type := mkWorld {
  name : string;
  generation : Z;
  texture : option string;
  queues : gmap string (list QueueItem);
  tile_data : gmap string TileData;
  texture_missing_sprites : gmap string (gset string);
  texts : TextsState;
  Texture_textures : gmap string TextureEntry;
  collision : CollisionState;
  logs : list LogEntry
}.

Definition collision_group_points (w : World) : string := name w +:+ "-points".
Definition collision_group_text (w : World) : string := name w +:+ "-text".

Definition set_queues (w : World) (qs : gmap string (list QueueItem)) : World :=
  mkWorld (name w) (generation w) (texture w) qs (tile_data w)
          (texture_missing_sprites w) (texts w) (Texture_textures w)
          (collision w) (logs w).

Definition set_tile_data (w : World) (td : gmap string TileData) : World :=
  mkWorld (name w) (generation w) (texture w) (queues w) td
          (texture_missing_sprites w) (texts w) (Texture_textures w)
          (collision w) (logs w).

Definition set_texture_missing_sprites (w : World)
    (ms : gmap string (gset string)) : World :=
  mkWorld (name w) (generation w) (texture w) (queues w) (tile_data w)
          ms (texts w) (Texture_textures w) (collision w) (logs w).

Definition set_texts (w : World) (t : TextsState) : World :=
  mkWorld (name w) (generation w) (texture w) (queues w) (tile_data w)
          (texture_missing_sprites w) t (Texture_textures w)
          (collision w) (logs w).

Definition set_collision (w : World) (c : CollisionState) : World :=
  mkWorld (name w) (generation w) (texture w) (queues w) (tile_data w)
          (texture_missing_sprites w) (texts w) (Texture_textures w)
          c (logs w).

(** [log(...)]: the message is appended to the log. *)
Definition log (w : World) (level : string) (once : bool) (message : string)
    : World :=
  mkWorld (name w) (generation w) (texture w) (queues w) (tile_data w)
          (texture_missing_sprites w) (texts w) (Texture_textures w)
          (collision w) (logs w ++ [mkLogEntry level once message]).

(** ** Sprites *)

(** [style.texture && Texture.textures[style.texture] &&
    Texture.textures[style.texture].sprites], as a condition. *)
Definition hasSprites (w : World) (style_texture : option string) : bool :=
  str_truthy style_texture
  && match Texture_textures w !! js_key style_texture with
     | Some entry => bool_decide (is_Some (texture_sprites entry))
     | None => false
     end.

(** [getSpriteInfo (style, sprite)] reads [style.texture] only; a texture
    that is not registered, or has no sprites, has nothing to read the sprite
    from.  The sprites of a texture and the record of the missing sprites of
    a texture are plain objects: under a name every object inherits, both
    read a built-in, so that such a sprite counts as logged already.  The
    record of a texture that is itself named like that would be a built-in;
    such texture names are outside the model. *)
Definition getSpriteInfo (w : World) (style_texture : string)
    (sprite : option string) : result (World * option SpriteInfo) :=
  match Texture_textures w !! style_texture with
  | None => Throw TypeError
  | Some entry =>
      match texture_sprites entry with
      | None => Throw TypeError
      | Some sprites =>
          let info :=
            if js_has_truthy sprites (js_key sprite)
            then Texture_getSpriteInfo style_texture (js_key sprite)
            else None in
          if (str_truthy sprite && negb (bool_decide (is_Some info)))%bool then
            (* track missing sprites (per texture) *)
            let missing :=
              default ∅ (texture_missing_sprites w !! style_texture) in
            let w := set_texture_missing_sprites w
                       (<[style_texture := missing]> (texture_missing_sprites w)) in
            (* only log each missing sprite once *)
            if (bool_decide (js_key sprite ∈ missing)
                || bool_decide (js_key sprite ∈ Object_prototype_names))%bool
            then Ok (w, info)
            else
              let w := log w "debug" false
                         ("Style: in style '" +:+ name w
                          +:+ "', could not find sprite '" +:+ js_key sprite
                          +:+ "' for texture '" +:+ style_texture +:+ "'") in
              let w := set_texture_missing_sprites w
                         (<[style_texture := {[ js_key sprite ]} ∪ missing]>
                            (texture_missing_sprites w)) in
              Ok (w, info)
          else Ok (w, info)
      end
  end.

Definition parseSprite (w : World) (style_texture : string) (draw : Draw)
    (context : Context) : result (World * option SpriteInfo) :=
  let sprite := draw_sprite draw context in
  try r <- getSpriteInfo w style_texture sprite;
  match r with
  | (w, Some info) => Ok (w, Some info)
  | (w, None) => getSpriteInfo w style_texture (draw_sprite_default draw)
  end.

(** Whether a sprite is found in a texture:
    [Texture.textures[texture].sprites[sprite] &&
    Texture.getSpriteInfo (texture, sprite)], as a condition. *)
Definition sprite_found (w : World) (style_texture : string)
    (sprite : option string) : bool :=
  match Texture_textures w !! style_texture with
  | Some entry =>
      match texture_sprites entry with
      | Some sprites =>
          js_has_truthy sprites (js_key sprite)
          && bool_decide
               (is_Some (Texture_getSpriteInfo style_texture (js_key sprite)))
      | None => false
      end
  | None => false
  end.

(** ** [queueFeature] *)

Definition queueFeature (w : World) (q : QueueItem) (tile : Tile) : World :=
  let w :=
    if (negb (bool_decide (is_Some (tile_data w !! tile_id tile)))
        || negb (bool_decide (is_Some (queues w !! tile_id tile))))%bool
    then set_tile_data w (startData tile (tile_data w))
    else w in
  let queue := default [] (queues w !! tile_id tile) in
  set_queues w (<[tile_id tile := queue ++ [q]]> (queues w)).

(** ** [computeLayout] *)

(** [-1 >>> 0]: the unsigned 32-bit reading of [-1]. *)
Definition max_priority : Q := inject_Z ((-1) mod 2 ^ 32).

Definition computeLayout (target : Style) (feature : Feature) (draw : Draw)
    (context : Context) (tile : Tile) : Style :=
  let units_per_pixel :=
    match tile_units_per_pixel tile with
    | Some u => if num_truthy u then u else 1
    | None => 1
    end in
  let repeat_distance := draw_repeat_distance draw context in
  let repeat_applies :=
    match repeat_distance with
    | Some d => num_truthy d
    | None => false
    end in
  mkStyle
    (style_color target) (style_texture target) (style_texcoords target)
    (style_size target) (style_outline_width target) (style_outline_color target)
    (style_outline_edge_pct target) (style_placement target)
    (style_placement_min_length_ratio target) (style_placement_spacing target)
    (style_angle target) (style_z target) (style_tile_edges target)
    (style_label_texture target)
    (* layout.id *) feature
    (* layout.units_per_pixel *) units_per_pixel
    (* layout.collide *)
    (match draw_collide draw with JBool false => false | _ => true end)
    (* layout.cull_from_tile *)
    (match draw_cull_from_tile draw with
     | JUndefined | JNull => JBool false
     | v => v
     end)
    (* layout.move_into_tile *) false
    (* layout.anchor *) (draw_anchor draw)
    (* layout.offset *) (js_or (draw_offset draw context) zeroPair)
    (* layout.buffer *) (js_or (draw_buffer draw context) zeroPair)
    (* layout.repeat_distance *)
    (if repeat_applies
     then option_map (fun d => d * units_per_pixel) repeat_distance
     else repeat_distance)
    (* layout.repeat_group *)
    (if repeat_applies
     then match draw_repeat_group draw with
          | Some (RepeatGroupFunction f) => f context
          | Some (RepeatGroupString g) => JStr g
          | None => JStr (draw_key draw)
          end
     else style_repeat_group target)
    (* layout.priority *)
    (match draw_priority draw with
     | Some (PriorityFunction f) => f context
     | Some (PriorityNumber p) => p
     | None => max_priority
     end).

(** ** [addFeature] *)

(** Truthiness of [draw.priority]-like properties: a function is truthy, a
    number is truthy unless it is [0], an absent property is falsy. *)
Definition priority_truthy (p : option PriorityProp) : bool :=
  match p with
  | Some (PriorityFunction _) => true
  | Some (PriorityNumber n) => num_truthy n
  | None => false
  end.

(** Point size defined explicitly, or defaults to sprite size, or generic
    fallback (lines 158-173). *)
Definition point_size (draw : Draw) (context : Context)
    (sprite_info : option SpriteInfo) : Q * Q :=
  match draw_size draw with
  | None =>
      match sprite_info with
      | Some info => sprite_size info
      | None => (16, 16)
      end
  | Some size =>
      match size context with
      | SizeNumber n => (n, n) (* convert 1d size to 2d *)
      | SizePair w h => (w, h)
      end
  end.

(** Incorporate outline into size (lines 175-187): the outline width and
    color of the style, then the size and [outline_edge_pct]. *)
Definition style_outline (draw : Draw) (context : Context)
    : option Q * option Color :=
  match draw_outline draw with
  | Some outline =>
      (Some (match outline_width outline context with
             | Some ow => if num_truthy ow then ow else defaults_outline_width
             | None => defaults_outline_width
             end),
       outline_color outline context)
  | None => (None, None)
  end.

(** The two [+=] act on the array the style holds; here the style has a pair
    of its own. *)
Definition outlined_size (size : Q * Q) (outline : option Q * option Color)
    : (Q * Q) * Q :=
  match outline with
  | (Some ow, Some _) =>
      if num_truthy ow then
        let size := (fst size + ow, snd size + ow) in
        (* UV distance at which outline starts *)
        (size, ow / Qmin (fst size) (snd size) * 2)
      else (size, 0)
  | _ => (size, 0)
  end.

(** Size will be scaled to 16-bit signed int, so max allowed width + height
    of 256 pixels (lines 189-193). *)
Definition clamp_size (size : Q * Q) : Q * Q :=
  (Qmin (fst size) 256, Qmin (snd size) 256).

(** Point styling, after the sprite lookup (lines 158-214). *)
Definition point_style (feature : Feature) (draw : Draw) (context : Context)
    (tile : Tile) (color : option Color) (style_texture : option string)
    (sprite_info : option SpriteInfo) (texcoords : jsval) : Style :=
  let size := point_size draw context sprite_info in
  let outline := style_outline draw context in
  let '(size, outline_edge_pct) := outlined_size size outline in
  let size := clamp_size size in
  (* Placement strategy *)
  let placement := draw_placement draw in
  (* Spacing parameter (in pixels) to equally space points along a line *)
  let placement_spacing :=
    match draw_placement_spacing draw with
    | Some spacing =>
        if Placement_eqb placement SPACED then Some (spacing context) else None
    | None => None
    end in
  (* Angle parameter (can be a number or the string "auto") *)
  let angle := js_or (draw_angle draw context) (JNum 0) in
  (* points can be placed off the ground *)
  let z :=
    match draw_z draw with
    | Some dz => if num_truthy (dz context) then dz context else defaults_z
    | None => defaults_z
    end in
  computeLayout
    {| style_color := color;
       style_texture := style_texture;
       style_texcoords := texcoords;
       style_size := size;
       style_outline_width := fst outline;
       style_outline_color := snd outline;
       style_outline_edge_pct := outline_edge_pct;
       style_placement := placement;
       style_placement_min_length_ratio :=
         draw_placement_min_length_ratio draw context;
       style_placement_spacing := placement_spacing;
       style_angle := angle;
       style_z := z;
       style_tile_edges := draw_tile_edges draw;
       style_label_texture := JNull; (* clear out label texture assignment *)
       (* not yet assigned: the layout properties *)
       style_id := feature;
       style_units_per_pixel := 0;
       style_collide := false;
       style_cull_from_tile := JUndefined;
       style_move_into_tile := false;
       style_anchor := JUndefined;
       style_offset := JUndefined;
       style_buffer := JUndefined;
       style_repeat_distance := None;
       style_repeat_group := JUndefined;
       style_priority := 0 |}
    feature draw context tile.

(** [draw.text.priority], read where [draw.text] is known to be there. *)
Definition declared_text_priority (draw : Draw) : option PriorityProp :=
  match draw_text draw with
  | Some text => text_priority text
  | None => None
  end.

(** What the parent point changes in the layout of its text (lines 229-238). *)
Definition attach_to_point (draw : Draw) (style : Style) (tf : TextFeature)
    : TextFeature :=
  mkTextFeature (tf_draw tf) (tf_text tf) (tf_text_settings_key tf)
    {| (* parent point will apply additional anchor/offset to text *)
       layout_parent := Some style;
       (* Text labels have a default priority of 0.5 below their parent point
          (+0.5, priority is lower-is-better).  This can be overriden, as long
          as it is less than or equal to the default *)
       layout_priority :=
         if priority_truthy (declared_text_priority draw)
         then Qmax (layout_priority (tf_layout tf)) (style_priority style + 0.5)
         else style_priority style + 0.5;
       (* Text labels attached to points should not be moved into tile *)
       layout_move_into_tile := false;
       layout_rest := layout_rest (tf_layout tf) |}.

(** Text styling (lines 216-241). *)
Definition text_styling (w : World) (feature : Feature) (draw : Draw)
    (context : Context) (tile : Tile) (style : Style)
    : World * option TextFeature :=
  let '(w, tf) :=
    match draw_text draw with
    | Some text =>
        match text_visible text with
        | JBool false => (w, ParsedNone)
        | _ =>
            let '(t, parsed) :=
              parseTextFeature feature text context tile (texts w) in
            (set_texts w t, parsed)
        end
    | None => (w, ParsedNone)
    end in
  match tf with
  | ParsedArray _ =>
      (* boundary labels not supported for point label attachments *)
      (log w "warn" true
         ("Layer '" +:+ default "undefined" (last (draw_layers draw)) +:+ "': "
          +:+ "cannot use boundary labels (e.g. 'text_source: { left: ..., right: ... }') for 'text' labels attached to 'points'; "
          +:+ "provided 'text_source' value was '"
          +:+ JSON_stringify (match draw_text draw with
                              | Some text => text_text_source text
                              | None => JUndefined
                              end)
          +:+ "'"),
       None)
  | ParsedOne tf =>
      (set_collision w
         (Collision_addStyle (collision_group_text w) (tile_id tile) (collision w)),
       Some (attach_to_point draw style tf))
  | ParsedNone => (w, None)
  end.

(** The part of [addFeature] after the sprite lookup (lines 158-246). *)
Definition addFeature_styled (w : World) (feature : Feature) (draw : Draw)
    (context : Context) (tile : Tile) (color : option Color)
    (style_texture : option string) (sprite_info : option SpriteInfo)
    (texcoords : jsval) : World :=
  let style :=
    point_style feature draw context tile color style_texture sprite_info
      texcoords in
  let '(w, tf) := text_styling w feature draw context tile style in
  (* queue the feature for later processing *)
  let w := queueFeature w (mkQueueItem feature draw context style tf) tile in
  (* Register with collision manager *)
  set_collision w
    (Collision_addStyle (collision_group_points w) (tile_id tile) (collision w)).

(** Override to queue features instead of processing immediately. *)
Definition addFeature (w : World) (feature : Feature) (draw : Draw)
    (context : Context) : result World :=
  let tile := context_tile context in
  if negb (tile_generation tile =? generation w)%Z then Ok w
  else
    (* Point styling *)
    let color := draw_color draw context in
    (* optional or default texture *)
    let style_texture :=
      match draw_texture draw with
      | Some t => t
      | None => texture w
      end in
    (* require color or texture *)
    if (negb (bool_decide (is_Some color)) && negb (str_truthy style_texture))%bool
    then Ok w
    else if hasSprites w style_texture then
      (* optional sprite *)
      try r <- parseSprite w (js_key style_texture) draw context;
      match r with
      | (w, Some sprite_info) =>
          Ok (addFeature_styled w feature draw context tile color style_texture
                (Some sprite_info) (sprite_texcoords sprite_info))
      | (w, None) => Ok w
      end
    else
      Ok (addFeature_styled w feature draw context tile color style_texture
            None JUndefined).

(** ** [_preprocess], text part (lines 421-434) *)

(** Default to trying all anchor placements. *)
Definition default_anchor : jsval :=
  JArr [JStr "bottom"; JStr "top"; JStr "right"; JStr "left"].

(** Truthiness of a repeat group. *)
Definition repeat_group_truthy (g : option RepeatGroupProp) : bool :=
  match g with
  | Some (RepeatGroupFunction _) => true
  | Some (RepeatGroupString s) => negb (String.eqb s "")
  | None => false
  end.

(** The optional text styling of [_preprocess]; the property caches that the
    lines before it build are how [Draw] holds its properties. *)
Definition _preprocess (draw : Draw) : Draw :=
  let text :=
    match preprocessText (draw_text draw) with
    | Some text =>
        Some {| text_visible := text_visible text;
                text_priority := text_priority text;
                text_optional :=
                  match text_optional text with
                  | JBool b => JBool b
                  | _ => JBool false (* default text to required *)
                  end;
                text_text_source := text_text_source text;
                text_key := draw_key draw; (* inherits parent properties *)
                text_group := draw_group draw;
                text_layers := draw_layers draw;
                text_order := draw_order draw;
                text_repeat_group :=
                  if repeat_group_truthy (text_repeat_group text)
                  then text_repeat_group text
                  else draw_repeat_group draw;
                text_anchor := js_or (text_anchor text) default_anchor;
                text_interactive :=
                  js_or (text_interactive text) (draw_interactive draw) |}
    | None => None
    end in
  mkDraw (draw_color draw) (draw_texture draw) (draw_sprite draw)
         (draw_sprite_default draw) (draw_size draw) (draw_outline draw)
         (draw_placement draw) (draw_placement_min_length_ratio draw)
         (draw_placement_spacing draw) (draw_angle draw) (draw_z draw)
         (draw_tile_edges draw) text (draw_key draw) (draw_group draw)
         (draw_layers draw) (draw_order draw) (draw_interactive draw)
         (draw_collide draw) (draw_cull_from_tile draw) (draw_anchor draw)
         (draw_offset draw) (draw_buffer draw) (draw_repeat_distance draw)
         (draw_repeat_group draw) (draw_priority draw).

(** ** [buildLabels] *)

(** [labels.push(point_labels[i])] for every [i]. *)
Definition push_all (labels point_labels : list Label) : list Label :=
  foldl (fun labels l => labels ++ [l]) labels point_labels.

(** Builds one or more point labels for a geometry. *)
Definition buildLabels (size : Q * Q) (geometry : Geometry) (options : Style)
    : result (list Label) :=
  let labels : list Label := [] in
  let type := geometry_type geometry in
  let coordinates := geometry_coordinates geometry in
  if String.eqb type "Point" then
    Ok (labels ++ [LabelPoint coordinates size options])
  else if String.eqb type "MultiPoint" then
    let points := coordinates in
    try n <- js_length points;
    for_loop n (fun i labels =>
      try point <- js_get_index points i;
      Ok (labels ++ [LabelPoint point size options])) labels
  else if String.eqb type "LineString" then
    let line := coordinates in
    Ok (push_all labels (placePointsOnLine line size options))
  else if String.eqb type "MultiLineString" then
    let lines := coordinates in
    try n <- js_length lines;
    for_loop n (fun ln labels =>
      try line <- js_get_index lines ln;
      Ok (push_all labels (placePointsOnLine line size options))) labels
  else if String.eqb type "Polygon" then
    (* Point at polygon centroid (of outer ring) *)
    if Placement_eqb (style_placement options) CENTROID then
      let centroid := Geo_centroid coordinates in
      Ok (labels ++ [LabelPoint centroid size options])
    (* Point at each polygon vertex (all rings) *)
    else
      let rings := coordinates in
      try n <- js_length rings;
      for_loop n (fun ln labels =>
        try ring <- js_get_index rings ln;
        Ok (push_all labels (placePointsOnLine ring size options))) labels
  else if String.eqb type "MultiPolygon" then
    if Placement_eqb (style_placement options) CENTROID then
      let centroid := Geo_multiCentroid coordinates in
      Ok (labels ++ [LabelPoint centroid size options])
    else
      let polys := coordinates in
      try np <- js_length polys;
      for_loop np (fun p labels =>
        try rings <- js_get_index polys p;
        try n <- js_length rings;
        for_loop n (fun ln labels =>
          try ring <- js_get_index rings ln;
          Ok (push_all labels (placePointsOnLine ring size options))) labels)
        labels
  else
    Ok labels.

(** ** [endData] *)

(** The objects handed to the collision passes.  A point object and the
    text object built for it refer to each other; each is named by its
    position in the array it was pushed to ([point_objs], [text_objs]). *)
Record PointObj : Type := mkPointObj {
  po_feature : Feature;
  po_draw : Draw;
  po_context : Context;
  po_style : Style;
  po_label : Label;
  po_linked : option nat
}.

Record TextObj : Type := mkTextObj {
  to_feature : Feature;
  to_draw : TextDraw;
  to_context : Context;
  to_text : string;
  to_text_settings_key : string;
  to_layout : TextLayout;
  to_point_label : Label;
  to_linked : nat
}.

(** The outcome of [endData]: the promise it returns. *)
Inductive EndData : Type :=
| Resolved
    (* [Promise.resolve()] *)
| Colliding (point_objs : list PointObj) (text_objs : list TextObj)
    (* [Promise.all] of the points pass and the text pass over these objects,
       followed by the building of the accepted ones *).

(** The two collision passes [endData] starts before it returns:
    [Collision.collide] on the point objects and [collideAndRenderTextLabels],
    of the text label mixin, on the text objects.  Both are missing from the
    sources; they are given the objects, a collision group and the tile, and
    may change the state or throw.  What their promises resolve to, and the
    callbacks on them, run after [endData] has returned. *)
Class CollisionPasses : Type := {
  Collision_collide :
    list PointObj -> string -> string -> World -> result World;
  collideAndRenderTextLabels :
    Tile -> string -> list TextObj -> World -> result World
}.

Context `{CollisionPasses}.

(** [point_obj.linked = text_obj] on the point object at position [p]. *)
Definition link_point (point_objs : list PointObj) (p t : nat) : list PointObj :=
  alter (fun po => mkPointObj (po_feature po) (po_draw po) (po_context po)
                     (po_style po) (po_label po) (Some t)) p point_objs.

(** The body of the loop over [feature_labels] (lines 302-330). *)
Definition endData_label (q : QueueItem) (label : Label)
    (objs : list PointObj * list TextObj)
    : result (list PointObj * list TextObj) :=
  let '(point_objs, text_objs) := objs in
  let p := length point_objs in
  let point_obj :=
    mkPointObj (q_feature q) (q_draw q) (q_context q) (q_style q) label None in
  let point_objs := point_objs ++ [point_obj] in
  match q_text_feature q with
  | Some text_feature =>
      let t := length text_objs in
      let text_obj :=
        mkTextObj (q_feature q) (tf_draw text_feature) (q_context q)
          (tf_text text_feature) (tf_text_settings_key text_feature)
          (tf_layout text_feature) label
          p (* link so text only renders when parent point is placed *) in
      let text_objs := text_objs ++ [text_obj] in
      (* Unless text feature is optional, create a two-way link so that
         parent point will only render when text is also placed *)
      match draw_text (q_draw q) with
      | None => Throw TypeError
      | Some text =>
          if negb (js_truthy (text_optional text))
          then Ok (link_point point_objs p t, text_objs) (* two-way link *)
          else Ok (point_objs, text_objs)
      end
  | None => Ok (point_objs, text_objs)
  end.

(** The callback of [queue.forEach] (lines 295-332). *)
Definition endData_feature (q : QueueItem)
    (objs : list PointObj * list TextObj)
    : result (list PointObj * list TextObj) :=
  let style := q_style q in
  let feature := q_feature q in
  let geometry := feature_geometry feature in
  try feature_labels <- buildLabels (style_size style) geometry style;
  for_loop (length feature_labels) (fun i objs =>
    match feature_labels !! i with
    | Some label => endData_label q label objs
    | None => Ok objs
    end) objs.

(** [queue.forEach(...)]. *)
Fixpoint forEach {A S : Type} (f : A -> S -> result S) (l : list A) (s : S)
    : result S :=
  match l with
  | [] => Ok s
  | a :: l' => try s' <- f a s; forEach f l' s'
  end.

Definition endData (w : World) (tile : Tile) : result (World * EndData) :=
  if tile_canceled tile then
    let w := log w "trace" false
               ("Style " +:+ name w
                +:+ ": stop tile build because tile was canceled: "
                +:+ tile_key tile) in
    Ok (w, Resolved)
  else
    let queue := queues w !! tile_id tile in
    let w := set_queues w (delete (tile_id tile) (queues w)) in
    (* For each point feature, create one or more labels *)
    match queue with
    | None => Throw TypeError
    | Some queue =>
        try objs <- forEach endData_feature queue ([], []);
        (* Collide both points and text, then build features *)
        (* Points *)
        try w <- Collision_collide (fst objs) (collision_group_points w)
                   (tile_id tile) w;
        (* Labels *)
        try w <- collideAndRenderTextLabels tile (collision_group_text w)
                   (snd objs) w;
        Ok (w, Colliding (fst objs) (snd objs))
    end.

(** *** Linkage of point and text objects *)

(** The invariant of the two arrays [endData] fills: every text object links
    to a point object that carries the same label and whose draw group has
    the text, and that point links back exactly when the text is not
    optional; a point that links to a text is the point that text links to;
    no two text objects link to the same point. *)
Definition text_linked_to_point (point_objs : list PointObj) (j : nat)
    (text_obj : TextObj) : Prop :=
  exists point_obj text,
    point_objs !! to_linked text_obj = Some point_obj
    /\ po_label point_obj = to_point_label text_obj
    /\ draw_text (po_draw point_obj) = Some text
    /\ po_linked point_obj
       = if js_truthy (text_optional text) then None else Some j.

Definition links_consistent (objs : list PointObj * list TextObj) : Prop :=
  let '(point_objs, text_objs) := objs in
  (forall j text_obj,
     text_objs !! j = Some text_obj ->
     text_linked_to_point point_objs j text_obj)
  /\ (forall i point_obj j,
        point_objs !! i = Some point_obj ->
        po_linked point_obj = Some j ->
        exists text_obj, text_objs !! j = Some text_obj /\ to_linked text_obj = i)
  /\ (forall j j' text_obj text_obj',
        text_objs !! j = Some text_obj ->
        text_objs !! j' = Some text_obj' ->
        to_linked text_obj = to_linked text_obj' ->
        j = j').

(** ** Meshes of a tile *)

(** The mesh kept for a tile under a variant key. *)
Definition get_mesh (tile_data : gmap string TileData) (ref : MeshRef)
    : option Mesh :=
  match tile_data !! fst ref with
  | Some td => td_meshes td !! snd ref
  | None => None
  end.

(** A write through a mesh reference. *)
Definition put_mesh (tile_data : gmap string TileData) (ref : MeshRef)
    (mesh : Mesh) : gmap string TileData :=
  alter (fun td => mkTileData (<[snd ref := mesh]> (td_meshes td)) (td_textures td))
        (fst ref) tile_data.

Definition meshVariantTypeForDraw (draw : BuildStyle) : MeshVariant :=
  {| variant_key := (* unique key by texture name *)
       if str_truthy (bs_label_texture draw) then js_key (bs_label_texture draw)
       else if str_truthy (bs_texture draw) then js_key (bs_texture draw)
       else default_mesh_variant_key;
     variant_order := (* put text on top of points *)
       if str_truthy (bs_label_texture draw) then 1%nat else 0%nat |}.

Definition vertexLayoutForMeshVariant (variant : MeshVariant) : VertexLayout :=
  if is_default_mesh_variant variant
  then VertexLayout_new attribs_shader_point
  else VertexLayout_new attribs.

(** [mesh.uniforms = mesh.uniforms || {}] and the three uniforms of a point
    type. *)
Definition set_point_uniforms (mesh : Mesh) (u_texture : jsval)
    (u_point_type : Q) (u_apply_color_blocks : bool) : Mesh :=
  let uniforms := default ∅ (mesh_uniforms mesh) in
  mkMesh (mesh_variant mesh)
         (Some (<["u_apply_color_blocks" := JBool u_apply_color_blocks]>
                  (<["u_point_type" := JNum u_point_type]>
                     (<["u_texture" := u_texture]> uniforms))))
         (mesh_vertex_data mesh).

Definition set_vertex_data (mesh : Mesh) (vertex_data : VertexData) : Mesh :=
  mkMesh (mesh_variant mesh) (mesh_uniforms mesh) vertex_data.

(** A texture name as a uniform value. *)
Definition texture_value (o : option string) : jsval :=
  match o with
  | Some s => JStr s
  | None => JUndefined
  end.

(** ** [buildQuad] *)

(** Modelled from the spec: [buildQuadsForPoints] of [builders/points], which
    is missing from the sources, appends the request to the buffer and
    returns a geometry count. *)
Definition buildQuadsForPoints (points : list jsval) (vertex_data : VertexData)
    (vertex_template : list jsval) (indices : QuadIndices) (options : QuadOptions)
    : VertexData * nat :=
  (mkVertexData (vertex_layout vertex_data)
     (vertex_quads vertex_data
        ++ [mkQuadCall points vertex_template indices options]),
   quads_geom_count points options).

(** The two object literals of [buildQuad]. *)
Definition quad_indices (index : gmap string nat) : QuadIndices :=
  {| texcoord_index := index !! "a_texcoord";
     position_index := index !! "a_position";
     shape_index := index !! "a_shape";
     offset_index := index !! "a_offset";
     offsets_index := index !! "a_offsets";
     pre_angles_index := index !! "a_pre_angles";
     angles_index := index !! "a_angles" |}.

Definition quad_options (size : jsval) (angle : Q)
    (angles pre_angles offset offsets texcoord_scale : jsval) (curve : bool)
    : QuadOptions :=
  {| quad := size;
     quad_normalize := 256; (* values have an 8-bit fraction *)
     quad_offset := offset;
     quad_offsets := offsets;
     quad_pre_angles := pre_angles;
     quad_angle := angle * 4096; (* values have a 12-bit fraction *)
     quad_angles := angles;
     quad_curve := curve;
     quad_texcoord_scale := texcoord_scale;
     quad_texcoord_normalize := texcoord_normalize;
     quad_pre_angles_normalize := pre_angles_normalize;
     quad_angles_normalize := angles_normalize;
     quad_offsets_normalize := offsets_normalize |}.

Definition buildQuad (points : list jsval) (size : jsval) (angle : Q)
    (angles pre_angles offset offsets texcoord_scale : jsval) (curve : bool)
    (vertex_data : VertexData) (vertex_template : list jsval)
    : VertexData * nat :=
  buildQuadsForPoints
    points
    vertex_data
    vertex_template
    (quad_indices (layout_index (vertex_layout vertex_data)))
    (quad_options size angle angles pre_angles offset offsets texcoord_scale
       curve).

(** ** [buildLabel] and [buildArticulatedLabel] *)

Definition set_label_texture (style : BuildStyle) (t : option string)
    : BuildStyle :=
  mkBuildStyle (bs_size style) (bs_texcoords style) (bs_texcoords_stroke style)
               (bs_label_textures style) t (bs_texture style) (bs_angle style)
               (bs_label style).

Definition buildLabel (label : BuildLabel) (style : BuildStyle) (mesh : MeshRef)
    (context : Context) (tile_data : gmap string TileData)
    : result (nat * gmap string TileData) :=
  match get_mesh tile_data mesh with
  | None => Throw TypeError
  | Some mesh_obj =>
      let vertex_template := makeVertexTemplate style (mesh_variant mesh_obj) in
      let angle :=
        if num_truthy (label_angle label) then label_angle label
        else bs_angle style in
      try '(size, texcoords) <-
        (if str_truthy (label_type label) then
           try size <- js_get_field (bs_size style) (js_key (label_type label));
           try entry <- js_get_field (bs_texcoords style) (js_key (label_type label));
           try texcoords <- js_get_field entry "texcoord";
           Ok (size, texcoords)
         else Ok (bs_size style, bs_texcoords style));
      (* setup style or label texture if applicable *)
      let mesh_obj :=
        if str_truthy (bs_label_texture style) then
          set_point_uniforms mesh_obj (texture_value (bs_label_texture style))
            TANGRAM_POINT_TYPE_LABEL false
        else if str_truthy (bs_texture style) then
          set_point_uniforms mesh_obj (texture_value (bs_texture style))
            TANGRAM_POINT_TYPE_TEXTURE true
        else
          set_point_uniforms mesh_obj Texture_default
            TANGRAM_POINT_TYPE_SHADER true in
      let offset := label_offset label in
      let '(vertex_data, geom_count) :=
        buildQuad
          [label_position label]  (* position *)
          size                    (* size in pixels *)
          angle                   (* angle in radians *)
          JNull                   (* placeholder for multiple angles *)
          JNull                   (* placeholder for multiple pre_angles *)
          offset                  (* offset from center in pixels *)
          JNull                   (* placeholder for multiple offsets *)
          texcoords               (* texture UVs *)
          false                   (* if curved boolean *)
          (mesh_vertex_data mesh_obj) vertex_template in
      Ok (geom_count, put_mesh tile_data mesh (set_vertex_data mesh_obj vertex_data))
  end.

(** The variables the two loops of [buildArticulatedLabel] update: the style
    (its [label_texture] is re-pointed), the meshes and [geom_count]. *)
Definition ArticulatedState : Type :=
  (BuildStyle * gmap string TileData * nat)%type.

(** The write that ends the body of both loops: the label texture uniforms on
    the mesh of the segment, and one quad into its buffer. *)
Definition articulated_quad (vertex_template : list jsval)
    (tile_data : gmap string TileData)
    (position size : jsval) (angle : Q)
    (angles pre_angles offset offsets texcoord : jsval)
    (mesh : MeshRef) (mesh_data : Mesh) : gmap string TileData * nat :=
  let '(vertex_data, n) :=
    buildQuad
      [position]      (* position *)
      size            (* size in pixels *)
      angle           (* angle in degrees *)
      angles          (* angles per segment *)
      pre_angles      (* pre_angle array (rotation applied before offseting) *)
      offset          (* offset from center in pixels *)
      offsets         (* offsets per segment *)
      texcoord        (* texture UVs *)
      true            (* if curved *)
      (mesh_vertex_data mesh_data) vertex_template in
  (put_mesh tile_data mesh (set_vertex_data mesh_data vertex_data), n).

(** Body of the pass for stroke (lines 720-753). *)
Definition stroke_pass_body (label : BuildLabel) (context : Context)
    (vertex_template : list jsval) (angle : Q) (i : nat) (st : ArticulatedState)
    : result ArticulatedState :=
  let '(style, tile_data, geom_count) := st in
  try sizes <- js_get_field (bs_size style) (js_key (label_type label));
  try size <- js_get_index sizes i;
  try texcoord_stroke <- js_get_index (bs_texcoords_stroke style) i;
  (* re-point to correct label texture *)
  let style := set_label_texture style (bs_label_textures style !! i) in
  try '(mesh, mesh_data, tile_data) <-
    getTileMesh tile_data (context_tile context) (meshVariantTypeForDraw style);
  (* add label texture uniform if needed *)
  let mesh_data :=
    set_point_uniforms mesh_data (texture_value (bs_label_texture style))
      TANGRAM_POINT_TYPE_LABEL false in
  let offset := js_or (label_offset label) (JArr [JNum 0; JNum 0]) in
  let position := label_position label in
  try angles <- js_get_index (label_angles label) i;
  try offsets <- js_get_index (label_offsets label) i;
  try pre_angles <- js_get_index (label_pre_angles label) i;
  let '(tile_data, n) :=
    articulated_quad vertex_template tile_data position size
      angle angles pre_angles offset offsets texcoord_stroke mesh mesh_data in
  Ok (style, tile_data, (geom_count + n)%nat).

(** Body of the pass for fill (lines 756-789). *)
Definition fill_pass_body (label : BuildLabel) (context : Context)
    (vertex_template : list jsval) (angle : Q) (i : nat) (st : ArticulatedState)
    : result ArticulatedState :=
  let '(style, tile_data, geom_count) := st in
  try sizes <- js_get_field (bs_size style) (js_key (label_type label));
  try size <- js_get_index sizes i;
  try texcoords <- js_get_field (bs_texcoords style) (js_key (label_type label));
  try entry <- js_get_index texcoords i;
  try texcoord <- js_get_field entry "texcoord";
  (* re-point to correct label texture *)
  let style := set_label_texture style (bs_label_textures style !! i) in
  try '(mesh, mesh_data, tile_data) <-
    getTileMesh tile_data (context_tile context) (meshVariantTypeForDraw style);
  (* add label texture uniform if needed *)
  let mesh_data :=
    set_point_uniforms mesh_data (texture_value (bs_label_texture style))
      TANGRAM_POINT_TYPE_LABEL false in
  let offset := js_or (label_offset label) (JArr [JNum 0; JNum 0]) in
  let position := label_position label in
  try angles <- js_get_index (label_angles label) i;
  try offsets <- js_get_index (label_offsets label) i;
  try pre_angles <- js_get_index (label_pre_angles label) i;
  let '(tile_data, n) :=
    articulated_quad vertex_template tile_data position size
      angle angles pre_angles offset offsets texcoord mesh mesh_data in
  Ok (style, tile_data, (geom_count + n)%nat).

Definition buildArticulatedLabel (label : BuildLabel) (style : BuildStyle)
    (mesh : Mesh) (context : Context) (tile_data : gmap string TileData)
    : result ArticulatedState :=
  let vertex_template := makeVertexTemplate style (mesh_variant mesh) in
  let angle := label_angle label in
  let geom_count := 0%nat in
  (* two passes for stroke and fill, where stroke needs to be drawn first
     (painter's algorithm); this ensures strokes don't overlap on other fills *)
  (* pass for stroke *)
  try st <- for_loop (label_num_segments label)
              (stroke_pass_body label context vertex_template angle)
              (style, tile_data, geom_count);
  (* pass for fill *)
  for_loop (label_num_segments label)
    (fill_pass_body label context vertex_template angle) st.

(** Build quad for point sprite. *)
Definition build (style : BuildStyle) (mesh : MeshRef) (context : Context)
    (tile_data : gmap string TileData) : result (nat * gmap string TileData) :=
  let label := bs_label style in
  match label_type label with
  | Some "curved" =>
      match get_mesh tile_data mesh with
      | None => Throw TypeError
      | Some mesh_obj =>
          try '(_, tile_data, geom_count) <-
            buildArticulatedLabel label style mesh_obj context tile_data;
          Ok (geom_count, tile_data)
      end
  | _ => buildLabel label style mesh context tile_data
  end.

(** *** The quads of a curved label, segment by segment *)

Inductive Pass : Type := Stroke | Fill.

(** The body of the loop of a pass. *)
Definition pass_body (pass : Pass) :=
  match pass with
  | Stroke => stroke_pass_body
  | Fill => fill_pass_body
  end.

(** What one pass reads for segment [i]: the label texture the style is
    re-pointed to, the size and texture coordinates of the segment in the
    style, and the segment's own entries of the label's [angles], [offsets]
    and [pre_angles]. *)
Record SegmentQuad : Type := mkSegmentQuad {
  sq_label_texture : option string;
  sq_size : jsval;
  sq_texcoord : jsval;
  sq_angles : jsval;
  sq_offsets : jsval;
  sq_pre_angles : jsval
}.

Definition segment_quad (pass : Pass) (label : BuildLabel) (style : BuildStyle)
    (i : nat) : result SegmentQuad :=
  try sizes <- js_get_field (bs_size style) (js_key (label_type label));
  try size <- js_get_index sizes i;
  try texcoord <-
    match pass with
    | Stroke => js_get_index (bs_texcoords_stroke style) i
    | Fill =>
        try texcoords <-
          js_get_field (bs_texcoords style) (js_key (label_type label));
        try entry <- js_get_index texcoords i;
        js_get_field entry "texcoord"
    end;
  try angles <- js_get_index (label_angles label) i;
  try offsets <- js_get_index (label_offsets label) i;
  try pre_angles <- js_get_index (label_pre_angles label) i;
  Ok (mkSegmentQuad (bs_label_textures style !! i) size texcoord angles offsets
        pre_angles).

(** The reads of a pass for the segments [i], [i + 1], ..., [count] of them. *)
Fixpoint segment_quads_from (pass : Pass) (label : BuildLabel)
    (style : BuildStyle) (i count : nat) : result (list SegmentQuad) :=
  match count with
  | O => Ok []
  | Datatypes.S count' =>
      try sq <- segment_quad pass label style i;
      try rest <- segment_quads_from pass label style (Datatypes.S i) count';
      Ok (sq :: rest)
  end.

Definition segment_quads (pass : Pass) (label : BuildLabel) (style : BuildStyle)
    : result (list SegmentQuad) :=
  segment_quads_from pass label style 0 (label_num_segments label).

(** The key of the mesh a segment is written to. *)
Definition segment_key (style : BuildStyle) (sq : SegmentQuad) : string :=
  variant_key (meshVariantTypeForDraw (set_label_texture style (sq_label_texture sq))).

(** A quad request without the attribute indices of the buffer it went to:
    the points, the vertex template and the options. *)
Definition QuadRequest : Type := (list jsval * list jsval * QuadOptions)%type.

Definition call_request (call : QuadCall) : QuadRequest :=
  (call_points call, call_template call, call_options call).

(** The quad of a segment. *)
Definition segment_request (label : BuildLabel) (vertex_template : list jsval)
    (sq : SegmentQuad) : QuadRequest :=
  ([label_position label], vertex_template,
   quad_options (sq_size sq) (label_angle label) (sq_angles sq)
     (sq_pre_angles sq) (js_or (label_offset label) (JArr [JNum 0; JNum 0]))
     (sq_offsets sq) (sq_texcoord sq) true).

(** The requests in the buffer of the mesh stored under [key] for a tile, in
    the order they were written. *)
Definition requests_of (tile_data : gmap string TileData) (tile : Tile)
    (key : string) : list QuadRequest :=
  match get_mesh tile_data (tile_id tile, key) with
  | Some mesh => map call_request (vertex_quads (mesh_vertex_data mesh))
  | None => []
  end.

(** The quads of those segments that go to the mesh stored under [key]. *)
Definition requests_for (label : BuildLabel) (style : BuildStyle)
    (vertex_template : list jsval) (key : string) (sqs : list SegmentQuad)
    : list QuadRequest :=
  map (segment_request label vertex_template)
      (filter (fun sq => segment_key style sq = key) sqs).

(** The quad written for a segment, field by field: the position of the
    label, the vertex template, and in the options the size and texture
    coordinates of the segment, the angle of the label, the segment's own
    angles, pre-angles and offsets, and the curve flag. *)
Definition segment_written (label : BuildLabel) (vertex_template : list jsval)
    (sq : SegmentQuad) (request : QuadRequest) : Prop :=
  let '(points, template, options) := request in
  points = [label_position label]
  /\ template = vertex_template
  /\ quad options = sq_size sq
  /\ quad_angle options = label_angle label * 4096
  /\ quad_angles options = sq_angles sq
  /\ quad_pre_angles options = sq_pre_angles sq
  /\ quad_offset options = js_or (label_offset label) (JArr [JNum 0; JNum 0])
  /\ quad_offsets options = sq_offsets sq
  /\ quad_texcoord_scale options = sq_texcoord sq
  /\ quad_curve options = true.

(** *** What the builders ask of [getTileMesh] *)

(** [getTileMesh] of the base style is missing from the sources.  Asked for
    a variant on a tile that has data, it returns, and the tile still has
    data. *)
Definition getTileMesh_returns (tile : Tile) : Prop :=
  forall tile_data variant,
    is_Some (tile_data !! tile_id tile) ->
    exists mesh mesh_data tile_data1,
      getTileMesh tile_data tile variant = Ok (mesh, mesh_data, tile_data1)
      /\ is_Some (tile_data1 !! tile_id tile).

(** Moreover the mesh it returns is the one the tile keeps under the key of
    the variant, with the requests its buffer has so far (none when the mesh
    is new), and the lookup writes to no buffer of the tile. *)
Definition getTileMesh_by_key (tile : Tile) : Prop :=
  forall tile_data variant,
    is_Some (tile_data !! tile_id tile) ->
    exists mesh_data tile_data1,
      getTileMesh tile_data tile variant
      = Ok ((tile_id tile, variant_key variant), mesh_data, tile_data1)
      /\ is_Some (tile_data1 !! tile_id tile)
      /\ map call_request (vertex_quads (mesh_vertex_data mesh_data))
         = requests_of tile_data tile (variant_key variant)
      /\ forall key,
           key <> variant_key variant ->
           requests_of tile_data1 tile key = requests_of tile_data tile key.

End Points.

(** ** More of the style *)

Section PointsRest.

Context `{Collaborators}.

(** The size and texture coordinates [buildLabel] reads: those of the type of
    the label when it has one, those of the style otherwise. *)
Definition label_size_texcoords (label : BuildLabel) (style : BuildStyle)
    : result (jsval * jsval) :=
  if str_truthy (label_type label) then
    try size <- js_get_field (bs_size style) (js_key (label_type label));
    try entry <- js_get_field (bs_texcoords style) (js_key (label_type label));
    try texcoords <- js_get_field entry "texcoord";
    Ok (size, texcoords)
  else Ok (bs_size style, bs_texcoords style).

(** The texture, point type and color-block flag [buildLabel] sets on the
    mesh. *)
Definition label_point_uniforms (style : BuildStyle) : jsval * Q * bool :=
  if str_truthy (bs_label_texture style) then
    (texture_value (bs_label_texture style), TANGRAM_POINT_TYPE_LABEL, false)
  else if str_truthy (bs_texture style) then
    (texture_value (bs_texture style), TANGRAM_POINT_TYPE_TEXTURE, true)
  else (Texture_default, TANGRAM_POINT_TYPE_SHADER, true).

(** The geometry count of the quad of a segment. *)
Definition segment_geom_count (label : BuildLabel)
    (vertex_template : list jsval) (sq : SegmentQuad) : nat :=
  quads_geom_count [label_position label]
    (snd (segment_request label vertex_template sq)).

(** The label texture a style points to after the quads of some segments
    were written, one after the other. *)
Definition repointed_texture (t : option string) (sqs : list SegmentQuad)
    : option string :=
  foldl (fun _ sq => sq_label_texture sq) t sqs.

(** *** [reset] *)

(** [resetText] belongs to the text label mixin. *)
Definition reset (resetText : TextsState -> TextsState) (w : World) : World :=
  let w := set_queues w ∅ in
  let w := set_texts w (resetText (texts w)) in
  (* track which missing sprites we've found (reduce dupe log messages) *)
  set_texture_missing_sprites w ∅.

(** *** [setupDefines] *)

(** Setup defines common to points base and child (text) styles: the
    [defines] of the style and its [fade_in_time], from its [blend], the two
    debug settings and [VIEW_PAN_SNAP_TIME] of the view. *)
Definition setupDefines (suppress_label_fade_in : jsval)
    (suppress_label_snap_animation : jsval) (VIEW_PAN_SNAP_TIME : Q)
    (blend : string) (defines : gmap string jsval) : gmap string jsval * Q :=
  (* If we're not rendering as overlay, we need a layer attribute *)
  let defines :=
    if negb (String.eqb blend "overlay")
    then <["TANGRAM_LAYER_ORDER" := JBool true]> defines
    else defines in
  (* Fade out when tile is zooming out, e.g. acting as proxy tiles *)
  let defines := <["TANGRAM_FADE_ON_ZOOM_OUT" := JBool true]> defines in
  let defines := <["TANGRAM_FADE_ON_ZOOM_OUT_RATE" := JNum 2]> defines in
  (* Fade in (depending on tile proxy status) *)
  let '(fade_in_time, defines) :=
    match suppress_label_fade_in with
    | JBool true => (0, <["TANGRAM_FADE_IN_RATE" := JNull]> defines)
    | _ =>
        let fade_in_time := 0.15 in (* time in seconds *)
        (fade_in_time,
         <["TANGRAM_FADE_IN_RATE" := JNum (1 / fade_in_time)]> defines)
    end in
  (* Snap points to pixel grid after panning stop *)
  let defines :=
    match suppress_label_snap_animation with
    | JBool true => defines
    | _ => <["TANGRAM_VIEW_PAN_SNAP_RATE" := JNum (1 / VIEW_PAN_SNAP_TIME)]>
             defines
    end in
  (defines, fade_in_time).

(** *** [makeMesh] *)

(** [o[k] = v] on the fields of a plain object. *)
Fixpoint js_set_field (fields : list (string * jsval)) (k : string) (v : jsval)
    : list (string * jsval) :=
  match fields with
  | [] => [(k, v)]
  | (k', v') :: rest =>
      if String.eqb k k' then (k, v) :: rest
      else (k', v') :: js_set_field rest k v
  end.

(** [Object.assign (target, source)] on the fields of plain objects. *)
Definition js_assign (target source : list (string * jsval))
    : list (string * jsval) :=
  foldl (fun fields kv => js_set_field fields (fst kv) (snd kv)) target source.

(** [makeMesh]: the options, when given, are copied and the label fade time
    is added; [Style.makeMesh] of the base style does the rest. *)
Definition makeMesh {M : Type}
    (Style_makeMesh : VertexData -> jsval -> jsval -> M) (fade_in_time : Q)
    (vertex_data : VertexData) (vertex_elements : jsval)
    (options : option (list (string * jsval))) : M :=
  let options := default [] options in
  (* Add label fade time *)
  let options :=
    js_assign (js_assign [] options) [("fade_in_time", JNum fade_in_time)] in
  Style_makeMesh vertex_data vertex_elements (JObj options).

(** *** [buildTextLabels] *)

(** An entry of [this.texts[tile.id][text_settings_key]]. *)
Record TextInfo : Type := mkTextInfo {
  text_collision_size : Q * Q;
  text_logical_size : Q * Q
}.

(** [this.texts[tile.id][fq.text_settings_key][fq.text]], when every step
    of it finds something. *)
Definition text_info_of (texts : gmap string (gmap string (gmap string TextInfo)))
    (tile : Tile) (fq : TextObj) : option TextInfo :=
  match texts !! tile_id tile with
  | Some by_settings =>
      match by_settings !! to_text_settings_key fq with
      | Some by_text => by_text !! to_text fq
      | None => None
      end
  | None => None
  end.

(** Implements label building for the text label mixin: every queued text
    gets a label at the position of its point label ([Label_position] reads
    [label.position]), of the collision size of the text, with the layout of
    the text ([LabelPoint_text] is [new LabelPoint] on a text layout). *)
Definition buildTextLabels (Label_position : Label -> jsval)
    (LabelPoint_text : jsval -> Q * Q -> TextLayout -> Label)
    (texts : gmap string (gmap string (gmap string TextInfo)))
    (tile : Tile) (feature_queue : list TextObj)
    : result (list (TextObj * Label)) :=
  let labels : list (TextObj * Label) := [] in
  for_loop (length feature_queue) (fun f labels =>
    match feature_queue !! f with
    | Some fq =>
        match text_info_of texts tile fq with
        | Some text_info =>
            let size := text_collision_size text_info in
            let label :=
              LabelPoint_text (Label_position (to_point_label fq)) size
                (to_layout fq) in
            Ok (labels ++ [(fq, label)])
        | None => Throw TypeError
        end
    | None => Ok labels
    end) labels.

End PointsRest.

(** ** Calls on the shader program and on GL programs *)

(** Modelled from the spec: shader source assembly and uniform binding belong
    to external collaborators (section 1) that are missing from the sources;
    the calls made on them are kept, in the order they are made. *)
Inductive ShaderCall : Type :=
| RemoveBlock (key : string)
| AddBlock (key source : string)
| ReplaceShaderBlock (key source scope : string)
| AddShaderBlock (key source scope : string).

Record UniformCall : Type := mkUniformCall {
  uniform_type : string;
  uniform_name : string;
  uniform_value : jsval
}.

(** [v == null]. *)
Definition nullish (v : jsval) : bool :=
  match v with
  | JUndefined | JNull => true
  | _ => false
  end.

(** [v[k]] on a value that is neither [undefined] nor [null]: only a plain
    object has properties of its own under the names read here. *)
Definition js_prop (v : jsval) (k : string) : jsval :=
  match v with
  | JObj fields => js_field fields k
  | _ => JUndefined
  end.

(** [s.toUpperCase ()] on ASCII letters. *)
Definition upper_ascii (c : Ascii.ascii) : Ascii.ascii :=
  let n := Ascii.nat_of_ascii c in
  if ((97 <=? n) && (n <=? 122))%nat then Ascii.ascii_of_nat (n - 32) else c.

Fixpoint toUpperCase (s : string) : string :=
  match s with
  | EmptyString => EmptyString
  | String c rest => String (upper_ascii c) (toUpperCase rest)
  end.

(** ** Materials *)

Module Material.

Definition material_props : list string := ["ambient"; "diffuse"].

Definition block : string := "material".

(** A material: [this.ambient] and [this.diffuse], [undefined] when not
    set. *)
Record t : Type := mk {
  ambient : jsval;
  diffuse : jsval
}.

(** [this[prop]] and [this[prop] = v] for the names of [material_props]. *)
Definition get (this : t) (prop : string) : jsval :=
  if String.eqb prop "ambient" then ambient this
  else if String.eqb prop "diffuse" then diffuse this
  else JUndefined.

Definition set (this : t) (prop : string) (v : jsval) : t :=
  if String.eqb prop "ambient" then mk v (diffuse this)
  else if String.eqb prop "diffuse" then mk (ambient this) v
  else this.

(** The style a material is injected into: its [defines] and the calls made
    on its shader blocks. *)
Record Style : Type := mkStyle {
  defines : gmap string jsval;
  shader_calls : list ShaderCall
}.

Section WithCollaborators.

(** [GLSL.expandVec4], [StyleParser.parseColor] and the text of
    [gl/shaders/material.glsl]. *)
Variable expandVec4 : jsval -> jsval.
Variable parseColor : string -> jsval.
Variable shaderSrc_material : string.

Definition constructor (config : jsval) : t :=
  let config := js_or config (JObj []) in
  (* These properties all have the same defaults, so they can be set in bulk *)
  foldl (fun this prop =>
           let value := js_prop config prop in
           if negb (nullish value) then
             match value with
             | JNum _ | JArr _ =>
                 set this prop (JObj [("amount", expandVec4 value)])
             | JStr s => set this prop (JObj [("amount", parseColor s)])
             | _ => set this prop value
             end
           else this)
        (mk JUndefined JUndefined) material_props.

(** Determine if a material config block has sufficient properties to create
    a material. *)
Definition isValid (config : jsval) : bool :=
  if nullish config then false
  else if (nullish (js_prop config "ambient")
           && nullish (js_prop config "diffuse"))%bool then false
  else true.

Definition inject (this : t) (style : Style) : Style :=
  let style :=
    foldl (fun style prop =>
             let def := "TANGRAM_MATERIAL_" +:+ toUpperCase prop in
             mkStyle (<[def := JBool (negb (nullish (get this prop)))]>
                        (defines style))
                     (shader_calls style))
          style material_props in
  mkStyle (defines style)
          (shader_calls style
           ++ [ReplaceShaderBlock block shaderSrc_material "Material";
               AddShaderBlock "setup" "
material = u_material;
" "Material"]).

Definition setupProgram (this : t) (_program : list UniformCall)
    : list UniformCall :=
  foldl (fun _program prop =>
           if js_truthy (get this prop) then
             _program
             ++ [mkUniformCall "4fv" ("u_material." +:+ prop)
                   (js_prop (get this prop) "amount")]
           else _program)
        _program material_props.

End WithCollaborators.

End Material.

(** ** Lights *)

Module Light.

(** Shader block name. *)
Definition block : string := "lighting".

(** The config of a light; it must include the name and the type. *)
Record Config : Type := mkConfig {
  config_name : string;
  config_type : string;
  config_ambient : jsval;
  config_diffuse : jsval;
  config_direction : jsval
}.

(** A light: the properties the constructors set; [type], [struct_name] and
    [_direction] are those of the subclass and [undefined] on an abstract
    light. *)
Record t : Type := mk {
  name : string;
  view : jsval;
  ambient : jsval;
  diffuse : jsval;
  type : option string;
  struct_name : option string;
  _direction : jsval
}.

(** The style [setMode] writes to. *)
Definition Defines : Type := gmap string jsval.

(** The property names [Light.types], a plain object, inherits. *)
Definition Object_prototype_names : list string :=
  Eval cbv in Object_prototype_names.

Section WithCollaborators.

(** [GLSL.expandVec3], [StyleParser.parseColor], [Math.sin], [Math.cos],
    [parseFloat], [Vector.normalize], [Vector.copy], the text of
    [gl/shaders/directionalLight.glsl], and [Light.enabled]. *)
Variable expandVec3 : jsval -> jsval.
Variable parseColor : jsval -> list jsval.
Variable Math_sin : Q -> Q.
Variable Math_cos : Q -> Q.
Variable parseFloat : jsval -> jsval.
Variable Vector_normalize : jsval -> jsval.
Variable Vector_copy : jsval -> jsval.
Variable shaderSrc_directionalLight : string.
Variable enabled : bool.

(** Abstract light. *)
Definition constructor (view : jsval) (config : Config) : t :=
  let ambient :=
    if (nullish (config_ambient config)
        || match config_ambient config with JNum _ => true | _ => false end)%bool
    then expandVec3 (js_or (config_ambient config) (JNum 0))
    else JArr (take 3 (parseColor (config_ambient config))) in
  let diffuse :=
    if (nullish (config_diffuse config)
        || match config_diffuse config with JNum _ => true | _ => false end)%bool
    then expandVec3 (if negb (nullish (config_diffuse config))
                     then config_diffuse config else JNum 1)
    else JArr (take 3 (parseColor (config_diffuse config))) in
  mk (config_name config) view ambient diffuse None None JUndefined.

(** [set direction (v)]. *)
Definition set_direction (this : t) (v : jsval) : t :=
  mk (name this) (view this) (ambient this) (diffuse this) (type this)
     (struct_name this) (Vector_normalize (Vector_copy v)).

(** [get direction ()]. *)
Definition direction (this : t) : jsval := _direction this.

Definition DirectionalLight (view : jsval) (config : Config) : result t :=
  let this := constructor view config in
  let this :=
    mk (name this) (view) (ambient this) (diffuse this)
       (Some "directional") (Some "DirectionalLight") (_direction this) in
  let this :=
    if js_truthy (config_direction config) then
      mk (name this) (Light.view this) (ambient this) (diffuse this)
         (type this) (struct_name this) (config_direction config)
    else
      (* Default directional light maintains full intensity on ground, with
         basic extrusion shading *)
      let theta := 135 in (* angle of light in xy plane *)
      let scale := Math_sin (Math_PI * 60 / 180) in
      mk (name this) (Light.view this)
         (if nullish (config_ambient config) then expandVec3 (JNum 0.5)
          else ambient this)
         (diffuse this) (type this) (struct_name this)
         (JArr [JNum (Math_cos (Math_PI * theta / 180) * scale);
                JNum (Math_sin (Math_PI * theta / 180) * scale);
                JNum (-0.5)]) in
  (* this.direction = this._direction.map (parseFloat) *)
  match _direction this with
  | JArr components => Ok (set_direction this (JArr (map parseFloat components)))
  | _ => Throw TypeError
  end.

(** [Light.types], as this file leaves it: references to subclasses by short
    name. *)
Definition types : list (string * (jsval -> Config -> result t)) :=
  [("directional", DirectionalLight)].

(** The own properties of [Light.types].  [Light.types] is a plain object, so
    a lookup by one of [Object_prototype_names] finds an inherited property
    instead; such type names are outside the model. *)
Definition types_lookup (type : string)
    : option (jsval -> Config -> result t) :=
  snd <$> find (fun entry => String.eqb (fst entry) type) types.

(** Create a light by type name, factory-style; nothing is returned for a
    type that is not registered. *)
Definition create (view : jsval) (config : Config) : result (option t) :=
  match types_lookup (config_type config) with
  | Some new => try light <- new view config; Ok (Some light)
  | None => Ok None
  end.

(** Set light for a style: fragment lighting, vertex lighting, or none. *)
Definition setMode (mode : jsval) (defines : Defines) : Defines :=
  let mode := match mode with JBool true => JStr "fragment" | _ => mode end in
  (* default to fragment lighting *)
  let mode :=
    if enabled then (if negb (nullish mode) then mode else JStr "fragment")
    else JBool false in
  let mode_is (s : string) :=
    match mode with JStr m => String.eqb m s | _ => false end in
  <["TANGRAM_LIGHTING_VERTEX" := JBool (mode_is "vertex")]>
    (<["TANGRAM_LIGHTING_FRAGMENT" := JBool (mode_is "fragment")]> defines).

(** Inject struct and calculate function of the directional lights. *)
Definition DirectionalLight_inject : list ShaderCall :=
  [AddBlock block shaderSrc_directionalLight].

(** [Light.types[type].inject ()]. *)
Definition type_inject (type : string) : result (list ShaderCall) :=
  match types_lookup type with
  | Some _ => Ok DirectionalLight_inject
  | None => Throw TypeError
  end.

(** Common instance definition. *)
Definition inject_instance (this : t) : list ShaderCall :=
  let instance := "
            uniform " +:+ js_key (struct_name this) +:+ " u_" +:+ name this +:+ ";
            " +:+ js_key (struct_name this) +:+ " " +:+ name this +:+ ";
            " in
  let assign := "
            " +:+ name this +:+ " = u_" +:+ name this +:+ ";
" +:+ "
        " in
  [AddBlock block instance; AddBlock "setup" assign].

(** The keys of [types] after [types[lights[light_name].type] = true] for
    every light: each type once, in the order of its first light. *)
Definition light_types (lights : list (string * t)) : list string :=
  foldl (fun types light =>
           if bool_decide (js_key (type (snd light)) ∈ types) then types
           else types ++ [js_key (type (snd light))])
        [] lights.

(** The final lighting function that sums all the lights. *)
Definition calculateFunction (calculateLights : string) : string :=
  "
            vec4 calculateLighting(in vec3 _eyeToPoint, in vec3 _normal, in vec4 _color) {

                // Un roll the loop of individual ligths to calculate
                " +:+ calculateLights +:+ "

                //  Final light intensity calculation
                vec4 color = vec4(vec3(0.), _color.a); // start with vertex color alpha

                #ifdef TANGRAM_MATERIAL_AMBIENT
                    color.rgb += light_accumulator_ambient.rgb * _color.rgb * material.ambient.rgb;
                    color.a *= material.ambient.a;
                #else
                    #ifdef TANGRAM_MATERIAL_DIFFUSE
                        color.rgb += light_accumulator_ambient.rgb * _color.rgb * material.diffuse.rgb;
                    #endif
                #endif

                #ifdef TANGRAM_MATERIAL_DIFFUSE
                    color.rgb += light_accumulator_diffuse.rgb * _color.rgb * material.diffuse.rgb;
                    color.a *= material.diffuse.a;
                #endif

                // Clamp final color
                color = clamp(color, 0.0, 1.0);

                return color;
            }".

(** Inject all provided light definitions, and calculate cumulative light
    function.  The lights are given in the order their names are
    enumerated; nothing stands for [null] or [undefined]. *)
Definition inject (lights : option (list (string * t)))
    : result (list ShaderCall) :=
  (* Clear previous injections *)
  let calls := [RemoveBlock block] in
  (* If lighting is globally disabled, nothing is injected *)
  if negb enabled then Ok calls
  else
    (* Construct code to calculate each light instance *)
    let calculateLights := "" in
    try '(calls, calculateLights) <-
      match lights with
      | Some ((_ :: _) as lights) =>
          (* Collect uniques types of lights *)
          let types := light_types lights in
          (* Inject each type of light *)
          try calls <-
            forEach (fun type calls =>
                       try injected <- type_inject type;
                       Ok (calls ++ injected)) types calls;
          (* Inject per-instance blocks and construct the list of functions
             to calculate each light *)
          forEach (fun light acc =>
                     let '(light_name, this) := light in
                     let '(calls, calculateLights) := acc in
                     Ok (calls ++ inject_instance this,
                         calculateLights +:+ "calculateLight(" +:+ light_name
                         +:+ ", _eyeToPoint, _normal);
"))
                  lights (calls, calculateLights)
      | _ => Ok (calls, calculateLights)
      end;
    Ok (calls ++ [AddBlock block (calculateFunction calculateLights)]).

(** Called once per frame per program. *)
Definition setupProgram (this : t) (_program : list UniformCall)
    : list UniformCall :=
  (* Three common light properties *)
  _program
  ++ [mkUniformCall "3fv" ("u_" +:+ name this +:+ ".ambient") (ambient this);
      mkUniformCall "3fv" ("u_" +:+ name this +:+ ".diffuse") (diffuse this)].

Definition DirectionalLight_setupProgram (this : t)
    (_program : list UniformCall) : list UniformCall :=
  setupProgram this _program
  ++ [mkUniformCall "3fv" ("u_" +:+ name this +:+ ".direction")
        (direction this)].

End WithCollaborators.

End Light.

(** ** What materials and lights upload and inject, from their configs *)

(** The uniform a material built from a config uploads for one property: the
    expanded number or array, the parsed color string, the [amount] of an
    object, nothing for a value that is absent or falsy. *)
Definition material_upload (expandVec4 : jsval -> jsval)
    (parseColor : string -> jsval) (config : jsval) (prop : string)
    : list UniformCall :=
  match js_prop config prop with
  | (JNum _ | JArr _) as value =>
      [mkUniformCall "4fv" ("u_material." +:+ prop) (expandVec4 value)]
  | JStr s => [mkUniformCall "4fv" ("u_material." +:+ prop) (parseColor s)]
  | JObj fields =>
      [mkUniformCall "4fv" ("u_material." +:+ prop) (js_field fields "amount")]
  | JBool true => [mkUniformCall "4fv" ("u_material." +:+ prop) JUndefined]
  | JBool false | JUndefined | JNull => []
  end.

(** The calls [Light.inject] makes for lights of registered types. *)
Definition light_calls (shaderSrc_directionalLight : string)
    (lights : list (string * Light.t)) : list ShaderCall :=
  [RemoveBlock Light.block]
  ++ map (fun _ => AddBlock Light.block shaderSrc_directionalLight)
         (Light.light_types lights)
  ++ concat (map (fun light => Light.inject_instance (snd light)) lights)
  ++ [AddBlock Light.block
        (Light.calculateFunction
           (foldl (fun lines light =>
                     lines +:+ "calculateLight(" +:+ fst light
                     +:+ ", _eyeToPoint, _normal);
")
                  "" lights))].

(** ** Decoding and sample data *)

(** Decoding of the primary angle attribute, in the words of the
    specification (section 8): divide the fixed-point value by 4096. *)
Definition decode_angle (a : Q) : Q := a / 4096.

(** One quantization step of the angle attribute (section 8). *)
Definition angle_step : Q := 2 * Math_PI / 4096.

(** A [getTileMesh] for the examples: it finds the mesh the tile holds under
    the key of the variant, or opens one there with an empty buffer. *)
Definition sample_getTileMesh (tile_data : gmap string TileData) (tile : Tile)
    (variant : MeshVariant) : result (MeshRef * Mesh * gmap string TileData) :=
  let ref := (tile_id tile, variant_key variant) in
  match tile_data !! tile_id tile with
  | None => Throw TypeError
  | Some td =>
      match td_meshes td !! variant_key variant with
      | Some mesh => Ok (ref, mesh, tile_data)
      | None =>
          let mesh :=
            mkMesh variant None (mkVertexData (mkVertexLayout attribs ∅) []) in
          Ok (ref, mesh, put_mesh tile_data ref mesh)
      end
  end.

(** A small instance of the collaborators, for the examples: a label is its
    position and size, a line places one label per vertex, the centroid
    stand-ins return the first vertex of the first ring. *)
Definition sample_collaborators : Collaborators := {|
  Label := jsval * (Q * Q);
  LabelPoint := fun position size _ => (position, size);
  placePointsOnLine := fun line size _ =>
    match line with
    | JArr points => map (fun point => (point, size)) points
    | _ => []
    end;
  Geo_centroid := fun coordinates =>
    match coordinates with
    | JArr (JArr (point :: _) :: _) => point
    | _ => JUndefined
    end;
  Geo_multiCentroid := fun coordinates =>
    match coordinates with
    | JArr (JArr (JArr (point :: _) :: _) :: _) => point
    | _ => JUndefined
    end;
  TextsState := unit;
  parseTextFeature := fun _ text _ _ t =>
    (t, ParsedOne (mkTextFeature text "label" "key"
                     (mkTextLayout None
                        (match text_priority text with
                         | Some (PriorityNumber p) => p
                         | _ => 4294967295
                         end)
                        true JUndefined)));
  preprocessText := fun text => text;
  CollisionState := list (string * string);
  Collision_addStyle := fun group tile c => (group, tile) :: c;
  Texture_getSpriteInfo := fun _ _ => None;
  Texture_default := JNull;
  defaults_outline_width := 0;
  defaults_z := 0;
  zeroPair := JArr [JNum 0; JNum 0];
  startData := fun tile tile_data =>
    match tile_data !! tile_id tile with
    | Some _ => tile_data
    | None => <[tile_id tile := mkTileData ∅ []]> tile_data
    end;
  getTileMesh := sample_getTileMesh;
  VertexLayout_new := fun attribs =>
    mkVertexLayout attribs
      (list_to_map (zip (map attrib_name attribs) (seq 0 (length attribs))));
  default_mesh_variant_key := "0";
  is_default_mesh_variant := fun variant => String.eqb (variant_key variant) "0";
  makeVertexTemplate := fun _ _ => [];
  quads_geom_count := fun points _ => (2 * length points)%nat;
  JSON_stringify := fun _ => "null"
|}.

Definition sample_tile : Tile := mkTile "t1" "1/0/0" 7 false (Some 1).

Definition sample_context : Context := mkContext sample_tile JUndefined.

Definition sample_text : TextDraw :=
  mkTextDraw JUndefined (Some (PriorityNumber 3)) (JBool false) JUndefined
             "k" JUndefined ["pois"] JUndefined None JUndefined JUndefined.

(** A draw group with the given size and text. *)
Definition sample_draw (size : SizeValue) (text : option TextDraw) : Draw :=
  mkDraw (fun _ => Some [1; 0; 0; 1]) None (fun _ => None) None
         (Some (fun _ => size)) None VERTEX (fun _ => Some 1) None
         (fun _ => JNum 0) None JUndefined text "k" JUndefined ["pois"]
         JUndefined JUndefined JUndefined JUndefined JUndefined
         (fun _ => JUndefined) (fun _ => JUndefined) (fun _ => None) None
         (Some (PriorityNumber 5)).

Definition sample_point : Feature :=
  mkFeature (mkGeometry "Point" (JArr [JNum 1; JNum 2])) JUndefined.

Definition sample_world : @World sample_collaborators :=
  @mkWorld sample_collaborators "points" 7 None ∅ ∅ ∅ tt ∅ [] [].

(** Collision passes for the examples: each leaves a trace of its collision
    group in the log and changes nothing else. *)
Definition sample_passes : @CollisionPasses sample_collaborators := {|
  Collision_collide := fun _ group _ w =>
    Ok (@log sample_collaborators w "trace" false group);
  collideAndRenderTextLabels := fun _ group _ w =>
    Ok (@log sample_collaborators w "trace" false group)
|}.

(** A polygon with an outer ring and one hole. *)
Definition sample_polygon : jsval :=
  JArr [JArr [JArr [JNum 0; JNum 0]; JArr [JNum 4; JNum 0]; JArr [JNum 0; JNum 4]];
        JArr [JArr [JNum 1; JNum 1]; JArr [JNum 2; JNum 1]; JArr [JNum 1; JNum 2]]].

Definition sample_options (placement : Placement) : Style :=
  mkStyle None None JUndefined (10, 10) None None 0 placement None None
          (JNum 0) 0 JUndefined JNull sample_point 1 true (JBool false) false
          JUndefined JUndefined JUndefined None JUndefined 5.

(** A tile with one queued point that has a required text. *)
Definition sample_queued_world : @World sample_collaborators :=
  match @addFeature sample_collaborators sample_world sample_point
          (@_preprocess sample_collaborators
             (sample_draw (SizePair 10 10) (Some sample_text)))
          sample_context with
  | Ok w => w
  | Throw _ => sample_world
  end.

(** A curved label of two segments, drawn from one label texture. *)
Definition sample_curved_label : BuildLabel :=
  mkBuildLabel (Some "curved") 1 (JArr [JNum 3; JNum 4]) JUndefined 2
    (JArr [JArr [JNum 0.1]; JArr [JNum 0.2]])
    (JArr [JArr [JNum 0.01]; JArr [JNum 0.02]])
    (JArr [JArr [JNum 5]; JArr [JNum 6]]).

Definition sample_curved_style : BuildStyle :=
  mkBuildStyle
    (JObj [("curved", JArr [JArr [JNum 10; JNum 12]; JArr [JNum 11; JNum 12]])])
    (JObj [("curved", JArr [JObj [("texcoord", JStr "fill 0")];
                            JObj [("texcoord", JStr "fill 1")]])])
    (JArr [JStr "stroke 0"; JStr "stroke 1"])
    ["atlas"; "atlas"] None None 0 sample_curved_label.

Definition sample_mesh : Mesh :=
  mkMesh (mkMeshVariant "0" 0) None
         (mkVertexData (mkVertexLayout attribs ∅) []).

Definition sample_tile_data : gmap string TileData :=
  {[ "t1" := mkTileData ∅ [] ]}.

(** A world whose texture has a sprite sheet without any sprite in it. *)
Definition sample_sprite_world : @World sample_collaborators :=
  @mkWorld sample_collaborators "points" 7 (Some "atlas") ∅ ∅ ∅ tt
    {[ "atlas" := mkTextureEntry (Some ∅) ]} [] [].

(** The sample collaborators with a text parser that gives boundary labels:
    two text features for every text. *)
Definition sample_boundary_collaborators : Collaborators := {|
  Label := jsval * (Q * Q);
  LabelPoint := fun position size _ => (position, size);
  placePointsOnLine := fun line size _ =>
    match line with
    | JArr points => map (fun point => (point, size)) points
    | _ => []
    end;
  Geo_centroid := fun _ => JUndefined;
  Geo_multiCentroid := fun _ => JUndefined;
  TextsState := unit;
  parseTextFeature := fun _ text _ _ t =>
    (t, ParsedArray
          [mkTextFeature text "left" "key" (mkTextLayout None 0 true JUndefined);
           mkTextFeature text "right" "key" (mkTextLayout None 0 true JUndefined)]);
  preprocessText := fun text => text;
  CollisionState := list (string * string);
  Collision_addStyle := fun group tile c => (group, tile) :: c;
  Texture_getSpriteInfo := fun _ _ => None;
  Texture_default := JNull;
  defaults_outline_width := 0;
  defaults_z := 0;
  zeroPair := JArr [JNum 0; JNum 0];
  startData := fun tile tile_data =>
    match tile_data !! tile_id tile with
    | Some _ => tile_data
    | None => <[tile_id tile := mkTileData ∅ []]> tile_data
    end;
  getTileMesh := sample_getTileMesh;
  VertexLayout_new := fun attribs => mkVertexLayout attribs ∅;
  default_mesh_variant_key := "0";
  is_default_mesh_variant := fun variant => String.eqb (variant_key variant) "0";
  makeVertexTemplate := fun _ _ => [];
  quads_geom_count := fun points _ => (2 * length points)%nat;
  JSON_stringify := fun _ => "null"
|}.

Definition sample_boundary_world : @World sample_boundary_collaborators :=
  @mkWorld sample_boundary_collaborators "points" 7 None ∅ ∅ ∅ tt ∅ [] [].

(** A straight label, a style drawn from a texture, a style drawn from a
    label texture of the same name, and a tile with a mesh open for the
    first of them. *)
Definition sample_label : BuildLabel :=
  mkBuildLabel None 0 (JArr [JNum 3; JNum 4]) JUndefined 0
    JUndefined JUndefined JUndefined.

Definition sample_sprite_style : BuildStyle :=
  mkBuildStyle (JArr [JNum 10; JNum 12]) JUndefined JUndefined []
    None (Some "atlas") 0.5 sample_label.

Definition sample_text_style : BuildStyle :=
  mkBuildStyle (JArr [JNum 10; JNum 12]) JUndefined JUndefined []
    (Some "atlas") None 0.5 sample_label.

Definition sample_mesh_tile_data : gmap string TileData :=
  {[ "t1" := mkTileData
               {[ "atlas" := mkMesh (mkMeshVariant "atlas" 0) None
                               (mkVertexData (mkVertexLayout attribs ∅) []) ]}
               [] ]}.

(** Stand-ins for the collaborators of the lights, and the config of a
    directional light that gives nothing but its name and type. *)
Definition sample_expandVec3 (v : jsval) : jsval := JArr [v; v; v].

Definition sample_parseColor (v : jsval) : list jsval :=
  [JNum 1; JNum 0; JNum 0; JNum 1].

Definition sample_light_config : Light.Config :=
  Light.mkConfig "sun" "directional" JUndefined JUndefined JUndefined.

Definition sample_light : Light.t :=
  Light.mk "sun" JUndefined (JArr [JNum 0; JNum 0; JNum 0])
    (JArr [JNum 1; JNum 1; JNum 1]) (Some "directional")
    (Some "DirectionalLight") (JArr [JNum 0; JNum 0; JNum (-1)]).

(** The sample collaborators with a texture module that knows the sprite
    "pin". *)
Definition sample_sprite_collaborators : Collaborators := {|
  Label := @Label sample_collaborators;
  LabelPoint := @LabelPoint sample_collaborators;
  placePointsOnLine := @placePointsOnLine sample_collaborators;
  Geo_centroid := @Geo_centroid sample_collaborators;
  Geo_multiCentroid := @Geo_multiCentroid sample_collaborators;
  TextsState := @TextsState sample_collaborators;
  parseTextFeature := @parseTextFeature sample_collaborators;
  preprocessText := @preprocessText sample_collaborators;
  CollisionState := @CollisionState sample_collaborators;
  Collision_addStyle := @Collision_addStyle sample_collaborators;
  Texture_getSpriteInfo := fun _ sprite =>
    if String.eqb sprite "pin"
    then Some (mkSpriteInfo (JStr "pin") (24, 32))
    else None;
  Texture_default := JNull;
  defaults_outline_width := 0;
  defaults_z := 0;
  zeroPair := JArr [JNum 0; JNum 0];
  startData := @startData sample_collaborators;
  getTileMesh := sample_getTileMesh;
  VertexLayout_new := @VertexLayout_new sample_collaborators;
  default_mesh_variant_key := "0";
  is_default_mesh_variant := @is_default_mesh_variant sample_collaborators;
  makeVertexTemplate := fun _ _ => [];
  quads_geom_count := fun points _ => (2 * length points)%nat;
  JSON_stringify := fun _ => "null"
|}.

(** A world of theirs whose texture has a sprite sheet with the sprite
    "pin". *)
Definition sample_pin_world : @World sample_sprite_collaborators :=
  @mkWorld sample_sprite_collaborators "points" 7 (Some "atlas") ∅ ∅ ∅ tt
    {[ "atlas" := mkTextureEntry (Some {[ "pin" := JObj [] ]}) ]} [] [].

(** A draw group without a color, with the given texture and sprite. *)
Definition sample_sprite_draw (texture : option (option string))
    (sprite : option string) : Draw :=
  mkDraw (fun _ => None) texture (fun _ => sprite) None
         None None VERTEX (fun _ => Some 1) None
         (fun _ => JNum 0) None JUndefined None "k" JUndefined ["pois"]
         JUndefined JUndefined JUndefined JUndefined JUndefined
         (fun _ => JUndefined) (fun _ => JUndefined) (fun _ => None) None
         (Some (PriorityNumber 5)).

(** ** Properties *)

Section PointsFacts.

Context `{Collaborators} `{!CollisionPasses}.

(** *** Loops *)

Lemma push_all_app (labels point_labels : list Label) :
  push_all labels point_labels = labels ++ point_labels.
Proof.
  unfold push_all. revert labels.
  induction point_labels as [|l ls IH]; intros labels; cbn.
  - by rewrite app_nil_r.
  - rewrite IH. by rewrite <- app_assoc.
Qed.

(** A counting loop over the elements of an array visits them in order. *)
Lemma for_loop_from_elements {S : Type} (f : jsval -> S -> result S)
    (pre l : list jsval) (s : S) :
  for_loop_from (length pre) (length l)
    (fun i s => try x <- js_get_index (JArr (pre ++ l)) i; f x s) s
  = forEach f l s.
Proof.
  revert pre s. induction l as [|x l IH]; intros pre s; [done|].
  cbn [length for_loop_from forEach js_get_index result_bind].
  assert (E : js_index (pre ++ x :: l) (length pre) = x).
  { unfold js_index. by rewrite list_lookup_middle. }
  rewrite E.
  destruct (f x s) as [s'|e]; cbn [result_bind]; [|done].
  specialize (IH (pre ++ [x]) s').
  rewrite length_app in IH. cbn [length] in IH.
  rewrite Nat.add_1_r in IH. rewrite <- app_assoc in IH. exact IH.
Qed.

Lemma for_loop_elements {S : Type} (f : jsval -> S -> result S)
    (l : list jsval) (s : S) :
  for_loop (length l) (fun i s => try x <- js_get_index (JArr l) i; f x s) s
  = forEach f l s.
Proof. exact (for_loop_from_elements f [] l s). Qed.

(** Running a callback that only appends visits every element. *)
Lemma forEach_append {A B : Type} (g : A -> list B) (l : list A) (acc : list B) :
  forEach (fun a acc => Ok (acc ++ g a)) l acc = Ok (acc ++ concat (map g l)).
Proof.
  revert acc. induction l as [|a l IH]; intros acc; cbn.
  - by rewrite app_nil_r.
  - rewrite IH. by rewrite <- app_assoc.
Qed.

Lemma forEach_ext {A S : Type} (f g : A -> S -> result S) (l : list A) (s : S) :
  (forall a s, f a s = g a s) -> forEach f l s = forEach g l s.
Proof.
  intros E. revert s. induction l as [|a l IH]; intros s; cbn; [done|].
  rewrite E. destruct (g a s); cbn; [apply IH|done].
Qed.

(** *** What [addFeature] queues *)

Lemma getSpriteInfo_queues w style_texture sprite w' info :
  getSpriteInfo w style_texture sprite = Ok (w', info) ->
  queues w' = queues w /\ texts w' = texts w.
Proof.
  unfold getSpriteInfo. intros E.
  repeat match type of E with
  | context [match ?x with _ => _ end] => destruct x
  end; inversion E; split; reflexivity.
Qed.

Lemma parseSprite_queues w style_texture draw context w' info :
  parseSprite w style_texture draw context = Ok (w', info) ->
  queues w' = queues w /\ texts w' = texts w.
Proof.
  unfold parseSprite. intros E.
  destruct (getSpriteInfo w style_texture (draw_sprite draw context))
    as [[w1 [i1|]]|] eqn:E1; cbn in E; try discriminate.
  - inversion E; subst. eapply getSpriteInfo_queues; eassumption.
  - apply getSpriteInfo_queues in E as [? ?].
    apply getSpriteInfo_queues in E1 as [? ?]. split; congruence.
Qed.

Lemma text_styling_queues w feature draw context tile style :
  queues (fst (text_styling w feature draw context tile style)) = queues w.
Proof.
  unfold text_styling.
  destruct (draw_text draw) as [text|]; [|reflexivity].
  destruct (parseTextFeature feature text context tile (texts w))
    as [t parsed] eqn:Ep.
  destruct (text_visible text) as [| |[|]| | | |];
    destruct parsed as [|tfs|parsed]; reflexivity.
Qed.

Lemma queueFeature_queues w q tile :
  queues (queueFeature w q tile)
  = <[tile_id tile := default [] (queues w !! tile_id tile) ++ [q]]> (queues w).
Proof.
  unfold queueFeature.
  destruct (_ || _)%bool; reflexivity.
Qed.


(** Either nothing is queued, or the item queued for the tile is made of
    [point_style] and [text_styling]. *)
Lemma addFeature_queued w feature draw context w' :
  addFeature w feature draw context = Ok w' ->
  queues w' = queues w
  \/ exists color style_texture sprite_info texcoords w1,
       texts w1 = texts w
       /\ queues w'
          = <[tile_id (context_tile context) :=
                default [] (queues w !! tile_id (context_tile context))
                ++ [mkQueueItem feature draw context
                      (point_style feature draw context (context_tile context)
                         color style_texture sprite_info texcoords)
                      (snd (text_styling w1 feature draw context
                              (context_tile context)
                              (point_style feature draw context
                                 (context_tile context) color style_texture
                                 sprite_info texcoords)))]]>
              (queues w).
Proof.
  unfold addFeature. intros E.
  destruct (negb _); [inversion E; by left|].
  destruct (_ && _)%bool; [inversion E; by left|].
  set (style_texture := match draw_texture draw with
                        | Some t => t
                        | None => texture w
                        end) in *.
  destruct (hasSprites w style_texture).
  - destruct (parseSprite w _ draw context) as [[w1 [info|]]|] eqn:Es;
      cbn in E; try discriminate; inversion E; subst; clear E.
    + apply parseSprite_queues in Es as [Eq Et]. right.
      exists (draw_color draw context), style_texture, (Some info).
      exists (sprite_texcoords info), w1. split; [exact Et|].
      unfold addFeature_styled.
      pose proof (text_styling_queues w1 feature draw context
                    (context_tile context)
                    (point_style feature draw context (context_tile context)
                       (draw_color draw context) style_texture (Some info)
                       (sprite_texcoords info))) as Q.
      destruct (text_styling w1 _ _ _ _ _) as [w2 tf].
      cbn [queues set_collision fst snd] in *. rewrite queueFeature_queues.
      rewrite Q, Eq. reflexivity.
    + apply parseSprite_queues in Es as [Eq _]. by left.
  - inversion E; subst; clear E. right.
    exists (draw_color draw context), style_texture, None.
    exists JUndefined, w. split; [reflexivity|].
    unfold addFeature_styled.
    pose proof (text_styling_queues w feature draw context
                  (context_tile context)
                  (point_style feature draw context (context_tile context)
                     (draw_color draw context) style_texture None JUndefined))
      as Q.
    destruct (text_styling w _ _ _ _ _) as [w2 tf].
    cbn [queues set_collision fst snd] in *. rewrite queueFeature_queues.
    rewrite Q. reflexivity.
Qed.

(** The item at the end of the tile's queue, when [addFeature] put one. *)
Lemma addFeature_queued_item w feature draw context w' q :
  addFeature w feature draw context = Ok w' ->
  queues w' !! tile_id (context_tile context)
  = Some (default [] (queues w !! tile_id (context_tile context)) ++ [q]) ->
  exists color style_texture sprite_info texcoords w1,
    texts w1 = texts w
    /\ q = mkQueueItem feature draw context
             (point_style feature draw context (context_tile context)
                color style_texture sprite_info texcoords)
             (snd (text_styling w1 feature draw context (context_tile context)
                     (point_style feature draw context (context_tile context)
                        color style_texture sprite_info texcoords))).
Proof.
  intros E Hq. apply addFeature_queued in E as [E|E].
  - exfalso. rewrite E in Hq.
    destruct (queues w !! tile_id (context_tile context)) as [l|];
      [|discriminate].
    cbn in Hq. inversion Hq as [Hl].
    apply (f_equal length) in Hl. rewrite length_app in Hl. cbn in Hl. lia.
  - destruct E as (color & style_texture & sprite_info & texcoords & w1 & Et & E).
    exists color, style_texture, sprite_info, texcoords, w1. split; [exact Et|].
    rewrite E in Hq. rewrite lookup_insert_eq in Hq.
    inversion Hq as [Hl]. apply app_inv_head in Hl. by inversion Hl.
Qed.

(** [addFeature] does not throw: the sprites are only looked up in a
    texture that [hasSprites] found with its sprites. *)
Lemma getSpriteInfo_returns w style_texture sprite entry sprites :
  Texture_textures w !! style_texture = Some entry ->
  texture_sprites entry = Some sprites ->
  exists w' info,
    getSpriteInfo w style_texture sprite = Ok (w', info)
    /\ Texture_textures w' = Texture_textures w.
Proof.
  intros He Hs. unfold getSpriteInfo. rewrite He, Hs.
  destruct (_ && _)%bool; [|by eexists _, _].
  destruct (_ || _)%bool; by eexists _, _.
Qed.

Lemma addFeature_returns w feature draw context :
  exists w', addFeature w feature draw context = Ok w'.
Proof.
  unfold addFeature.
  destruct (negb _); [by eexists|].
  destruct (_ && _)%bool; [by eexists|].
  set (style_texture := match draw_texture draw with
                        | Some t => t
                        | None => texture w
                        end).
  destruct (hasSprites w style_texture) eqn:Hh; [|by eexists].
  unfold hasSprites in Hh. apply andb_prop in Hh as [_ Hh].
  destruct (Texture_textures w !! js_key style_texture) as [entry|] eqn:He;
    [|discriminate].
  apply bool_decide_eq_true in Hh as [sprites Hs].
  unfold parseSprite.
  destruct (getSpriteInfo_returns w (js_key style_texture)
              (draw_sprite draw context) entry sprites He Hs)
    as (w1 & info & E1 & Et1).
  rewrite E1. cbn [result_bind]. destruct info as [info|]; [by eexists|].
  rewrite <- Et1 in He.
  destruct (getSpriteInfo_returns w1 (js_key style_texture)
              (draw_sprite_default draw) entry sprites He Hs)
    as (w2 & info2 & E2 & _).
  rewrite E2. cbn [result_bind]. destruct info2; by eexists.
Qed.

(** A feature of the current generation that has a color, and a texture
    without sprites or none, is queued for its tile. *)
Lemma addFeature_queues_feature w feature draw context :
  tile_generation (context_tile context) = generation w ->
  is_Some (draw_color draw context) ->
  hasSprites w (match draw_texture draw with
                | Some t => t
                | None => texture w
                end) = false ->
  exists w' q,
    addFeature w feature draw context = Ok w'
    /\ queues w' !! tile_id (context_tile context)
       = Some (default [] (queues w !! tile_id (context_tile context)) ++ [q]).
Proof.
  intros Hgen Hcolor Hsprites. unfold addFeature.
  rewrite Hgen, Z.eqb_refl. cbn [negb].
  rewrite (bool_decide_eq_true_2 _ Hcolor). cbn [negb andb].
  rewrite Hsprites. unfold addFeature_styled.
  match goal with
  | |- context [text_styling w ?f ?d ?c ?t ?st] =>
      pose proof (text_styling_queues w f d c t st) as Q;
      destruct (text_styling w f d c t st) as [w2 tf]
  end.
  eexists _, _. split; [reflexivity|].
  cbn [queues set_collision fst] in *. rewrite queueFeature_queues.
  rewrite lookup_insert_eq, Q. reflexivity.
Qed.

Lemma clamp_size_le size :
  fst (clamp_size size) <= 256 /\ snd (clamp_size size) <= 256.
Proof. unfold clamp_size. cbn. split; apply Q.le_min_r. Qed.

Lemma point_style_size feature draw context tile color style_texture
    sprite_info texcoords :
  style_size (point_style feature draw context tile color style_texture
                sprite_info texcoords)
  = clamp_size (fst (outlined_size (point_size draw context sprite_info)
                       (style_outline draw context))).
Proof.
  unfold point_style.
  destruct (outlined_size _ _) as [size pct]. reflexivity.
Qed.


(** *** Invariants of loops *)

Lemma for_loop_from_invariant {S : Type} (I : S -> Prop)
    (body : nat -> S -> result S) :
  (forall i s s', I s -> body i s = Ok s' -> I s') ->
  forall n i s s', I s -> for_loop_from i n body s = Ok s' -> I s'.
Proof.
  intros Hbody. induction n as [|n IH]; intros i s s' Hs E; cbn in E.
  - by inversion E; subst.
  - destruct (body i s) as [s1|] eqn:E1; cbn in E; [|discriminate].
    eapply IH; [|exact E]. eapply Hbody; eassumption.
Qed.

Lemma forEach_invariant {A S : Type} (I : S -> Prop) (f : A -> S -> result S) :
  (forall a s s', I s -> f a s = Ok s' -> I s') ->
  forall l s s', I s -> forEach f l s = Ok s' -> I s'.
Proof.
  intros Hf. induction l as [|a l IH]; intros s s' Hs E; cbn in E.
  - by inversion E; subst.
  - destruct (f a s) as [s1|] eqn:E1; cbn in E; [|discriminate].
    eapply IH; [|exact E]. eapply Hf; eassumption.
Qed.

(** *** Linking in [endData] *)

Lemma link_point_last (point_objs : list PointObj) (po : PointObj) (t : nat) :
  link_point (point_objs ++ [po]) (length point_objs) t
  = point_objs ++ [mkPointObj (po_feature po) (po_draw po) (po_context po)
                     (po_style po) (po_label po) (Some t)].
Proof.
  unfold link_point. rewrite alter_app_r_alt by lia.
  by rewrite Nat.sub_diag.
Qed.

Lemma text_linked_to_point_weaken point_objs po j text_obj :
  text_linked_to_point point_objs j text_obj ->
  text_linked_to_point (point_objs ++ [po]) j text_obj.
Proof.
  intros (p & text & Hp & Hl & Hd & Hlk). exists p, text.
  split; [|done]. by apply lookup_app_l_Some.
Qed.

Lemma endData_label_links q label objs objs' :
  links_consistent objs ->
  endData_label q label objs = Ok objs' ->
  links_consistent objs'.
Proof.
  destruct objs as [P T]. intros (H1 & H2 & H3) E.
  assert (Hbound : forall j text_obj,
            T !! j = Some text_obj -> (to_linked text_obj < length P)%nat).
  { intros j t Ht. destruct (H1 j t Ht) as (p & _ & Hp & _).
    by apply lookup_lt_Some in Hp. }
  unfold endData_label in E.
  destruct (q_text_feature q) as [tf|].
  2:{ (* a point without text *)
    inversion E; subst; clear E. split; [|split].
    - intros j t Ht. apply text_linked_to_point_weaken. by apply H1.
    - intros i p j Hp Hl. apply lookup_app_Some in Hp as [Hp|[_ Hp]].
      + by eapply H2.
      + apply list_lookup_singleton_Some in Hp as [_ <-]. discriminate.
    - exact H3. }
  destruct (draw_text (q_draw q)) as [text|] eqn:Hd; [|discriminate].
  destruct (js_truthy (text_optional text)) eqn:Hopt; cbn in E;
    inversion E; subst; clear E.
  - (* optional text: the one-way link only *)
    split; [|split].
    + intros j t Ht. apply lookup_app_Some in Ht as [Ht|[Hj Ht]].
      * apply text_linked_to_point_weaken. by apply H1.
      * apply list_lookup_singleton_Some in Ht as [Hj' <-].
        eexists _, text. cbn. split; [apply list_lookup_middle; reflexivity|].
        cbn. rewrite Hopt. done.
    + intros i p j Hp Hl. apply lookup_app_Some in Hp as [Hp|[_ Hp]].
      * destruct (H2 i p j Hp Hl) as (t & Ht & Hi). exists t.
        split; [by apply lookup_app_l_Some|done].
      * apply list_lookup_singleton_Some in Hp as [_ <-]. discriminate.
    + intros j j' t t' Ht Ht' Heq.
      apply lookup_app_Some in Ht as [Ht|[Hj Ht]];
        apply lookup_app_Some in Ht' as [Ht'|[Hj' Ht']].
      * by eapply H3.
      * apply list_lookup_singleton_Some in Ht' as [_ <-]. cbn in Heq.
        apply Hbound in Ht. lia.
      * apply list_lookup_singleton_Some in Ht as [_ <-]. cbn in Heq.
        apply Hbound in Ht'. lia.
      * apply list_lookup_singleton_Some in Ht as [? _].
        apply list_lookup_singleton_Some in Ht' as [? _]. lia.
  - (* required text: the two-way link *)
    rewrite link_point_last. cbn [po_feature po_draw po_context po_style po_label].
    split; [|split].
    + intros j t Ht. apply lookup_app_Some in Ht as [Ht|[Hj Ht]].
      * apply text_linked_to_point_weaken. by apply H1.
      * apply list_lookup_singleton_Some in Ht as [Hj' <-].
        eexists _, text. cbn. split; [apply list_lookup_middle; reflexivity|].
        cbn. rewrite Hopt. repeat split; try done. f_equal. lia.
    + intros i p j Hp Hl. apply lookup_app_Some in Hp as [Hp|[Hi Hp]].
      * destruct (H2 i p j Hp Hl) as (t & Ht & Hi). exists t.
        split; [by apply lookup_app_l_Some|done].
      * apply list_lookup_singleton_Some in Hp as [Hi' <-]. cbn in Hl.
        inversion Hl; subst. eexists. split; [apply list_lookup_middle; reflexivity|].
        cbn. lia.
    + intros j j' t t' Ht Ht' Heq.
      apply lookup_app_Some in Ht as [Ht|[Hj Ht]];
        apply lookup_app_Some in Ht' as [Ht'|[Hj' Ht']].
      * by eapply H3.
      * apply list_lookup_singleton_Some in Ht' as [_ <-]. cbn in Heq.
        apply Hbound in Ht. lia.
      * apply list_lookup_singleton_Some in Ht as [_ <-]. cbn in Heq.
        apply Hbound in Ht'. lia.
      * apply list_lookup_singleton_Some in Ht as [? _].
        apply list_lookup_singleton_Some in Ht' as [? _]. lia.
Qed.

(** Every label gets its point object, and its text object when the feature
    has a text. *)
Lemma endData_label_pushes q label point_objs text_objs objs' :
  endData_label q label (point_objs, text_objs) = Ok objs' ->
  exists point_obj,
    fst objs' = point_objs ++ [point_obj]
    /\ po_label point_obj = label
    /\ match q_text_feature q with
       | None => snd objs' = text_objs
       | Some _ =>
           exists text_obj,
             snd objs' = text_objs ++ [text_obj]
             /\ to_point_label text_obj = label
             /\ to_linked text_obj = length point_objs
       end.
Proof.
  unfold endData_label. intros E.
  destruct (q_text_feature q) as [tf|].
  - destruct (draw_text (q_draw q)) as [text|]; [|discriminate].
    destruct (negb _); inversion E; subst; clear E; cbn [fst snd].
    + rewrite link_point_last. eexists. split; [reflexivity|].
      split; [reflexivity|]. eexists. repeat split.
    + eexists. split; [reflexivity|]. split; [reflexivity|].
      eexists. repeat split.
  - inversion E; subst; clear E. eexists. repeat split.
Qed.

Lemma for_loop_from_lookup {A S : Type} (f : A -> S -> result S)
    (pre l : list A) (s : S) :
  for_loop_from (length pre) (length l)
    (fun i s => match (pre ++ l) !! i with
                | Some a => f a s
                | None => Ok s
                end) s
  = forEach f l s.
Proof.
  revert pre s. induction l as [|x l IH]; intros pre s; [done|].
  cbn [length for_loop_from forEach].
  rewrite list_lookup_middle by done.
  destruct (f x s) as [s'|e]; cbn [result_bind]; [|done].
  specialize (IH (pre ++ [x]) s').
  rewrite length_app in IH. cbn [length] in IH.
  rewrite Nat.add_1_r in IH. rewrite <- app_assoc in IH. exact IH.
Qed.

Lemma endData_feature_pushes q point_objs text_objs objs' :
  endData_feature q (point_objs, text_objs) = Ok objs' ->
  exists feature_labels new_points new_texts,
    buildLabels (style_size (q_style q)) (feature_geometry (q_feature q))
      (q_style q) = Ok feature_labels
    /\ fst objs' = point_objs ++ new_points
    /\ snd objs' = text_objs ++ new_texts
    /\ map po_label new_points = feature_labels
    /\ match q_text_feature q with
       | None => new_texts = []
       | Some _ => map to_point_label new_texts = feature_labels
       end.
Proof.
  unfold endData_feature. intros E.
  destruct (buildLabels _ _ _) as [feature_labels|]; cbn [result_bind] in E;
    [|discriminate].
  exists feature_labels. unfold for_loop in E.
  rewrite (for_loop_from_lookup (endData_label q) [] feature_labels) in E.
  enough (G : exists new_points new_texts,
            fst objs' = point_objs ++ new_points
            /\ snd objs' = text_objs ++ new_texts
            /\ map po_label new_points = feature_labels
            /\ match q_text_feature q with
               | None => new_texts = []
               | Some _ => map to_point_label new_texts = feature_labels
               end).
  { destruct G as (np & nt & G). exists np, nt. by split. }
  clear -E. revert point_objs text_objs E.
  induction feature_labels as [|label labels IH]; intros P T E;
    cbn [forEach] in E.
  - inversion E; subst. exists [], []. cbn. rewrite !app_nil_r.
    repeat split. by destruct (q_text_feature q).
  - destruct (endData_label q label (P, T)) as [[P1 T1]|] eqn:E1;
      cbn [result_bind] in E; [|discriminate].
    apply endData_label_pushes in E1 as (po & HP1 & Hl & HT1).
    cbn [fst snd] in *. subst P1.
    destruct (IH _ _ E) as (np & nt & HP & HT & Hnp & Hnt).
    destruct (q_text_feature q) as [tf|].
    + destruct HT1 as (to & -> & Hto & _).
      exists (po :: np), (to :: nt). rewrite HP, HT, <- !app_assoc. cbn.
      repeat split; congruence.
    + subst T1. exists (po :: np), nt. rewrite HP, HT, <- !app_assoc. cbn.
      repeat split; congruence.
Qed.

Lemma endData_feature_links q objs objs' :
  links_consistent objs ->
  endData_feature q objs = Ok objs' ->
  links_consistent objs'.
Proof.
  intros Hobjs E. unfold endData_feature in E.
  destruct (buildLabels _ _ _) as [feature_labels|]; cbn in E; [|discriminate].
  unfold for_loop in E.
  eapply (for_loop_from_invariant links_consistent); [|exact Hobjs|exact E].
  intros i s s' Hs Ei. cbn in Ei.
  destruct (feature_labels !! i) as [label|].
  - eapply endData_label_links; eassumption.
  - by inversion Ei; subst.
Qed.

(** *** Writes to the meshes of a tile *)

Lemma put_mesh_present tile_data ref mesh tile :
  is_Some (tile_data !! tile) -> is_Some (put_mesh tile_data ref mesh !! tile).
Proof.
  intros [td Htd]. unfold put_mesh.
  destruct (decide (fst ref = tile)) as [->|Hne].
  - rewrite lookup_alter_eq, Htd. by eexists.
  - rewrite lookup_alter_ne by done. by eexists.
Qed.

Lemma get_mesh_put_mesh tile_data tile key key' mesh :
  is_Some (tile_data !! tile) ->
  get_mesh (put_mesh tile_data (tile, key) mesh) (tile, key')
  = if decide (key = key') then Some mesh else get_mesh tile_data (tile, key').
Proof.
  intros [td Htd]. unfold get_mesh, put_mesh. cbn [fst snd].
  rewrite lookup_alter_eq, Htd. cbn.
  destruct (decide (key = key')) as [->|Hne].
  - by rewrite lookup_insert_eq.
  - by rewrite lookup_insert_ne.
Qed.

(** The write at the end of a loop body: the mesh kept under the key of the
    variant gets one more quad; the other meshes keep their buffers. *)
Lemma articulated_write tile_data tile variant vertex_template position size
    angle angles pre_angles offset offsets texcoord u_texture :
  getTileMesh_by_key tile ->
  is_Some (tile_data !! tile_id tile) ->
  exists mesh mesh_data tile_data1 tile_data' n,
    getTileMesh tile_data tile variant = Ok (mesh, mesh_data, tile_data1)
    /\ articulated_quad vertex_template tile_data1 position size angle angles
         pre_angles offset offsets texcoord mesh
         (set_point_uniforms mesh_data u_texture TANGRAM_POINT_TYPE_LABEL false)
       = (tile_data', n)
    /\ is_Some (tile_data' !! tile_id tile)
    /\ forall key,
         requests_of tile_data' tile key
         = requests_of tile_data tile key
           ++ (if decide (variant_key variant = key)
               then [([position], vertex_template,
                      quad_options size angle angles pre_angles offset offsets
                        texcoord true)]
               else []).
Proof.
  intros Hget Htile.
  destruct (Hget tile_data variant Htile)
    as (mesh_data & td1 & E & Htile1 & Hquads & Hframe).
  eexists _, _, _, _, _. split; [exact E|]. split; [reflexivity|].
  split; [by apply put_mesh_present|].
  intros key. unfold requests_of at 1. rewrite get_mesh_put_mesh by done.
  destruct (decide (variant_key variant = key)) as [<-|Hne].
  - cbn. rewrite map_app, Hquads. reflexivity.
  - rewrite app_nil_r. fold (requests_of td1 tile key). by apply Hframe.
Qed.

(** *** The two passes of [buildArticulatedLabel] *)

(** One turn of a pass writes the quad of its segment. *)
Lemma pass_body_spec pass label context vertex_template style t tile_data
    geom_count i sq :
  getTileMesh_by_key (context_tile context) ->
  is_Some (tile_data !! tile_id (context_tile context)) ->
  segment_quad pass label style i = Ok sq ->
  exists tile_data' n,
    pass_body pass label context vertex_template (label_angle label) i
      (set_label_texture style t, tile_data, geom_count)
    = Ok (set_label_texture style (sq_label_texture sq), tile_data',
          (geom_count + n)%nat)
    /\ is_Some (tile_data' !! tile_id (context_tile context))
    /\ forall key,
         requests_of tile_data' (context_tile context) key
         = requests_of tile_data (context_tile context) key
           ++ (if decide (segment_key style sq = key)
               then [segment_request label vertex_template sq]
               else []).
Proof.
  intros Hmesh Htile Hsq. unfold segment_quad in Hsq.
  destruct pass; cbn [pass_body]; unfold stroke_pass_body, fill_pass_body;
    cbn [bs_size bs_texcoords bs_texcoords_stroke bs_label_textures
         bs_label_texture set_label_texture].
  - destruct (js_get_field (bs_size style) (js_key (label_type label)))
      as [sizes|]; cbn [result_bind] in Hsq |- *; [|discriminate].
    destruct (js_get_index sizes i) as [size|];
      cbn [result_bind] in Hsq |- *; [|discriminate].
    destruct (js_get_index (bs_texcoords_stroke style) i) as [texcoord|];
      cbn [result_bind] in Hsq |- *; [|discriminate].
    destruct (js_get_index (label_angles label) i) as [angles|];
      cbn [result_bind] in Hsq; [|discriminate].
    destruct (js_get_index (label_offsets label) i) as [offsets|];
      cbn [result_bind] in Hsq; [|discriminate].
    destruct (js_get_index (label_pre_angles label) i) as [pre_angles|];
      cbn [result_bind] in Hsq; [|discriminate].
    inversion Hsq; subst sq; clear Hsq.
    match goal with
    | |- context [getTileMesh tile_data ?tile ?v] =>
        destruct (articulated_write tile_data tile v vertex_template
                    (label_position label) size (label_angle label) angles
                    pre_angles
                    (js_or (label_offset label) (JArr [JNum 0; JNum 0])) offsets
                    texcoord (texture_value (bs_label_textures style !! i))
                    Hmesh Htile)
          as (mesh & mesh_data & td1 & td' & n & Hget & Hquad & Hpresent & Hreq)
    end.
    exists td', n. rewrite Hget. cbn [result_bind]. rewrite Hquad.
    split; [reflexivity|]. split; [exact Hpresent|].
    intros key. rewrite Hreq. reflexivity.
  - destruct (js_get_field (bs_size style) (js_key (label_type label)))
      as [sizes|]; cbn [result_bind] in Hsq |- *; [|discriminate].
    destruct (js_get_index sizes i) as [size|];
      cbn [result_bind] in Hsq |- *; [|discriminate].
    destruct (js_get_field (bs_texcoords style) (js_key (label_type label)))
      as [texcoords|]; cbn [result_bind] in Hsq |- *; [|discriminate].
    destruct (js_get_index texcoords i) as [entry|];
      cbn [result_bind] in Hsq |- *; [|discriminate].
    destruct (js_get_field entry "texcoord") as [texcoord|];
      cbn [result_bind] in Hsq |- *; [|discriminate].
    destruct (js_get_index (label_angles label) i) as [angles|];
      cbn [result_bind] in Hsq; [|discriminate].
    destruct (js_get_index (label_offsets label) i) as [offsets|];
      cbn [result_bind] in Hsq; [|discriminate].
    destruct (js_get_index (label_pre_angles label) i) as [pre_angles|];
      cbn [result_bind] in Hsq; [|discriminate].
    inversion Hsq; subst sq; clear Hsq.
    match goal with
    | |- context [getTileMesh tile_data ?tile ?v] =>
        destruct (articulated_write tile_data tile v vertex_template
                    (label_position label) size (label_angle label) angles
                    pre_angles
                    (js_or (label_offset label) (JArr [JNum 0; JNum 0])) offsets
                    texcoord (texture_value (bs_label_textures style !! i))
                    Hmesh Htile)
          as (mesh & mesh_data & td1 & td' & n & Hget & Hquad & Hpresent & Hreq)
    end.
    exists td', n. rewrite Hget. cbn [result_bind]. rewrite Hquad.
    split; [reflexivity|]. split; [exact Hpresent|].
    intros key. rewrite Hreq. reflexivity.
Qed.

(** A pass writes the quads of its segments, in the order of the segments. *)
Lemma pass_loop_spec pass label context vertex_template style :
  getTileMesh_by_key (context_tile context) ->
  forall count i t tile_data geom_count sqs,
    is_Some (tile_data !! tile_id (context_tile context)) ->
    segment_quads_from pass label style i count = Ok sqs ->
    exists t' tile_data' geom_count',
      for_loop_from i count
        (pass_body pass label context vertex_template (label_angle label))
        (set_label_texture style t, tile_data, geom_count)
      = Ok (set_label_texture style t', tile_data', geom_count')
      /\ is_Some (tile_data' !! tile_id (context_tile context))
      /\ length sqs = count
      /\ forall key,
           requests_of tile_data' (context_tile context) key
           = requests_of tile_data (context_tile context) key
             ++ requests_for label style vertex_template key sqs.
Proof.
  intros Hget.
  induction count as [|count IH]; intros i t tile_data geom_count sqs Htile Hsqs;
    cbn [segment_quads_from for_loop_from] in *.
  - inversion Hsqs; subst. exists t, tile_data, geom_count.
    repeat split; try done. intros key. unfold requests_for. cbn.
    by rewrite app_nil_r.
  - destruct (segment_quad pass label style i) as [sq|] eqn:Hsq;
      cbn [result_bind] in Hsqs; [|discriminate].
    destruct (segment_quads_from pass label style (Datatypes.S i) count)
      as [rest|] eqn:Hrest; cbn [result_bind] in Hsqs; [|discriminate].
    inversion Hsqs; subst sqs; clear Hsqs.
    destruct (pass_body_spec pass label context vertex_template style t
                tile_data geom_count i sq Hget Htile Hsq)
      as (td1 & n & Hbody & Htile1 & Hreq1).
    rewrite Hbody. cbn [result_bind].
    destruct (IH (Datatypes.S i) (sq_label_texture sq) td1 (geom_count + n)%nat
                rest Htile1 Hrest)
      as (t' & td' & c' & Hloop & Htile' & Hlen & Hreq).
    exists t', td', c'. split; [exact Hloop|]. split; [exact Htile'|].
    split; [cbn; by rewrite Hlen|].
    intros key. rewrite Hreq, Hreq1. unfold requests_for.
    rewrite filter_cons.
    destruct (decide (segment_key style sq = key)); cbn;
      by rewrite <- app_assoc.
Qed.

Lemma segment_quads_from_lookup pass label style :
  forall count i sqs d sq,
    segment_quads_from pass label style i count = Ok sqs ->
    sqs !! d = Some sq ->
    segment_quad pass label style (i + d) = Ok sq.
Proof.
  induction count as [|count IH]; intros i sqs d sq Hsqs Hd;
    cbn [segment_quads_from] in Hsqs.
  - inversion Hsqs; subst. by rewrite lookup_nil in Hd.
  - destruct (segment_quad pass label style i) as [sq0|] eqn:Hsq;
      cbn [result_bind] in Hsqs; [|discriminate].
    destruct (segment_quads_from pass label style (Datatypes.S i) count)
      as [rest|] eqn:Hrest; cbn [result_bind] in Hsqs; [|discriminate].
    inversion Hsqs; subst sqs; clear Hsqs.
    destruct d as [|d]; cbn in Hd.
    + inversion Hd; subst. by rewrite Nat.add_0_r.
    + rewrite Nat.add_succ_r. rewrite <- Nat.add_succ_l. by eapply IH.
Qed.

(** The quad of a segment carries the segment's own entries. *)
Lemma segment_quad_own pass label style i sq :
  segment_quad pass label style i = Ok sq ->
  js_get_index (label_angles label) i = Ok (sq_angles sq)
  /\ js_get_index (label_pre_angles label) i = Ok (sq_pre_angles sq)
  /\ js_get_index (label_offsets label) i = Ok (sq_offsets sq)
  /\ sq_label_texture sq = bs_label_textures style !! i.
Proof.
  unfold segment_quad. intros Hsq.
  destruct (js_get_field (bs_size style) (js_key (label_type label)))
    as [sizes|]; cbn [result_bind] in Hsq; [|discriminate].
  destruct (js_get_index sizes i) as [size|];
    cbn [result_bind] in Hsq; [|discriminate].
  destruct (match pass with Stroke => _ | Fill => _ end) as [texcoord|];
    cbn [result_bind] in Hsq; [|discriminate].
  destruct (js_get_index (label_angles label) i) as [angles|];
    cbn [result_bind] in Hsq; [|discriminate].
  destruct (js_get_index (label_offsets label) i) as [offsets|];
    cbn [result_bind] in Hsq; [|discriminate].
  destruct (js_get_index (label_pre_angles label) i) as [pre_angles|];
    cbn [result_bind] in Hsq; [|discriminate].
  inversion Hsq; subst. repeat split.
Qed.

(** C5. Every quad [buildQuad] builds is requested with these normalization
    constants: per-segment pre-angles by 128/pi, per-segment angles by
    16384/pi, per-segment offsets by 64 and texture coordinates by 65535. *)
Theorem buildQuad_normalization_constants :
  forall points size angle angles pre_angles offset offsets texcoord_scale
         curve vertex_data vertex_template,
  exists call,
    vertex_quads
      (fst (buildQuad points size angle angles pre_angles offset offsets
              texcoord_scale curve vertex_data vertex_template))
    = vertex_quads vertex_data ++ [call]
    /\ quad_pre_angles_normalize (call_options call) = 128 / Math_PI
    /\ quad_angles_normalize (call_options call) = 16384 / Math_PI
    /\ quad_offsets_normalize (call_options call) = 64
    /\ quad_texcoord_normalize (call_options call) = 65535.
Proof.
  intros. eexists. split; [reflexivity|]. cbn. repeat split.
Qed.

(** The attribute [a_shape], which receives the angle, is declared with
    [gl.SHORT] components in [init]. *)
Lemma a_shape_is_short :
  exists a, attribs !! 1%nat = Some a
            /\ attrib_name a = "a_shape" /\ attrib_type a = GL_SHORT.
Proof. eexists. repeat split. Qed.

(** Whatever integer within one unit of the scaled angle is kept in such a
    component, decoding it gives the angle back within one step. *)
Lemma decode_angle_of_integer (angle : Q) (stored : Z) :
  Qabs (inject_Z stored - angle * 4096) < 1 ->
  Qabs (decode_angle (inject_Z stored) - angle) <= angle_step.
Proof.
  intros Hs. apply Qabs_Qlt_condition in Hs as [Hlo Hhi].
  apply Qabs_Qle_condition.
  unfold decode_angle, angle_step, Math_PI.
  assert (Hpi : 2 * (884279719003555 # 281474976710656) / 4096
                == 884279719003555 # 576460752303423488) by reflexivity.
  rewrite Hpi.
  assert (Hd : inject_Z stored / 4096 - angle
               == (inject_Z stored - angle * 4096) * (1 # 4096)) by field.
  rewrite Hd. split; lra.
Qed.

(** C4. The primary angle attribute of the quad [buildQuad] requests is the
    angle times 4096, so that dividing it by 4096 gives the angle back, within
    one quantization step of 2 pi / 4096. *)
Theorem buildQuad_angle_round_trip :
  forall points size angle angles pre_angles offset offsets texcoord_scale
         curve vertex_data vertex_template,
  exists call,
    vertex_quads
      (fst (buildQuad points size angle angles pre_angles offset offsets
              texcoord_scale curve vertex_data vertex_template))
    = vertex_quads vertex_data ++ [call]
    /\ quad_angle (call_options call) = angle * 4096
    /\ decode_angle (quad_angle (call_options call)) == angle
    /\ Qabs (decode_angle (quad_angle (call_options call)) - angle) <= angle_step.
Proof.
  intros. eexists. split; [reflexivity|]. cbn [call_options quad_angle].
  assert (E : decode_angle (angle * 4096) == angle).
  { unfold decode_angle. field. }
  split; [reflexivity|]. split; [exact E|].
  assert (D : decode_angle (angle * 4096) - angle == 0) by (rewrite E; ring).
  rewrite D. vm_compute. discriminate.
Qed.

(** C7. For a geometry whose type is none of Point, MultiPoint, LineString,
    MultiLineString, Polygon and MultiPolygon, [buildLabels] returns the empty
    list of labels, and does not throw. *)
Theorem buildLabels_unrecognized_type :
  forall size geometry options,
    geometry_type geometry ∉
      ["Point"; "MultiPoint"; "LineString"; "MultiLineString"; "Polygon";
       "MultiPolygon"] ->
    buildLabels size geometry options = Ok [].
Proof.
  intros size geometry options Hno. unfold buildLabels.
  repeat match goal with
  | |- context [String.eqb (geometry_type geometry) ?t] =>
      destruct (String.eqb_spec (geometry_type geometry) t) as [E|_];
      [exfalso; apply Hno; rewrite E; set_solver|]
  end.
  reflexivity.
Qed.

(** C6. With the centroid placement, [buildLabels] gives one label for a
    Polygon, at [Geo.centroid] of its coordinates, and one label for a
    MultiPolygon, at [Geo.multiCentroid] of its coordinates, whatever rings
    the coordinates hold; with another placement it gives the labels that
    [placePointsOnLine] places on every ring of the polygon, and on every
    ring of every polygon of a MultiPolygon, in order. *)
Theorem buildLabels_polygon :
  forall size options,
    (style_placement options = CENTROID ->
     forall coordinates,
       buildLabels size (mkGeometry "Polygon" coordinates) options
       = Ok [LabelPoint (Geo_centroid coordinates) size options]
       /\ buildLabels size (mkGeometry "MultiPolygon" coordinates) options
          = Ok [LabelPoint (Geo_multiCentroid coordinates) size options])
    /\ (style_placement options <> CENTROID ->
        (forall rings,
           buildLabels size (mkGeometry "Polygon" (JArr rings)) options
           = Ok (concat (map (fun ring => placePointsOnLine ring size options)
                             rings)))
        /\ (forall polys,
              buildLabels size (mkGeometry "MultiPolygon" (JArr (map JArr polys)))
                options
              = Ok (concat
                      (map (fun rings =>
                              concat (map (fun ring =>
                                             placePointsOnLine ring size options)
                                          rings))
                           polys)))).
Proof.
  intros size options. split.
  - intros Hc coordinates. unfold buildLabels. cbn. rewrite Hc. cbn. done.
  - intros Hc.
    assert (E : Placement_eqb (style_placement options) CENTROID = false)
      by (destruct (style_placement options); cbn; congruence).
    split.
    + intros rings. unfold buildLabels. cbn -[for_loop js_get_index].
      rewrite E. cbn -[for_loop js_get_index].
      rewrite (for_loop_elements
                 (fun ring labels =>
                    Ok (push_all labels (placePointsOnLine ring size options)))).
      rewrite (forEach_ext _
                 (fun ring labels => Ok (labels ++ placePointsOnLine ring size options)))
        by (intros; by rewrite push_all_app).
      by rewrite forEach_append.
    + intros polys. unfold buildLabels. cbn -[for_loop js_get_index js_length].
      rewrite E. cbn -[for_loop js_get_index js_length].
      change (js_length (JArr (map JArr polys)))
        with (@Ok nat (length (map JArr polys))).
      cbn -[for_loop js_get_index js_length].
      rewrite (for_loop_elements
                 (fun rings labels =>
                    try n <- js_length rings;
                    for_loop n (fun ln labels =>
                      try ring <- js_get_index rings ln;
                      Ok (push_all labels (placePointsOnLine ring size options)))
                      labels)).
      match goal with
      | |- forEach ?F _ _ = Ok ?r =>
          enough (G : forall acc, forEach F (map JArr polys) acc = Ok (acc ++ r))
            by exact (G [])
      end.
      induction polys as [|rings polys IH]; intros acc;
        cbn -[for_loop js_get_index].
      * by rewrite app_nil_r.
      * rewrite (for_loop_elements
                   (fun ring labels =>
                      Ok (push_all labels (placePointsOnLine ring size options)))).
        rewrite (forEach_ext _
                   (fun ring labels =>
                      Ok (labels ++ placePointsOnLine ring size options)))
          by (intros; by rewrite push_all_app).
        rewrite forEach_append. cbn. rewrite IH. by rewrite <- app_assoc.
Qed.

(** C9. A feature whose tile generation differs from the generation of the
    style is not queued: [addFeature] returns with the queues and all the
    state of the style, the collision registry and the log as they were. *)
Theorem addFeature_stale_generation :
  forall w feature draw context,
    tile_generation (context_tile context) <> generation w ->
    addFeature w feature draw context = Ok w.
Proof.
  intros w feature draw context Hgen. unfold addFeature.
  destruct (Z.eqb_spec (tile_generation (context_tile context)) (generation w))
    as [E|_]; [contradiction|]. reflexivity.
Qed.

(** What an [endData] that hands objects to the collision passes has done:
    the queue of the tile was there and is taken away, the objects are built
    from it, and the points pass, then the text pass, have returned. *)
Lemma endData_colliding w tile w' point_objs text_objs :
  endData w tile = Ok (w', Colliding point_objs text_objs) ->
  exists queue w1,
    tile_canceled tile = false
    /\ queues w !! tile_id tile = Some queue
    /\ forEach endData_feature queue ([], []) = Ok (point_objs, text_objs)
    /\ Collision_collide point_objs
         (collision_group_points
            (set_queues w (delete (tile_id tile) (queues w))))
         (tile_id tile) (set_queues w (delete (tile_id tile) (queues w)))
       = Ok w1
    /\ collideAndRenderTextLabels tile (collision_group_text w1) text_objs w1
       = Ok w'.
Proof.
  unfold endData. intros E.
  destruct (tile_canceled tile); [discriminate|].
  destruct (queues w !! tile_id tile) as [queue|]; [|discriminate].
  destruct (forEach endData_feature queue ([], [])) as [[P T]|] eqn:Ef;
    cbn [result_bind fst snd] in E; [|discriminate].
  destruct (Collision_collide P _ _ _) as [w1|] eqn:E1;
    cbn [result_bind] in E; [|discriminate].
  destruct (collideAndRenderTextLabels tile _ T w1) as [w2|] eqn:E2;
    cbn [result_bind] in E; [|discriminate].
  inversion E; subst. exists queue, w1. repeat split; try assumption.
Qed.

(** C8. For a canceled tile [endData] returns [Promise.resolve()] at once: it
    does not throw, no label or collision object is built, and the queues,
    the tile data with its vertex buffers, the text state and the collision
    registry are left as they were; only a trace message is logged. *)
Theorem endData_canceled :
  forall w tile,
    tile_canceled tile = true ->
    exists w',
      endData w tile = Ok (w', Resolved)
      /\ queues w' = queues w
      /\ tile_data w' = tile_data w
      /\ collision w' = collision w
      /\ texts w' = texts w
      /\ texture_missing_sprites w' = texture_missing_sprites w
      /\ generation w' = generation w
      /\ exists entry, logs w' = logs w ++ [entry] /\ log_level entry = "trace".
Proof.
  intros w tile Hc. unfold endData. rewrite Hc.
  eexists. split; [reflexivity|]. cbn. repeat split. eexists. split; reflexivity.
Qed.

(** C1. The size of the style that [addFeature] queues for a point feature is
    the requested size, with the outline width added when there is an outline,
    cut down to 256 in each dimension on its own: neither dimension is above
    256; [500, 10] becomes [256, 10] and [10, 10] stays as it is. *)
Theorem addFeature_clamps_size :
  forall w feature draw context w' q,
    addFeature w feature draw context = Ok w' ->
    queues w' !! tile_id (context_tile context)
    = Some (default [] (queues w !! tile_id (context_tile context)) ++ [q]) ->
    (exists sprite_info,
       style_size (q_style q)
       = clamp_size (fst (outlined_size (point_size draw context sprite_info)
                            (style_outline draw context))))
    /\ fst (style_size (q_style q)) <= 256
    /\ snd (style_size (q_style q)) <= 256
    /\ (forall size, clamp_size size = (Qmin (fst size) 256, Qmin (snd size) 256))
    /\ clamp_size (500, 10) = (256, 10)
    /\ clamp_size (10, 10) = (10, 10).
Proof.
  intros w feature draw context w' q E Hq.
  destruct (addFeature_queued_item _ _ _ _ _ _ E Hq)
    as (color & style_texture & sprite_info & texcoords & w1 & _ & ->).
  cbn [q_style]. rewrite point_style_size.
  split; [by exists sprite_info|].
  split; [apply clamp_size_le|]. split; [apply clamp_size_le|].
  repeat split.
Qed.


(** C2. In the objects [endData] hands to the collision passes, every text
    object links to the point object built for the same label; that point
    links back to the text exactly when the text of its draw group is not
    optional, and has no link otherwise, so each pair is linked either one
    way or two ways; a point that links to a text is linked by that text, and
    no point is linked by two texts.  After [_preprocess] the optional flag
    is a boolean, false unless the draw group gave a boolean. *)
Theorem endData_links_text_to_point :
  forall w tile w' point_objs text_objs,
    endData w tile = Ok (w', Colliding point_objs text_objs) ->
    (forall j text_obj,
       text_objs !! j = Some text_obj ->
       exists point_obj text,
         point_objs !! to_linked text_obj = Some point_obj
         /\ po_label point_obj = to_point_label text_obj
         /\ draw_text (po_draw point_obj) = Some text
         /\ (po_linked point_obj = Some j
             <-> js_truthy (text_optional text) = false)
         /\ (po_linked point_obj = None
             <-> js_truthy (text_optional text) = true))
    /\ (forall i point_obj j,
          point_objs !! i = Some point_obj ->
          po_linked point_obj = Some j ->
          exists text_obj,
            text_objs !! j = Some text_obj /\ to_linked text_obj = i)
    /\ (forall j j' text_obj text_obj',
          text_objs !! j = Some text_obj ->
          text_objs !! j' = Some text_obj' ->
          to_linked text_obj = to_linked text_obj' ->
          j = j')
    /\ (forall draw text,
          draw_text (_preprocess draw) = Some text ->
          exists raw,
            preprocessText (draw_text draw) = Some raw
            /\ text_optional text
               = match text_optional raw with
                 | JBool b => JBool b
                 | _ => JBool false
                 end).
Proof.
  intros w tile w' P T E.
  assert (L : links_consistent (P, T)).
  { destruct (endData_colliding _ _ _ _ _ E) as (queue & w1 & _ & _ & Ef & _).
    eapply (forEach_invariant links_consistent);
      [exact endData_feature_links| |exact Ef].
    repeat split; intros; by rewrite ?lookup_nil in *. }
  destruct L as (H1 & H2 & H3).
  split; [|split; [exact H2|split; [exact H3|]]].
  - intros j t Ht. destruct (H1 j t Ht) as (p & text & Hp & Hl & Hd & Hlk).
    exists p, text. repeat split; try assumption;
      rewrite Hlk; destruct (js_truthy (text_optional text));
      intros; congruence.
  - intros draw text Hd. unfold _preprocess in Hd. cbn in Hd.
    destruct (preprocessText (draw_text draw)) as [raw|]; [|discriminate].
    inversion Hd; subst; clear Hd. exists raw. split; reflexivity.
Qed.

(** The quads of segments carry what [segment_written] lists. *)
Lemma requests_for_written label style vertex_template key sqs :
  Forall2 (segment_written label vertex_template)
    (filter (fun sq => segment_key style sq = key) sqs)
    (requests_for label style vertex_template key sqs).
Proof.
  unfold requests_for.
  induction (filter (fun sq => segment_key style sq = key) sqs) as [|sq l IH];
    cbn [map]; constructor; [|exact IH].
  unfold segment_written, segment_request, quad_options. cbn.
  repeat split.
Qed.

(** C3. When the data of every segment of a curved label can be read,
    [buildArticulatedLabel] returns, having made two passes over the
    [num_segments] segments: each pass writes one quad per segment, whose
    options carry that segment's own entries of [angles], [pre_angles] and
    [offsets] (with the size and texture coordinates of the segment, the
    angle and offset of the label, and the curve flag).  [getTileMesh] is
    missing from the sources: provided it gives the mesh the tile keeps
    under the key of the variant and writes to no buffer, in the buffer of
    every mesh the quads of the stroke pass come, in the order of the
    segments, before those of the fill pass. *)
Theorem buildArticulatedLabel_stroke_then_fill :
  forall label style mesh context tile_data strokes fills,
    getTileMesh_by_key (context_tile context) ->
    is_Some (tile_data !! tile_id (context_tile context)) ->
    segment_quads Stroke label style = Ok strokes ->
    segment_quads Fill label style = Ok fills ->
    exists style' tile_data' geom_count,
      buildArticulatedLabel label style mesh context tile_data
      = Ok (style', tile_data', geom_count)
      /\ length strokes = label_num_segments label
      /\ length fills = label_num_segments label
      /\ (forall i sq,
            strokes !! i = Some sq \/ fills !! i = Some sq ->
            js_get_index (label_angles label) i = Ok (sq_angles sq)
            /\ js_get_index (label_pre_angles label) i = Ok (sq_pre_angles sq)
            /\ js_get_index (label_offsets label) i = Ok (sq_offsets sq))
      /\ (forall key,
            exists stroke_quads fill_quads,
              requests_of tile_data' (context_tile context) key
              = requests_of tile_data (context_tile context) key
                ++ stroke_quads ++ fill_quads
              /\ Forall2
                   (segment_written label
                      (makeVertexTemplate style (mesh_variant mesh)))
                   (filter (fun sq => segment_key style sq = key) strokes)
                   stroke_quads
              /\ Forall2
                   (segment_written label
                      (makeVertexTemplate style (mesh_variant mesh)))
                   (filter (fun sq => segment_key style sq = key) fills)
                   fill_quads).
Proof.
  intros label style mesh context tile_data strokes fills Hget Htile Hs Hf.
  unfold segment_quads in Hs, Hf. unfold buildArticulatedLabel, for_loop.
  cbv zeta.
  assert (Est : set_label_texture style (bs_label_texture style) = style)
    by (by destruct style).
  replace (style, tile_data, 0%nat)
    with (set_label_texture style (bs_label_texture style), tile_data, 0%nat)
    by (by rewrite Est).
  destruct (pass_loop_spec Stroke label context
              (makeVertexTemplate style (mesh_variant mesh)) style
              Hget (label_num_segments label) 0%nat (bs_label_texture style)
              tile_data 0%nat strokes Htile Hs)
    as (t1 & td1 & c1 & Hloop1 & Htile1 & Hlen1 & Hreq1).
  cbn [pass_body] in Hloop1. rewrite Hloop1. cbn [result_bind].
  destruct (pass_loop_spec Fill label context
              (makeVertexTemplate style (mesh_variant mesh)) style
              Hget (label_num_segments label) 0%nat t1 td1 c1 fills Htile1 Hf)
    as (t2 & td2 & c2 & Hloop2 & Htile2 & Hlen2 & Hreq2).
  cbn [pass_body] in Hloop2. rewrite Hloop2.
  eexists _, _, _. split; [reflexivity|].
  split; [exact Hlen1|]. split; [exact Hlen2|]. split.
  - intros i sq [Hi|Hi].
    + pose proof (segment_quads_from_lookup _ _ _ _ _ _ _ _ Hs Hi) as Hq.
      apply segment_quad_own in Hq as (? & ? & ? & _). done.
    + pose proof (segment_quads_from_lookup _ _ _ _ _ _ _ _ Hf Hi) as Hq.
      apply segment_quad_own in Hq as (? & ? & ? & _). done.
  - intros key. eexists _, _. split; [|split; apply requests_for_written].
    rewrite Hreq2, Hreq1. by rewrite <- app_assoc.
Qed.

End PointsFacts.

(** ** The properties on the sample data *)

(** The [getTileMesh] of the sample collaborators keeps its meshes by the key
    of the variant. *)
Lemma sample_getTileMesh_by_key tile :
  @getTileMesh_by_key sample_collaborators tile.
Proof.
  intros tile_data variant [td Htd].
  change (@getTileMesh sample_collaborators) with sample_getTileMesh.
  unfold sample_getTileMesh. rewrite Htd.
  destruct (td_meshes td !! variant_key variant) as [mesh|] eqn:Hm.
  - eexists _, _. split; [reflexivity|]. split; [by eexists|].
    split; [|reflexivity].
    unfold requests_of, get_mesh. cbn [fst snd]. by rewrite Htd, Hm.
  - eexists _, _. split; [reflexivity|].
    split; [apply put_mesh_present; by eexists|]. split.
    + unfold requests_of, get_mesh. cbn [fst snd]. by rewrite Htd, Hm.
    + intros key Hne. unfold requests_of.
      rewrite get_mesh_put_mesh by (by eexists).
      destruct (decide (variant_key variant = key)) as [E|_]; [|reflexivity].
      by destruct Hne.
Qed.

Lemma buildLabels_unrecognized_type_witness :
  @buildLabels sample_collaborators (10, 10)
    (mkGeometry "GeometryCollection" (JArr []))
    (@point_style sample_collaborators sample_point
       (sample_draw (SizePair 10 10) None) sample_context sample_tile
       None None None JUndefined)
  = Ok [].
Proof.
  apply (@buildLabels_unrecognized_type sample_collaborators).
  apply (bool_decide_unpack _). vm_compute. exact I.
Defined.

Lemma addFeature_stale_generation_witness :
  @addFeature sample_collaborators sample_world sample_point
    (sample_draw (SizePair 10 10) None)
    (mkContext (mkTile "t1" "1/0/0" 6 false (Some 1)) JUndefined)
  = Ok sample_world.
Proof.
  apply (@addFeature_stale_generation sample_collaborators). vm_compute.
  discriminate.
Defined.

Lemma endData_canceled_witness :
  exists w',
    @endData sample_collaborators sample_passes sample_world
      (mkTile "t1" "1/0/0" 7 true (Some 1)) = Ok (w', Resolved)
    /\ tile_data w' = tile_data sample_world.
Proof.
  destruct (@endData_canceled sample_collaborators sample_passes sample_world
              (mkTile "t1" "1/0/0" 7 true (Some 1)) eq_refl)
    as (w' & E & _ & Ht & _).
  exists w'. split; assumption.
Defined.

Lemma addFeature_clamps_size_witness :
  exists w' q,
    @addFeature sample_collaborators sample_world sample_point
      (sample_draw (SizePair 500 10) None) sample_context = Ok w'
    /\ queues w' !! "t1" = Some [q]
    /\ style_size (q_style q) = (256, 10)
    /\ fst (style_size (q_style q)) <= 256.
Proof.
  eexists _, _. split; [reflexivity|]. split; [reflexivity|].
  split; [reflexivity|].
  eapply (@addFeature_clamps_size sample_collaborators sample_world sample_point
            (sample_draw (SizePair 500 10) None) sample_context);
    reflexivity.
Defined.


Lemma buildLabels_polygon_witness :
  @buildLabels sample_collaborators (10, 10)
    (mkGeometry "Polygon" sample_polygon) (sample_options CENTROID)
  = Ok [(JArr [JNum 0; JNum 0], (10, 10))]
  /\ length (match @buildLabels sample_collaborators (10, 10)
                     (mkGeometry "Polygon" sample_polygon)
                     (sample_options VERTEX) with
             | Ok labels => labels
             | Throw _ => []
             end) = 6%nat.
Proof.
  destruct (@buildLabels_polygon sample_collaborators (10, 10)
              (sample_options CENTROID)) as [Hc _].
  destruct (@buildLabels_polygon sample_collaborators (10, 10)
              (sample_options VERTEX)) as [_ Hv].
  split.
  - exact (proj1 (Hc eq_refl sample_polygon)).
  - assert (Hne : style_placement (sample_options VERTEX) <> CENTROID)
      by discriminate.
    destruct (Hv Hne) as [Hp _]. unfold sample_polygon. rewrite Hp.
    reflexivity.
Defined.

Lemma endData_links_text_to_point_witness :
  exists w' point_obj text_obj,
    @endData sample_collaborators sample_passes sample_queued_world sample_tile
    = Ok (w', Colliding [point_obj] [text_obj])
    /\ to_linked text_obj = 0%nat
    /\ po_linked point_obj = Some 0%nat.
Proof.
  eexists _, _, _. split; [reflexivity|]. split; [reflexivity|].
  destruct (@endData_links_text_to_point sample_collaborators sample_passes
              sample_queued_world sample_tile _ _ _ eq_refl)
    as (H1 & _).
  destruct (H1 0%nat _ eq_refl) as (p & text & Hp & _ & Hd & Hlk & _).
  cbn in Hp. inversion Hp; subst. apply Hlk.
  cbn in Hd. inversion Hd; subst. reflexivity.
Defined.

Lemma buildArticulatedLabel_stroke_then_fill_witness :
  exists style' tile_data' geom_count,
    @buildArticulatedLabel sample_collaborators sample_curved_label
      sample_curved_style sample_mesh sample_context sample_tile_data
    = Ok (style', tile_data', geom_count)
    /\ map (fun r => (quad_texcoord_scale (snd r), quad_angles (snd r)))
           (requests_of tile_data' sample_tile "atlas")
       = [(JStr "stroke 0", JArr [JNum 0.1]); (JStr "stroke 1", JArr [JNum 0.2]);
          (JStr "fill 0", JArr [JNum 0.1]); (JStr "fill 1", JArr [JNum 0.2])].
Proof.
  destruct (@buildArticulatedLabel_stroke_then_fill sample_collaborators
              sample_curved_label sample_curved_style sample_mesh
              sample_context sample_tile_data _ _
              (sample_getTileMesh_by_key _)
              (ex_intro _ _ eq_refl) eq_refl eq_refl)
    as (style' & tile_data' & geom_count & E & _ & _ & _ & Hreq).
  exists style', tile_data', geom_count. split; [exact E|].
  destruct (Hreq "atlas") as (stroke_quads & fill_quads & Hr & Hs & Hf).
  change (context_tile sample_context) with sample_tile in Hr. rewrite Hr.
  vm_compute in Hs, Hf.
  repeat match goal with
         | Hw : Forall2 _ _ _ |- _ => inversion Hw; subst; clear Hw
         end.
  repeat match goal with
         | Hw : (let (_, _) := ?r in _) |- _ =>
             destruct r as [[? ?] []]; cbn in Hw;
             destruct Hw as (_ & _ & _ & _ & -> & _ & _ & _ & -> & _)
         end.
  reflexivity.
Defined.

(** ** Further properties of the style *)

Section PointsMore.

Context `{Collaborators} `{!CollisionPasses}.

(** *** Queues *)

(** X1. [queueFeature] puts the item at the end of the queue of its tile, so
    two items queued one after the other stay in that order; the queue of
    every other tile is left alone, and [startData] is not called again for
    a tile that has both its data and a queue. *)
Theorem queueFeature_appends_in_order :
  forall w q1 q2 tile,
    queues (queueFeature (queueFeature w q1 tile) q2 tile) !! tile_id tile
    = Some (default [] (queues w !! tile_id tile) ++ [q1; q2])
    /\ (forall tile',
          tile_id tile' <> tile_id tile ->
          queues (queueFeature w q1 tile) !! tile_id tile'
          = queues w !! tile_id tile')
    /\ (is_Some (tile_data w !! tile_id tile) ->
        is_Some (queues w !! tile_id tile) ->
        tile_data (queueFeature w q1 tile) = tile_data w).
Proof.
  intros w q1 q2 tile. split; [|split].
  - rewrite !queueFeature_queues. rewrite !lookup_insert_eq. cbn.
    by rewrite <- app_assoc.
  - intros tile' Hne. rewrite queueFeature_queues.
    by rewrite lookup_insert_ne.
  - intros Hd Hq. unfold queueFeature.
    rewrite (bool_decide_eq_true_2 _ Hd), (bool_decide_eq_true_2 _ Hq).
    reflexivity.
Qed.

Lemma getSpriteInfo_frame w style_texture sprite w' info :
  getSpriteInfo w style_texture sprite = Ok (w', info) ->
  generation w' = generation w /\ tile_data w' = tile_data w
  /\ collision w' = collision w /\ Texture_textures w' = Texture_textures w
  /\ name w' = name w /\ texture w' = texture w.
Proof.
  unfold getSpriteInfo. intros E.
  repeat match type of E with
  | context [match ?x with _ => _ end] => destruct x
  end; inversion E; repeat split.
Qed.

Lemma parseSprite_frame w style_texture draw context w' info :
  parseSprite w style_texture draw context = Ok (w', info) ->
  generation w' = generation w /\ tile_data w' = tile_data w
  /\ collision w' = collision w /\ Texture_textures w' = Texture_textures w
  /\ name w' = name w /\ texture w' = texture w.
Proof.
  unfold parseSprite. intros E.
  destruct (getSpriteInfo w style_texture (draw_sprite draw context))
    as [[w1 [i1|]]|] eqn:E1; cbn in E; try discriminate.
  - inversion E; subst. eapply getSpriteInfo_frame; eassumption.
  - apply getSpriteInfo_frame in E as (? & ? & ? & ? & ? & ?).
    apply getSpriteInfo_frame in E1 as (? & ? & ? & ? & ? & ?).
    repeat split; congruence.
Qed.

Lemma text_styling_generation w feature draw context tile style :
  generation (fst (text_styling w feature draw context tile style))
  = generation w.
Proof.
  unfold text_styling.
  destruct (draw_text draw) as [text|]; [|reflexivity].
  destruct (parseTextFeature feature text context tile (texts w))
    as [t parsed] eqn:Ep.
  destruct (text_visible text) as [| |[|]| | | |];
    destruct parsed as [|tfs|parsed]; reflexivity.
Qed.

(** X2. [addFeature] keeps the generation of the style, leaves the queue of
    every other tile as it was, and adds at most one item, at the end, to
    the queue of the feature's tile. *)
Theorem addFeature_touches_one_queue :
  forall w feature draw context w',
    addFeature w feature draw context = Ok w' ->
    generation w' = generation w
    /\ (forall tile',
          tile_id tile' <> tile_id (context_tile context) ->
          queues w' !! tile_id tile' = queues w !! tile_id tile')
    /\ exists added,
         (length added <= 1)%nat
         /\ default [] (queues w' !! tile_id (context_tile context))
            = default [] (queues w !! tile_id (context_tile context)) ++ added.
Proof.
  intros w feature draw context w' E. split.
  - unfold addFeature in E.
    destruct (negb _); [by inversion E|].
    destruct (_ && _)%bool; [by inversion E|].
    destruct (hasSprites w _).
    + destruct (parseSprite w _ draw context) as [[w1 [info|]]|] eqn:Es;
        cbn in E; try discriminate; inversion E; subst; clear E;
        apply parseSprite_frame in Es as (Hg & _); [|exact Hg].
      unfold addFeature_styled.
      match goal with
      | |- context [text_styling w1 ?f ?d ?c ?t ?st] =>
          pose proof (text_styling_generation w1 f d c t st) as G;
          destruct (text_styling w1 f d c t st) as [w2 tf]
      end.
      cbn [fst] in G. rewrite <- Hg, <- G. unfold queueFeature.
      destruct (_ || _)%bool; reflexivity.
    + inversion E; subst; clear E. unfold addFeature_styled.
      match goal with
      | |- context [text_styling w ?f ?d ?c ?t ?st] =>
          pose proof (text_styling_generation w f d c t st) as G;
          destruct (text_styling w f d c t st) as [w2 tf]
      end.
      cbn [fst] in G. rewrite <- G. unfold queueFeature.
      destruct (_ || _)%bool; reflexivity.
  - apply addFeature_queued in E as [E|E].
    + rewrite E. split; [done|]. exists []. split; [cbn; lia|].
      by rewrite app_nil_r.
    + destruct E as (color & style_texture & sprite_info & texcoords & w1 & _ & E).
      rewrite E. split.
      * intros tile' Hne. by rewrite lookup_insert_ne.
      * eexists [_]. split; [cbn; lia|]. by rewrite lookup_insert_eq.
Qed.

Lemma queue_insert_changes (qs : gmap string (list QueueItem)) k q :
  <[k := default [] (qs !! k) ++ [q]]> qs <> qs.
Proof.
  intros E. apply (f_equal (fun m => m !! k)) in E.
  rewrite lookup_insert_eq in E.
  destruct (qs !! k) as [l|]; [|discriminate].
  cbn in E. inversion E as [Hl].
  apply (f_equal length) in Hl. rewrite length_app in Hl. cbn in Hl. lia.
Qed.

(** *** Sprites *)

Lemma sprite_found_info w style_texture sprite entry sprites :
  Texture_textures w !! style_texture = Some entry ->
  texture_sprites entry = Some sprites ->
  is_Some (if js_has_truthy sprites (js_key sprite)
           then Texture_getSpriteInfo style_texture (js_key sprite)
           else None)
  <-> sprite_found w style_texture sprite = true.
Proof.
  intros He Hs. unfold sprite_found. rewrite He, Hs.
  destruct (js_has_truthy sprites (js_key sprite)); cbn [andb].
  - by rewrite bool_decide_eq_true.
  - split; [by intros [? ?]|discriminate].
Qed.

(** What a lookup returns is whether the sprite is found. *)
Lemma getSpriteInfo_info w style_texture sprite w' info :
  getSpriteInfo w style_texture sprite = Ok (w', info) ->
  is_Some info <-> sprite_found w style_texture sprite = true.
Proof.
  intros E. unfold getSpriteInfo in E.
  destruct (Texture_textures w !! style_texture) as [entry|] eqn:He;
    [|discriminate].
  destruct (texture_sprites entry) as [sprites|] eqn:Hs; [|discriminate].
  rewrite <- (sprite_found_info w style_texture sprite entry sprites He Hs).
  destruct (_ && _)%bool; [destruct (_ || _)%bool|]; by inversion E.
Qed.

Lemma sprite_found_frame w w' style_texture sprite :
  Texture_textures w' = Texture_textures w ->
  sprite_found w' style_texture sprite = sprite_found w style_texture sprite.
Proof. intros E. unfold sprite_found. by rewrite E. Qed.

(** [parseSprite] finds a sprite exactly when the sprite or the default
    sprite is found. *)
Lemma parseSprite_info w style_texture draw context w' info :
  parseSprite w style_texture draw context = Ok (w', info) ->
  is_Some info
  <-> sprite_found w style_texture (draw_sprite draw context) = true
      \/ sprite_found w style_texture (draw_sprite_default draw) = true.
Proof.
  unfold parseSprite. intros E.
  destruct (getSpriteInfo w style_texture (draw_sprite draw context))
    as [[w1 i1]|] eqn:E1; cbn [result_bind] in E; [|discriminate].
  pose proof (getSpriteInfo_info _ _ _ _ _ E1) as H1.
  destruct i1 as [i1|].
  - inversion E; subst. split; [intros _; left; by apply H1|by eexists].
  - pose proof (getSpriteInfo_info _ _ _ _ _ E) as H2.
    apply getSpriteInfo_frame in E1 as (_ & _ & _ & Ht & _).
    rewrite (sprite_found_frame w w1 _ _ Ht) in H2.
    rewrite H2. split; [by right|].
    intros [Hf|Hf]; [|exact Hf]. apply H1 in Hf. by destruct Hf.
Qed.

(** X3. [addFeature] queues the feature exactly when its tile is of the
    generation of the style, the draw group gives a color or the feature
    has a texture, and, if the texture has sprites, the sprite or the
    default sprite of the draw group is found in it.  The texture is that
    of the draw group, also when that is [null], and that of the style
    only when the draw group leaves it [undefined].  Textures named like a
    property every object inherits are left aside. *)
Theorem addFeature_queues_iff :
  forall w feature draw context w',
    let style_texture :=
      match draw_texture draw with
      | Some t => t
      | None => texture w
      end in
    js_key style_texture ∉ Object_prototype_names ->
    addFeature w feature draw context = Ok w' ->
    queues w' <> queues w
    <-> tile_generation (context_tile context) = generation w
        /\ (is_Some (draw_color draw context)
            \/ str_truthy style_texture = true)
        /\ (hasSprites w style_texture = false
            \/ sprite_found w (js_key style_texture) (draw_sprite draw context)
               = true
            \/ sprite_found w (js_key style_texture) (draw_sprite_default draw)
               = true).
Proof.
  intros w feature draw context w' style_texture _ E. unfold addFeature in E.
  fold style_texture in E.
  assert (Hstyled : forall w0 sprite_info texcoords,
            queues w0 = queues w ->
            queues (addFeature_styled w0 feature draw context
                      (context_tile context) (draw_color draw context)
                      style_texture sprite_info texcoords) <> queues w).
  { intros w0 sprite_info texcoords Hw0. unfold addFeature_styled.
    match goal with
    | |- context [text_styling w0 ?f ?d ?c ?t ?st] =>
        pose proof (text_styling_queues w0 f d c t st) as Q;
        destruct (text_styling w0 f d c t st) as [w2 tf]
    end.
    cbn [queues set_collision fst] in *.
    rewrite queueFeature_queues, Q, Hw0. apply queue_insert_changes. }
  destruct (Z.eqb_spec (tile_generation (context_tile context)) (generation w))
    as [Hgen|Hgen]; cbn [negb] in E.
  2:{ inversion E; subst. split; [done|]. intros (? & _). done. }
  destruct (negb (bool_decide (is_Some (draw_color draw context)))
            && negb (str_truthy style_texture))%bool eqn:Hct.
  { inversion E; subst. split; [done|]. intros (_ & Hs & _).
    apply andb_prop in Hct as [Hc Ht].
    apply negb_true_iff in Hc, Ht. apply bool_decide_eq_false in Hc.
    destruct Hs as [Hs|Hs]; [done|congruence]. }
  assert (Hcolor : is_Some (draw_color draw context)
                   \/ str_truthy style_texture = true).
  { apply andb_false_iff in Hct as [Hc|Ht].
    - left. apply negb_false_iff in Hc. by apply bool_decide_eq_true in Hc.
    - right. by apply negb_false_iff in Ht. }
  destruct (hasSprites w style_texture) eqn:Hh.
  - destruct (parseSprite w (js_key style_texture) draw context)
      as [[w1 info]|] eqn:Es; cbn [result_bind] in E; [|discriminate].
    pose proof (parseSprite_info _ _ _ _ _ _ Es) as Hinfo.
    apply parseSprite_queues in Es as [Eq _].
    destruct info as [info|]; inversion E; subst; clear E.
    + split; [|intros _; by apply Hstyled].
      intros _. split; [exact Hgen|]. split; [exact Hcolor|].
      right. apply Hinfo. by eexists.
    + split; [done|]. intros (_ & _ & [Hs|Hs]); [discriminate|].
      apply Hinfo in Hs. by destruct Hs.
  - inversion E; subst; clear E. split; [|intros _; by apply Hstyled].
    intros _. split; [exact Hgen|]. split; [exact Hcolor|]. by left.
Qed.

(** The lookup of a named sprite that is not found, as equations: it is
    logged and recorded unless the record of the texture reads something
    under its name already. *)
Lemma getSpriteInfo_missing w style_texture sprite entry sprites :
  Texture_textures w !! style_texture = Some entry ->
  texture_sprites entry = Some sprites ->
  sprite <> "" ->
  sprite_found w style_texture (Some sprite) = false ->
  exists w1,
    getSpriteInfo w style_texture (Some sprite) = Ok (w1, None)
    /\ Texture_textures w1 = Texture_textures w
    /\ (sprite ∈ default ∅ (texture_missing_sprites w !! style_texture)
        \/ sprite ∈ Object_prototype_names ->
        logs w1 = logs w
        /\ texture_missing_sprites w1
           = <[style_texture :=
                 default ∅ (texture_missing_sprites w !! style_texture)]>
               (texture_missing_sprites w))
    /\ (sprite ∉ default ∅ (texture_missing_sprites w !! style_texture) ->
        sprite ∉ Object_prototype_names ->
        (exists entry,
           logs w1 = logs w ++ [entry]
           /\ log_level entry = "debug" /\ log_once entry = false)
        /\ texture_missing_sprites w1
           = <[style_texture :=
                 {[sprite]}
                 ∪ default ∅ (texture_missing_sprites w !! style_texture)]>
               (texture_missing_sprites w)).
Proof.
  intros He Hs Hne Hfound. unfold getSpriteInfo. rewrite He, Hs.
  change (js_key (Some sprite)) with sprite.
  assert (Hinfo : (if js_has_truthy sprites sprite
                   then Texture_getSpriteInfo style_texture sprite
                   else None) = None).
  { pose proof (sprite_found_info w style_texture (Some sprite) entry sprites
                  He Hs) as Hi.
    change (js_key (Some sprite)) with sprite in Hi.
    destruct (if js_has_truthy sprites sprite
              then Texture_getSpriteInfo style_texture sprite
              else None) as [i|]; [|reflexivity].
    assert (Hsome : is_Some (Some i)) by (by eexists).
    apply Hi in Hsome. congruence. }
  rewrite Hinfo.
  assert (Ht : str_truthy (Some sprite) = true).
  { cbn. apply negb_true_iff. by apply String.eqb_neq. }
  rewrite Ht.
  assert (Hb : bool_decide (is_Some (@None SpriteInfo)) = false)
    by (apply bool_decide_eq_false; by intros [? ?]).
  rewrite Hb. cbn [andb negb].
  set (missing := default ∅ (texture_missing_sprites w !! style_texture)).
  destruct (bool_decide (sprite ∈ missing)
            || bool_decide (sprite ∈ Object_prototype_names))%bool eqn:Hm.
  - eexists. split; [reflexivity|]. cbn. split; [reflexivity|].
    split; [by intros _|].
    intros Hn1 Hn2. apply orb_prop in Hm as [Hm|Hm];
      apply bool_decide_eq_true in Hm; contradiction.
  - apply orb_false_elim in Hm as [Hm1 Hm2].
    apply bool_decide_eq_false in Hm1, Hm2.
    eexists. split; [reflexivity|]. cbn. split; [reflexivity|].
    split; [intros [Hin|Hin]; contradiction|].
    intros _ _. split; [eexists; split; [reflexivity|split; reflexivity]|].
    by rewrite insert_insert_eq.
Qed.

Lemma getSpriteInfo_missing_inv w style_texture sprite w1 :
  getSpriteInfo w style_texture (Some sprite) = Ok (w1, None) ->
  exists entry sprites,
    Texture_textures w !! style_texture = Some entry
    /\ texture_sprites entry = Some sprites
    /\ sprite_found w style_texture (Some sprite) = false.
Proof.
  intros E. pose proof (getSpriteInfo_info _ _ _ _ _ E) as Hi.
  unfold getSpriteInfo in E.
  destruct (Texture_textures w !! style_texture) as [entry|] eqn:He;
    [|discriminate].
  destruct (texture_sprites entry) as [sprites|] eqn:Hs; [|discriminate].
  exists entry, sprites. split; [done|]. split; [done|].
  destruct (sprite_found w style_texture (Some sprite)); [|reflexivity].
  destruct (proj2 Hi eq_refl) as [? ?]. discriminate.
Qed.

(** X4. A named sprite that is missing from a texture is logged once.  A
    lookup that does not find it adds one debug entry to the log and records
    the sprite under the texture, unless it is recorded there already; then,
    and at every later lookup, nothing is logged and the record stays as it
    is.  A sprite named like a property every object inherits is never
    logged or recorded: the record reads a built-in under its name.  The
    record of every other texture is left alone.  Textures named like a
    property every object inherits are left aside. *)
Theorem getSpriteInfo_logs_missing_sprite_once :
  forall w style_texture sprite w1,
    sprite <> "" ->
    style_texture ∉ Object_prototype_names ->
    getSpriteInfo w style_texture (Some sprite) = Ok (w1, None) ->
    (sprite ∉ Object_prototype_names ->
     (if bool_decide
           (sprite ∈ default ∅ (texture_missing_sprites w !! style_texture))
      then logs w1 = logs w
      else exists entry,
             logs w1 = logs w ++ [entry]
             /\ log_level entry = "debug" /\ log_once entry = false)
     /\ default ∅ (texture_missing_sprites w1 !! style_texture)
        = {[sprite]} ∪ default ∅ (texture_missing_sprites w !! style_texture)
     /\ exists w2,
          getSpriteInfo w1 style_texture (Some sprite) = Ok (w2, None)
          /\ logs w2 = logs w1
          /\ texture_missing_sprites w2 = texture_missing_sprites w1)
    /\ (sprite ∈ Object_prototype_names ->
        logs w1 = logs w
        /\ default ∅ (texture_missing_sprites w1 !! style_texture)
           = default ∅ (texture_missing_sprites w !! style_texture))
    /\ forall texture',
         texture' <> style_texture ->
         texture_missing_sprites w1 !! texture'
         = texture_missing_sprites w !! texture'.
Proof.
  intros w style_texture sprite w1 Hne _ E.
  destruct (getSpriteInfo_missing_inv _ _ _ _ E)
    as (entry & sprites & He & Hs & Hfound).
  destruct (getSpriteInfo_missing w style_texture sprite entry sprites
              He Hs Hne Hfound)
    as (w1' & E1 & Ht1 & Hold & Hnew).
  rewrite E in E1. inversion E1; subst w1'; clear E1.
  set (missing := default ∅ (texture_missing_sprites w !! style_texture)) in *.
  assert (Hrecord : sprite ∉ Object_prototype_names ->
                    texture_missing_sprites w1
                    = <[style_texture := {[sprite]} ∪ missing]>
                        (texture_missing_sprites w)).
  { intros Hn. destruct (decide (sprite ∈ missing)) as [Hin|Hnin].
    - destruct (Hold (or_introl Hin)) as [_ ->]. f_equal.
      symmetry. apply subseteq_union_1_L. by apply singleton_subseteq_l.
    - by destruct (Hnew Hnin Hn) as [_ ->]. }
  split; [|split].
  - intros Hn. split; [|split].
    + destruct (bool_decide (sprite ∈ missing)) eqn:Hm.
      * apply bool_decide_eq_true in Hm. by destruct (Hold (or_introl Hm)).
      * apply bool_decide_eq_false in Hm. by destruct (Hnew Hm Hn).
    + rewrite (Hrecord Hn), lookup_insert_eq. reflexivity.
    + assert (Hin : sprite
                    ∈ default ∅ (texture_missing_sprites w1 !! style_texture)).
      { rewrite (Hrecord Hn), lookup_insert_eq. cbn.
        apply elem_of_union. left. by apply elem_of_singleton. }
      rewrite <- Ht1 in He.
      assert (Hfound1 : sprite_found w1 style_texture (Some sprite) = false)
        by (by rewrite (sprite_found_frame w w1 _ _ Ht1)).
      destruct (getSpriteInfo_missing w1 style_texture sprite entry sprites
                  He Hs Hne Hfound1)
        as (w2 & E2 & _ & Hsame & _).
      exists w2. split; [exact E2|].
      destruct (Hsame (or_introl Hin)) as [Hl Hm2]. split; [exact Hl|].
      rewrite Hm2. apply insert_id.
      rewrite (Hrecord Hn), lookup_insert_eq. reflexivity.
  - intros Hin. destruct (Hold (or_intror Hin)) as [Hl Hm].
    split; [exact Hl|]. by rewrite Hm, lookup_insert_eq.
  - intros texture' Hne'.
    destruct (decide (sprite ∈ missing \/ sprite ∈ Object_prototype_names))
      as [Hcase|Hcase].
    + destruct (Hold Hcase) as [_ ->]. by rewrite lookup_insert_ne.
    + destruct (Hnew (fun Hin => Hcase (or_introl Hin))
                  (fun Hin => Hcase (or_intror Hin))) as [_ ->].
      by rewrite lookup_insert_ne.
Qed.

(** X5. Looking up a sprite that is found, or no sprite at all, changes
    nothing: no log entry and no record of a missing sprite. *)
Theorem getSpriteInfo_found_is_silent :
  forall w style_texture sprite w' info,
    getSpriteInfo w style_texture sprite = Ok (w', info) ->
    is_Some info \/ str_truthy sprite = false ->
    w' = w.
Proof.
  intros w style_texture sprite w' info E Hcase. unfold getSpriteInfo in E.
  destruct (Texture_textures w !! style_texture) as [entry|]; [|discriminate].
  destruct (texture_sprites entry) as [sprites|]; [|discriminate].
  set (i := if js_has_truthy sprites (js_key sprite)
            then Texture_getSpriteInfo style_texture (js_key sprite)
            else None) in *.
  destruct (str_truthy sprite && negb (bool_decide (is_Some i)))%bool eqn:Hb.
  - exfalso. apply andb_prop in Hb as [Hs Hi].
    apply negb_true_iff, bool_decide_eq_false in Hi.
    destruct Hcase as [Hsome|Hfalse]; [|congruence].
    destruct (_ || _)%bool; inversion E; subst; done.
  - by inversion E.
Qed.

(** *** Outline, layout and text *)

Lemma num_truthy_pos (q : Q) : 0 < q -> num_truthy q = true.
Proof.
  intros Hq. unfold num_truthy. apply negb_true_iff.
  destruct (Qeq_bool q 0) eqn:E; [|reflexivity].
  apply Qeq_bool_eq in E. rewrite E in Hq. by apply Qlt_irrefl in Hq.
Qed.


(** X6. With an outline color and a positive outline width, on a size that
    is not negative, the outline width is added to both dimensions and
    [outline_edge_pct] lies above 0 and is at most 2; without an outline
    width or color the size is kept and [outline_edge_pct] is 0. *)
Theorem outlined_size_edge_pct :
  forall w h ow color,
    0 <= w -> 0 <= h -> 0 < ow ->
    fst (outlined_size (w, h) (Some ow, Some color)) = (w + ow, h + ow)
    /\ 0 < snd (outlined_size (w, h) (Some ow, Some color))
    /\ snd (outlined_size (w, h) (Some ow, Some color)) <= 2
    /\ (forall size outline,
          fst outline = None \/ snd outline = None ->
          outlined_size size outline = (size, 0)).
Proof.
  intros w h ow color Hw Hh How. unfold outlined_size.
  rewrite (num_truthy_pos ow How). cbn [fst snd].
  assert (Hm : ow <= Qmin (w + ow) (h + ow)) by (apply Q.min_glb; lra).
  assert (Hpos : 0 < Qmin (w + ow) (h + ow)) by lra.
  split; [reflexivity|]. split; [|split].
  - assert (0 < ow / Qmin (w + ow) (h + ow)).
    { apply Qlt_shift_div_l; [exact Hpos|lra]. }
    lra.
  - assert (ow / Qmin (w + ow) (h + ow) <= 1).
    { apply Qle_shift_div_r; [exact Hpos|lra]. }
    lra.
  - intros size [[ow'|] [c|]] [E|E]; cbn in E; try discriminate; reflexivity.
Qed.


(** X8. A text feature is attached to a point exactly when the draw group
    has a text that is not set invisible and [parseTextFeature] gives one
    text feature for it; the attached feature is the parsed one, changed by
    [attach_to_point]. *)
Theorem text_styling_attaches_iff :
  forall w feature draw context tile style tf,
    snd (text_styling w feature draw context tile style) = Some tf
    <-> exists text parsed,
          draw_text draw = Some text
          /\ text_visible text <> JBool false
          /\ snd (parseTextFeature feature text context tile (texts w))
             = ParsedOne parsed
          /\ tf = attach_to_point draw style parsed.
Proof.
  intros w feature draw context tile style tf. unfold text_styling. split.
  - destruct (draw_text draw) as [text|]; [|discriminate].
    intros E. exists text.
    destruct (parseTextFeature feature text context tile (texts w))
      as [t parsed] eqn:Ep.
    destruct (text_visible text) as [| |[|]| | | |];
      destruct parsed as [|tfs|parsed]; cbn in E; try discriminate;
      inversion E; eexists; (split; [reflexivity|]);
      (split; [discriminate|]); split; reflexivity.
  - intros (text & parsed & -> & Hv & Hp & ->).
    destruct (parseTextFeature feature text context tile (texts w))
      as [t parsed'] eqn:Ep. cbn in Hp. subst parsed'.
    destruct (text_visible text) as [| |[|]| | | |]; try reflexivity.
    contradiction.
Qed.

(** X9. A point whose text asks for boundary labels (an array of text
    features) is queued all the same, without a text feature: one warning is
    logged, once, and only the points group is registered with the collision
    manager. *)
Theorem addFeature_boundary_labels :
  forall w feature draw context text tfs,
    tile_generation (context_tile context) = generation w ->
    is_Some (draw_color draw context) ->
    hasSprites w (match draw_texture draw with
                  | Some t => t
                  | None => texture w
                  end) = false ->
    draw_text draw = Some text ->
    text_visible text <> JBool false ->
    snd (parseTextFeature feature text context (context_tile context) (texts w))
    = ParsedArray tfs ->
    exists w' q,
      addFeature w feature draw context = Ok w'
      /\ queues w' !! tile_id (context_tile context)
         = Some (default [] (queues w !! tile_id (context_tile context)) ++ [q])
      /\ q_text_feature q = None
      /\ (exists entry,
            logs w' = logs w ++ [entry]
            /\ log_level entry = "warn" /\ log_once entry = true)
      /\ collision w'
         = Collision_addStyle (collision_group_points w)
             (tile_id (context_tile context)) (collision w).
Proof.
  intros w feature draw context text tfs Hgen Hcolor Hsprites Hd Hv Hp.
  unfold addFeature. rewrite Hgen, Z.eqb_refl. cbn [negb].
  rewrite (bool_decide_eq_true_2 _ Hcolor). cbn [negb andb].
  rewrite Hsprites. unfold addFeature_styled, text_styling. rewrite Hd.
  destruct (parseTextFeature feature text context (context_tile context)
              (texts w)) as [t parsed] eqn:Ep. cbn in Hp. subst parsed.
  assert (Hvis : forall A (a b : A),
            match text_visible text with JBool false => a | _ => b end = b).
  { intros A a b. destruct (text_visible text) as [| |[|]| | | |];
      try reflexivity. contradiction. }
  rewrite Hvis.
  eexists _, _. split; [reflexivity|].
  cbn [queues set_collision logs collision]. rewrite queueFeature_queues.
  rewrite lookup_insert_eq. split; [reflexivity|]. split; [reflexivity|].
  split.
  - unfold queueFeature. destruct (_ || _)%bool; cbn;
      eexists; (split; [reflexivity|]); split; reflexivity.
  - unfold queueFeature. destruct (_ || _)%bool; reflexivity.
Qed.

(** *** [endData] *)

(** X10. [endData] takes the queue of the tile away before it starts the
    collision passes: the points pass is started on the state without the
    queue, under the group of the points, and the text pass on the state the
    points pass left, under the group of the text.  When neither pass
    changes the queues, the queue is still gone when [endData] returns: a
    second [endData] for the tile throws a [TypeError], and the next feature
    queued for the tile starts a queue of its own. *)
Theorem endData_drains_queue :
  forall w tile w' point_objs text_objs,
    (forall objs group id w1 w2,
       Collision_collide objs group id w1 = Ok w2 -> queues w2 = queues w1) ->
    (forall tile group objs w1 w2,
       collideAndRenderTextLabels tile group objs w1 = Ok w2 ->
       queues w2 = queues w1) ->
    endData w tile = Ok (w', Colliding point_objs text_objs) ->
    is_Some (queues w !! tile_id tile)
    /\ (exists w1,
          Collision_collide point_objs (name w +:+ "-points") (tile_id tile)
            (set_queues w (delete (tile_id tile) (queues w))) = Ok w1
          /\ collideAndRenderTextLabels tile (name w1 +:+ "-text") text_objs w1
             = Ok w')
    /\ queues w' = delete (tile_id tile) (queues w)
    /\ endData w' tile = Throw TypeError
    /\ forall q, queues (queueFeature w' q tile) !! tile_id tile = Some [q].
Proof.
  intros w tile w' P T Hpoints Htext E.
  destruct (endData_colliding _ _ _ _ _ E)
    as (queue & w1 & Hc & Hq & _ & E1 & E2).
  assert (Hqueues : queues w' = delete (tile_id tile) (queues w)).
  { rewrite (Htext _ _ _ _ _ E2), (Hpoints _ _ _ _ _ E1). reflexivity. }
  split; [by eexists|]. split; [exists w1; split; assumption|].
  split; [exact Hqueues|]. split.
  - unfold endData. rewrite Hc, Hqueues. by rewrite lookup_delete_eq.
  - intros q. rewrite queueFeature_queues, Hqueues.
    rewrite lookup_insert_eq, lookup_delete_eq. reflexivity.
Qed.

(** X11. When the only feature offered for a tile is skipped, because its
    tile is of another generation or because it has neither color nor
    texture, nothing is queued for the tile, and [endData] for the tile, if
    it is not canceled, throws a [TypeError]. *)
Theorem endData_without_queue_throws :
  forall w feature draw context,
    queues w !! tile_id (context_tile context) = None ->
    tile_canceled (context_tile context) = false ->
    tile_generation (context_tile context) <> generation w
    \/ (draw_color draw context = None
        /\ draw_texture draw = None /\ texture w = None) ->
    exists w1,
      addFeature w feature draw context = Ok w1
      /\ endData w1 (context_tile context) = Throw TypeError.
Proof.
  intros w feature draw context Hq Hc Hskip. exists w. split.
  - unfold addFeature.
    destruct (Z.eqb_spec (tile_generation (context_tile context))
                (generation w)) as [Hgen|Hgen]; [|reflexivity].
    destruct Hskip as [Hne|(Hcolor & Ht1 & Ht2)]; [contradiction|].
    rewrite Hcolor, Ht1, Ht2. reflexivity.
  - unfold endData. rewrite Hc, Hq. reflexivity.
Qed.

Lemma forEach_endData_feature_labels :
  forall queue point_objs text_objs objs',
    forEach endData_feature queue (point_objs, text_objs) = Ok objs' ->
    exists labelss,
      Forall2 (fun q labels =>
                 buildLabels (style_size (q_style q))
                   (feature_geometry (q_feature q)) (q_style q) = Ok labels)
              queue labelss
      /\ map po_label (fst objs')
         = map po_label point_objs ++ concat labelss
      /\ map to_point_label (snd objs')
         = map to_point_label text_objs
           ++ concat (zip_with (fun q labels =>
                                  match q_text_feature q with
                                  | Some _ => labels
                                  | None => []
                                  end) queue labelss).
Proof.
  induction queue as [|q queue IH]; intros P T objs' E; cbn [forEach] in E.
  - inversion E; subst. exists []. cbn. rewrite !app_nil_r.
    split; [constructor|done].
  - destruct (endData_feature q (P, T)) as [[P1 T1]|] eqn:E1;
      cbn [result_bind] in E; [|discriminate].
    apply endData_feature_pushes in E1
      as (labels & np & nt & Hb & HP & HT & Hnp & Hnt).
    cbn [fst snd] in HP, HT. subst P1 T1.
    destruct (IH _ _ _ E) as (labelss & HF & HPl & HTl).
    exists (labels :: labelss). split; [by constructor|].
    rewrite HPl, HTl, !map_app. cbn [concat zip_with].
    rewrite <- !app_assoc. rewrite Hnp. split; [reflexivity|].
    destruct (q_text_feature q).
    + by rewrite Hnt.
    + by subst nt.
Qed.

(** X12. The point objects [endData] hands to the collision pass carry the
    labels that [buildLabels] gives for the queued features, feature after
    feature in the order of the queue, and the text objects carry the labels
    of those features that have a text feature, in the same order. *)
Theorem endData_objects_follow_queue :
  forall w tile w' point_objs text_objs,
    endData w tile = Ok (w', Colliding point_objs text_objs) ->
    exists queue labelss,
      queues w !! tile_id tile = Some queue
      /\ Forall2 (fun q labels =>
                    buildLabels (style_size (q_style q))
                      (feature_geometry (q_feature q)) (q_style q) = Ok labels)
                 queue labelss
      /\ map po_label point_objs = concat labelss
      /\ map to_point_label text_objs
         = concat (zip_with (fun q labels =>
                               match q_text_feature q with
                               | Some _ => labels
                               | None => []
                               end) queue labelss).
Proof.
  intros w tile w' P T E.
  destruct (endData_colliding _ _ _ _ _ E) as (queue & w1 & _ & Hq & Ef & _).
  apply forEach_endData_feature_labels in Ef as (labelss & HF & HP & HT).
  exists queue, labelss. cbn in HP, HT. done.
Qed.

(** *** [buildLabels], points and lines *)

Lemma concat_map_singleton {A B : Type} (f : A -> B) (l : list A) :
  concat (map (fun a => [f a]) l) = map f l.
Proof. induction l as [|a l IH]; cbn; [done|]. by rewrite IH. Qed.

(** X13. [buildLabels] gives one label for a Point, one label per point of
    a MultiPoint in the order of the points, the labels [placePointsOnLine]
    places on a LineString, and those it places on each line of a
    MultiLineString, line after line. *)
Theorem buildLabels_points_and_lines :
  forall size options,
    (forall coordinates,
       buildLabels size (mkGeometry "Point" coordinates) options
       = Ok [LabelPoint coordinates size options])
    /\ (forall points,
          buildLabels size (mkGeometry "MultiPoint" (JArr points)) options
          = Ok (map (fun point => LabelPoint point size options) points))
    /\ (forall line,
          buildLabels size (mkGeometry "LineString" line) options
          = Ok (placePointsOnLine line size options))
    /\ (forall lines,
          buildLabels size (mkGeometry "MultiLineString" (JArr lines)) options
          = Ok (concat (map (fun line => placePointsOnLine line size options)
                            lines))).
Proof.
  intros size options. repeat split.
  - intros points. unfold buildLabels. cbn -[for_loop js_get_index].
    rewrite (for_loop_elements
               (fun point labels => Ok (labels ++ [LabelPoint point size options]))).
    rewrite (forEach_append (fun point => [LabelPoint point size options])).
    cbn. by rewrite concat_map_singleton.
  - intros line. unfold buildLabels. cbn. by rewrite push_all_app.
  - intros lines. unfold buildLabels. cbn -[for_loop js_get_index].
    rewrite (for_loop_elements
               (fun line labels =>
                  Ok (push_all labels (placePointsOnLine line size options)))).
    rewrite (forEach_ext _
               (fun line labels => Ok (labels ++ placePointsOnLine line size options)))
      by (intros; by rewrite push_all_app).
    by rewrite forEach_append.
Qed.

(** X14. [buildLabels] throws a [TypeError] when the coordinates are
    [undefined] or [null] and have to be walked: for a MultiPoint, a
    MultiLineString, and a Polygon or MultiPolygon that is not placed at its
    centroid.  So does a MultiPolygon, not placed at its centroid, whose
    first polygon is [undefined] or [null], whatever polygons follow. *)
Theorem buildLabels_missing_coordinates :
  forall size options type coordinates,
    coordinates = JUndefined \/ coordinates = JNull ->
    (type = "MultiPoint" \/ type = "MultiLineString"
     \/ ((type = "Polygon" \/ type = "MultiPolygon")
         /\ style_placement options <> CENTROID)
     -> buildLabels size (mkGeometry type coordinates) options = Throw TypeError)
    /\ (style_placement options <> CENTROID ->
        forall polygons,
          buildLabels size
            (mkGeometry "MultiPolygon" (JArr (coordinates :: polygons))) options
          = Throw TypeError).
Proof.
  intros size options type coordinates Hc.
  assert (Hplace : style_placement options <> CENTROID ->
                   Placement_eqb (style_placement options) CENTROID = false)
    by (destruct (style_placement options); cbn; congruence).
  split.
  - intros [->|[->|[[-> | ->] Hp]]]; unfold buildLabels; cbn;
      try rewrite (Hplace Hp);
      destruct Hc as [-> | ->]; reflexivity.
  - intros Hp polygons. unfold buildLabels. cbn. rewrite (Hplace Hp).
    destruct Hc as [-> | ->]; reflexivity.
Qed.

(** *** [buildLabel] *)

Lemma get_mesh_tile_present tile_data tile key mesh :
  get_mesh tile_data (tile, key) = Some mesh -> is_Some (tile_data !! tile).
Proof.
  unfold get_mesh. cbn. destruct (tile_data !! tile); [by eexists|discriminate].
Qed.

Lemma buildLabel_spec label style tile key context tile_data mesh_obj size
    texcoords :
  get_mesh tile_data (tile, key) = Some mesh_obj ->
  label_size_texcoords label style = Ok (size, texcoords) ->
  let options :=
    quad_options size
      (if num_truthy (label_angle label) then label_angle label
       else bs_angle style)
      JNull JNull (label_offset label) JNull texcoords false in
  let '(u_texture, u_point_type, u_apply_color_blocks) :=
    label_point_uniforms style in
  let with_uniforms :=
    set_point_uniforms mesh_obj u_texture u_point_type u_apply_color_blocks in
  buildLabel label style (tile, key) context tile_data
  = Ok (quads_geom_count [label_position label] options,
        put_mesh tile_data (tile, key)
          (set_vertex_data with_uniforms
             (mkVertexData (vertex_layout (mesh_vertex_data mesh_obj))
                (vertex_quads (mesh_vertex_data mesh_obj)
                 ++ [mkQuadCall [label_position label]
                       (makeVertexTemplate style (mesh_variant mesh_obj))
                       (quad_indices
                          (layout_index
                             (vertex_layout (mesh_vertex_data mesh_obj))))
                       options])))).
Proof.
  intros Hm Hst. unfold buildLabel. rewrite Hm.
  unfold label_size_texcoords in Hst. unfold label_point_uniforms.
  destruct (str_truthy (label_type label)).
  - destruct (js_get_field (bs_size style) (js_key (label_type label)))
      as [size'|]; cbn [result_bind] in Hst |- *; [|discriminate].
    destruct (js_get_field (bs_texcoords style) (js_key (label_type label)))
      as [entry|]; cbn [result_bind] in Hst |- *; [|discriminate].
    destruct (js_get_field entry "texcoord") as [texcoords'|];
      cbn [result_bind] in Hst |- *; [|discriminate].
    inversion Hst; subst.
    destruct (str_truthy (bs_label_texture style));
      [|destruct (str_truthy (bs_texture style))]; reflexivity.
  - inversion Hst; subst. cbn [result_bind].
    destruct (str_truthy (bs_label_texture style));
      [|destruct (str_truthy (bs_texture style))]; reflexivity.
Qed.

(** X15. [buildLabel] appends exactly one quad to the buffer of the mesh it
    is given, and touches the buffer of no other mesh of the tile: the quad
    is not curved, has [null] for the per-segment angles, pre-angles and
    offsets, and is turned by the angle of the label, or by the angle of the
    style when the label has none (or 0); the count of the builder is
    returned. *)
Theorem buildLabel_writes_one_quad :
  forall label style tile key context tile_data mesh_obj size texcoords,
    get_mesh tile_data (tile, key) = Some mesh_obj ->
    label_size_texcoords label style = Ok (size, texcoords) ->
    exists tile_data' mesh',
      buildLabel label style (tile, key) context tile_data
      = Ok (quads_geom_count [label_position label]
              (quad_options size
                 (if num_truthy (label_angle label) then label_angle label
                  else bs_angle style)
                 JNull JNull (label_offset label) JNull texcoords false),
            tile_data')
      /\ get_mesh tile_data' (tile, key) = Some mesh'
      /\ map call_request (vertex_quads (mesh_vertex_data mesh'))
         = map call_request (vertex_quads (mesh_vertex_data mesh_obj))
           ++ [([label_position label],
                makeVertexTemplate style (mesh_variant mesh_obj),
                quad_options size
                  (if num_truthy (label_angle label) then label_angle label
                   else bs_angle style)
                  JNull JNull (label_offset label) JNull texcoords false)]
      /\ forall key',
           key' <> key ->
           get_mesh tile_data' (tile, key') = get_mesh tile_data (tile, key').
Proof.
  intros label style tile key context tile_data mesh_obj size texcoords Hm Hst.
  pose proof (buildLabel_spec label style tile key context tile_data mesh_obj
                size texcoords Hm Hst) as E.
  cbv zeta in E. destruct (label_point_uniforms style) as [[ut pt] acb].
  pose proof (get_mesh_tile_present _ _ _ _ Hm) as Htile.
  eexists _, _. split; [exact E|]. split; [|split].
  - rewrite get_mesh_put_mesh by done. by rewrite decide_True.
  - cbn. by rewrite map_app.
  - intros key' Hne. rewrite get_mesh_put_mesh by done.
    by rewrite decide_False.
Qed.

(** X16. After [buildLabel] the mesh always has a texture bound: the label
    texture with point type 2 and no color blocks when the style has a
    label texture, else the texture of the style with point type 1, else
    [Texture.default] with point type 3, both with color blocks; the
    uniforms the mesh had under other names are kept. *)
Theorem buildLabel_binds_texture :
  forall label style tile key context tile_data mesh_obj size texcoords,
    get_mesh tile_data (tile, key) = Some mesh_obj ->
    label_size_texcoords label style = Ok (size, texcoords) ->
    exists geom_count tile_data' mesh' uniforms,
      buildLabel label style (tile, key) context tile_data
      = Ok (geom_count, tile_data')
      /\ get_mesh tile_data' (tile, key) = Some mesh'
      /\ mesh_uniforms mesh' = Some uniforms
      /\ uniforms !! "u_texture"
         = Some (if str_truthy (bs_label_texture style)
                 then texture_value (bs_label_texture style)
                 else if str_truthy (bs_texture style)
                      then texture_value (bs_texture style)
                      else Texture_default)
      /\ uniforms !! "u_point_type"
         = Some (JNum (if str_truthy (bs_label_texture style) then 2
                       else if str_truthy (bs_texture style) then 1 else 3))
      /\ uniforms !! "u_apply_color_blocks"
         = Some (JBool (negb (str_truthy (bs_label_texture style))))
      /\ forall k,
           k <> "u_texture" -> k <> "u_point_type" ->
           k <> "u_apply_color_blocks" ->
           uniforms !! k = default ∅ (mesh_uniforms mesh_obj) !! k.
Proof.
  intros label style tile key context tile_data mesh_obj size texcoords Hm Hst.
  pose proof (buildLabel_spec label style tile key context tile_data mesh_obj
                size texcoords Hm Hst) as E.
  cbv zeta in E. unfold label_point_uniforms in E.
  pose proof (get_mesh_tile_present _ _ _ _ Hm) as Htile.
  destruct (str_truthy (bs_label_texture style));
    [|destruct (str_truthy (bs_texture style))];
    (eexists _, _, _, _; split; [exact E|];
     split; [rewrite get_mesh_put_mesh by done; by rewrite decide_True|];
     split; [reflexivity|];
     split; [by rewrite lookup_insert_ne, lookup_insert_ne, lookup_insert_eq|];
     split; [by rewrite lookup_insert_ne, lookup_insert_eq|];
     split; [by rewrite lookup_insert_eq|];
     intros k H1 H2 H3; by rewrite !lookup_insert_ne).
Qed.

(** *** [buildArticulatedLabel], return value and style *)

Lemma articulated_quad_count vertex_template tile_data position size angle
    angles pre_angles offset offsets texcoord mesh mesh_data :
  snd (articulated_quad vertex_template tile_data position size angle angles
         pre_angles offset offsets texcoord mesh mesh_data)
  = quads_geom_count [position]
      (quad_options size angle angles pre_angles offset offsets texcoord true).
Proof. reflexivity. Qed.

Lemma articulated_quad_present vertex_template tile_data position size angle
    angles pre_angles offset offsets texcoord mesh mesh_data tile :
  is_Some (tile_data !! tile) ->
  is_Some (fst (articulated_quad vertex_template tile_data position size angle
                  angles pre_angles offset offsets texcoord mesh mesh_data)
           !! tile).
Proof. intros Htile. cbn. by apply put_mesh_present. Qed.

(** A [getTileMesh] that keeps its meshes by the key of the variant
    returns. *)
Lemma getTileMesh_by_key_returns tile :
  getTileMesh_by_key tile -> getTileMesh_returns tile.
Proof.
  intros Hkey tile_data variant Htile.
  destruct (Hkey tile_data variant Htile) as (mesh_data & td1 & E & Htile1 & _).
  eexists _, _, _. split; [exact E|exact Htile1].
Qed.

Lemma pass_body_count pass label context vertex_template style t tile_data
    geom_count i sq :
  getTileMesh_returns (context_tile context) ->
  is_Some (tile_data !! tile_id (context_tile context)) ->
  segment_quad pass label style i = Ok sq ->
  exists tile_data',
    pass_body pass label context vertex_template (label_angle label) i
      (set_label_texture style t, tile_data, geom_count)
    = Ok (set_label_texture style (sq_label_texture sq), tile_data',
          (geom_count + segment_geom_count label vertex_template sq)%nat)
    /\ is_Some (tile_data' !! tile_id (context_tile context)).
Proof.
  intros Hmesh Htile Hsq. unfold segment_quad in Hsq.
  destruct pass; cbn [pass_body]; unfold stroke_pass_body, fill_pass_body;
    cbn [bs_size bs_texcoords bs_texcoords_stroke bs_label_textures
         bs_label_texture set_label_texture].
  - destruct (js_get_field (bs_size style) (js_key (label_type label)))
      as [sizes|]; cbn [result_bind] in Hsq |- *; [|discriminate].
    destruct (js_get_index sizes i) as [size|];
      cbn [result_bind] in Hsq |- *; [|discriminate].
    destruct (js_get_index (bs_texcoords_stroke style) i) as [texcoord|];
      cbn [result_bind] in Hsq |- *; [|discriminate].
    destruct (js_get_index (label_angles label) i) as [angles|];
      cbn [result_bind] in Hsq; [|discriminate].
    destruct (js_get_index (label_offsets label) i) as [offsets|];
      cbn [result_bind] in Hsq; [|discriminate].
    destruct (js_get_index (label_pre_angles label) i) as [pre_angles|];
      cbn [result_bind] in Hsq; [|discriminate].
    inversion Hsq; subst sq; clear Hsq.
    match goal with
    | |- context [getTileMesh tile_data ?tile ?v] =>
        destruct (Hmesh tile_data v Htile)
          as (mesh & mesh_data & td1 & Hget & Htile1)
    end.
    rewrite Hget. cbn [result_bind].
    match goal with
    | |- context [articulated_quad ?vt ?td ?p ?sz ?a ?as' ?pa ?o ?os ?tc ?m ?md] =>
        pose proof (articulated_quad_count vt td p sz a as' pa o os tc m md)
          as Hcount;
        pose proof (articulated_quad_present vt td p sz a as' pa o os tc m md
                      _ Htile1) as Hpresent;
        destruct (articulated_quad vt td p sz a as' pa o os tc m md)
          as [td' n]
    end.
    cbn [fst snd] in Hcount, Hpresent. subst n.
    exists td'. split; [reflexivity|exact Hpresent].
  - destruct (js_get_field (bs_size style) (js_key (label_type label)))
      as [sizes|]; cbn [result_bind] in Hsq |- *; [|discriminate].
    destruct (js_get_index sizes i) as [size|];
      cbn [result_bind] in Hsq |- *; [|discriminate].
    destruct (js_get_field (bs_texcoords style) (js_key (label_type label)))
      as [texcoords|]; cbn [result_bind] in Hsq |- *; [|discriminate].
    destruct (js_get_index texcoords i) as [entry|];
      cbn [result_bind] in Hsq |- *; [|discriminate].
    destruct (js_get_field entry "texcoord") as [texcoord|];
      cbn [result_bind] in Hsq |- *; [|discriminate].
    destruct (js_get_index (label_angles label) i) as [angles|];
      cbn [result_bind] in Hsq; [|discriminate].
    destruct (js_get_index (label_offsets label) i) as [offsets|];
      cbn [result_bind] in Hsq; [|discriminate].
    destruct (js_get_index (label_pre_angles label) i) as [pre_angles|];
      cbn [result_bind] in Hsq; [|discriminate].
    inversion Hsq; subst sq; clear Hsq.
    match goal with
    | |- context [getTileMesh tile_data ?tile ?v] =>
        destruct (Hmesh tile_data v Htile)
          as (mesh & mesh_data & td1 & Hget & Htile1)
    end.
    rewrite Hget. cbn [result_bind].
    match goal with
    | |- context [articulated_quad ?vt ?td ?p ?sz ?a ?as' ?pa ?o ?os ?tc ?m ?md] =>
        pose proof (articulated_quad_count vt td p sz a as' pa o os tc m md)
          as Hcount;
        pose proof (articulated_quad_present vt td p sz a as' pa o os tc m md
                      _ Htile1) as Hpresent;
        destruct (articulated_quad vt td p sz a as' pa o os tc m md)
          as [td' n]
    end.
    cbn [fst snd] in Hcount, Hpresent. subst n.
    exists td'. split; [reflexivity|exact Hpresent].
Qed.

Lemma pass_loop_count pass label context vertex_template style :
  getTileMesh_returns (context_tile context) ->
  forall count i t tile_data geom_count sqs,
    is_Some (tile_data !! tile_id (context_tile context)) ->
    segment_quads_from pass label style i count = Ok sqs ->
    exists tile_data',
      for_loop_from i count
        (pass_body pass label context vertex_template (label_angle label))
        (set_label_texture style t, tile_data, geom_count)
      = Ok (set_label_texture style (repointed_texture t sqs), tile_data',
            (geom_count
             + sum_list (map (segment_geom_count label vertex_template) sqs))%nat)
      /\ is_Some (tile_data' !! tile_id (context_tile context)).
Proof.
  intros Hmesh.
  induction count as [|count IH]; intros i t tile_data geom_count sqs Htile Hsqs;
    cbn [segment_quads_from for_loop_from] in *.
  - inversion Hsqs; subst. exists tile_data. cbn.
    rewrite Nat.add_0_r. by split.
  - destruct (segment_quad pass label style i) as [sq|] eqn:Hsq;
      cbn [result_bind] in Hsqs; [|discriminate].
    destruct (segment_quads_from pass label style (Datatypes.S i) count)
      as [rest|] eqn:Hrest; cbn [result_bind] in Hsqs; [|discriminate].
    inversion Hsqs; subst sqs; clear Hsqs.
    destruct (pass_body_count pass label context vertex_template style t
                tile_data geom_count i sq Hmesh Htile Hsq)
      as (td1 & Hbody & Htile1).
    rewrite Hbody. cbn [result_bind].
    destruct (IH (Datatypes.S i) (sq_label_texture sq) td1
                (geom_count + segment_geom_count label vertex_template sq)%nat
                rest Htile1 Hrest)
      as (td' & Hloop & Htile').
    exists td'. split; [|exact Htile'].
    rewrite Hloop. cbn [map sum_list repointed_texture foldl].
    unfold repointed_texture. by rewrite Nat.add_assoc.
Qed.

(** X17. When the data of every segment of a curved label can be read, and
    [getTileMesh], which is missing from the sources, returns a mesh each
    time it is asked, [buildArticulatedLabel] returns the sum of the
    geometry counts of the quads of the stroke pass and of the fill pass,
    and leaves the style with its label texture re-pointed to that of the
    last segment written (and as it was when there is no segment); no other
    property of the style is changed. *)
Theorem buildArticulatedLabel_geom_count :
  forall label style mesh context tile_data strokes fills,
    getTileMesh_returns (context_tile context) ->
    is_Some (tile_data !! tile_id (context_tile context)) ->
    segment_quads Stroke label style = Ok strokes ->
    segment_quads Fill label style = Ok fills ->
    exists tile_data',
      buildArticulatedLabel label style mesh context tile_data
      = Ok (set_label_texture style
              (repointed_texture (bs_label_texture style) (strokes ++ fills)),
            tile_data',
            (sum_list (map (segment_geom_count label
                              (makeVertexTemplate style (mesh_variant mesh)))
                           strokes)
             + sum_list (map (segment_geom_count label
                                (makeVertexTemplate style (mesh_variant mesh)))
                             fills))%nat)
      /\ (forall sq,
            last (strokes ++ fills) = Some sq ->
            repointed_texture (bs_label_texture style) (strokes ++ fills)
            = sq_label_texture sq)
      /\ (strokes ++ fills = [] ->
          repointed_texture (bs_label_texture style) (strokes ++ fills)
          = bs_label_texture style).
Proof.
  intros label style mesh context tile_data strokes fills Hmesh Htile Hs Hf.
  unfold segment_quads in Hs, Hf. unfold buildArticulatedLabel, for_loop.
  cbv zeta.
  assert (Est : set_label_texture style (bs_label_texture style) = style)
    by (by destruct style).
  replace (style, tile_data, 0%nat)
    with (set_label_texture style (bs_label_texture style), tile_data, 0%nat)
    by (by rewrite Est).
  destruct (pass_loop_count Stroke label context
              (makeVertexTemplate style (mesh_variant mesh)) style
              Hmesh (label_num_segments label) 0%nat (bs_label_texture style)
              tile_data 0%nat strokes Htile Hs)
    as (td1 & Hloop1 & Htile1).
  cbn [pass_body] in Hloop1. rewrite Hloop1. cbn [result_bind].
  destruct (pass_loop_count Fill label context
              (makeVertexTemplate style (mesh_variant mesh)) style
              Hmesh (label_num_segments label) 0%nat
              (repointed_texture (bs_label_texture style) strokes) td1
              (0 + sum_list (map (segment_geom_count label
                                    (makeVertexTemplate style (mesh_variant mesh)))
                                 strokes))%nat
              fills Htile1 Hf)
    as (td2 & Hloop2 & _).
  cbn [pass_body] in Hloop2. rewrite Hloop2.
  exists td2. split; [|split].
  - unfold repointed_texture. rewrite foldl_app. reflexivity.
  - intros sq Hlast. unfold repointed_texture.
    destruct (strokes ++ fills) as [|x l] using rev_ind; [discriminate|].
    rewrite last_snoc in Hlast. inversion Hlast; subst.
    by rewrite foldl_app.
  - intros ->. reflexivity.
Qed.

(** *** Mesh variants *)

(** X18. The key of a mesh variant is the label texture of the style when it
    has one, whatever its texture, then its texture, then the default key;
    the order is 1 exactly when the style has a label texture.  So a style
    drawn from a texture and a style whose label texture has the same name
    ask for their meshes under the same key, with the orders 0 and 1. *)
Theorem meshVariantTypeForDraw_key_collision :
  forall name text_style sprite_style,
    name <> "" ->
    bs_label_texture text_style = Some name ->
    str_truthy (bs_label_texture sprite_style) = false ->
    bs_texture sprite_style = Some name ->
    meshVariantTypeForDraw text_style = mkMeshVariant name 1
    /\ meshVariantTypeForDraw sprite_style = mkMeshVariant name 0
    /\ (forall style,
          str_truthy (bs_label_texture style) = false ->
          str_truthy (bs_texture style) = false ->
          meshVariantTypeForDraw style
          = mkMeshVariant default_mesh_variant_key 0).
Proof.
  intros name text_style sprite_style Hne Hl Hs Ht.
  assert (Htruthy : str_truthy (Some name) = true).
  { cbn. apply negb_true_iff. by apply String.eqb_neq. }
  split; [|split].
  - unfold meshVariantTypeForDraw. rewrite Hl, Htruthy. reflexivity.
  - unfold meshVariantTypeForDraw. rewrite Hs, Ht, Htruthy. reflexivity.
  - intros style H1 H2. unfold meshVariantTypeForDraw. by rewrite H1, H2.
Qed.

(** *** [reset], [setupDefines], [makeMesh], [buildTextLabels] *)

(** X19. [reset] forgets every queue and every record of a missing sprite
    and keeps the generation, the tile data, the collision registry and the
    log: after it [endData] throws for every tile that is not canceled, and
    a named sprite that is not found is logged again at its next lookup
    (unless it is named like a property every object inherits: such a sprite
    is never logged). *)
Theorem reset_forgets_queues_and_missing_sprites :
  forall resetText w,
    queues (reset resetText w) = ∅
    /\ texture_missing_sprites (reset resetText w) = ∅
    /\ generation (reset resetText w) = generation w
    /\ tile_data (reset resetText w) = tile_data w
    /\ collision (reset resetText w) = collision w
    /\ logs (reset resetText w) = logs w
    /\ (forall tile,
          tile_canceled tile = false ->
          endData (reset resetText w) tile = Throw TypeError)
    /\ (forall style_texture sprite entry sprites,
          Texture_textures w !! style_texture = Some entry ->
          texture_sprites entry = Some sprites ->
          sprite <> "" ->
          sprite ∉ Object_prototype_names ->
          style_texture ∉ Object_prototype_names ->
          sprite_found w style_texture (Some sprite) = false ->
          exists w1 logged,
            getSpriteInfo (reset resetText w) style_texture (Some sprite)
            = Ok (w1, None)
            /\ logs w1 = logs w ++ [logged]
            /\ log_level logged = "debug").
Proof.
  intros resetText w. repeat split.
  - intros tile Hc. unfold endData. rewrite Hc. reflexivity.
  - intros style_texture sprite entry sprites He Hs Hne Hsprite _ Hfound.
    destruct (getSpriteInfo_missing (reset resetText w) style_texture sprite
                entry sprites He Hs Hne Hfound)
      as (w1 & E1 & _ & _ & Hnew).
    change (texture_missing_sprites (reset resetText w)) with
      (∅ : gmap string (gset string)) in Hnew.
    rewrite lookup_empty in Hnew. cbn [default] in Hnew.
    destruct (Hnew (not_elem_of_empty _) Hsprite)
      as [(logged & Hl & Hlevel & _) _].
    exists w1, logged. split; [exact E1|]. split; [exact Hl|exact Hlevel].
Qed.

(** X20. [setupDefines] always turns the fade on zoom out on, at rate 2.
    The fade-in rate is the inverse of the fade-in time, and is [null] with
    a time of 0 when the fade-in is suppressed, so that nothing is divided
    by zero.  The layer order define is set for every blend but overlay, for
    which it is left as it was found, and so is the snap rate when the snap
    animation is suppressed; no other define is touched. *)
Theorem setupDefines_fade_and_layer_order :
  forall suppress_fade suppress_snap VIEW_PAN_SNAP_TIME blend defines,
    let result :=
      setupDefines suppress_fade suppress_snap VIEW_PAN_SNAP_TIME blend defines in
    fst result !! "TANGRAM_FADE_ON_ZOOM_OUT" = Some (JBool true)
    /\ fst result !! "TANGRAM_FADE_ON_ZOOM_OUT_RATE" = Some (JNum 2)
    /\ (if match suppress_fade with JBool true => true | _ => false end
        then snd result = 0
             /\ fst result !! "TANGRAM_FADE_IN_RATE" = Some JNull
        else exists rate,
               fst result !! "TANGRAM_FADE_IN_RATE" = Some (JNum rate)
               /\ rate * snd result == 1)
    /\ fst result !! "TANGRAM_LAYER_ORDER"
       = (if String.eqb blend "overlay" then defines !! "TANGRAM_LAYER_ORDER"
          else Some (JBool true))
    /\ (suppress_snap = JBool true ->
        fst result !! "TANGRAM_VIEW_PAN_SNAP_RATE"
        = defines !! "TANGRAM_VIEW_PAN_SNAP_RATE")
    /\ (forall k,
          k ∉ ["TANGRAM_LAYER_ORDER"; "TANGRAM_FADE_ON_ZOOM_OUT";
               "TANGRAM_FADE_ON_ZOOM_OUT_RATE"; "TANGRAM_FADE_IN_RATE";
               "TANGRAM_VIEW_PAN_SNAP_RATE"] ->
          fst result !! k = defines !! k).
Proof.
  intros suppress_fade suppress_snap V blend defines result.
  subst result. unfold setupDefines.
  assert (Hfade :
    forall d : gmap string jsval,
      match suppress_fade with
      | JBool true => (0, <["TANGRAM_FADE_IN_RATE" := JNull]> d)
      | _ => (0.15, <["TANGRAM_FADE_IN_RATE" := JNum (1 / 0.15)]> d)
      end
      = (if match suppress_fade with JBool true => true | _ => false end
         then 0 else 0.15,
         <["TANGRAM_FADE_IN_RATE" :=
             if match suppress_fade with JBool true => true | _ => false end
             then JNull else JNum (1 / 0.15)]> d)).
  { intros d. destruct suppress_fade as [| |[|]| | | |]; reflexivity. }
  rewrite Hfade. clear Hfade.
  assert (Hsnap :
    forall d : gmap string jsval,
      match suppress_snap with
      | JBool true => d
      | _ => <["TANGRAM_VIEW_PAN_SNAP_RATE" := JNum (1 / V)]> d
      end
      = (if match suppress_snap with JBool true => true | _ => false end
         then d else <["TANGRAM_VIEW_PAN_SNAP_RATE" := JNum (1 / V)]> d)).
  { intros d. destruct suppress_snap as [| |[|]| | | |]; reflexivity. }
  rewrite Hsnap. clear Hsnap. cbn [fst snd].
  set (sf := match suppress_fade with JBool true => true | _ => false end).
  set (ss := match suppress_snap with JBool true => true | _ => false end).
  split; [|split; [|split; [|split; [|split]]]].
  - destruct ss, (negb (String.eqb blend "overlay"));
      by repeat (rewrite lookup_insert_ne by done); rewrite lookup_insert_eq.
  - destruct ss, (negb (String.eqb blend "overlay"));
      by repeat (rewrite lookup_insert_ne by done); rewrite lookup_insert_eq.
  - destruct sf.
    + split; [reflexivity|].
      destruct ss;
        by repeat (rewrite lookup_insert_ne by done); rewrite lookup_insert_eq.
    + exists (1 / 0.15). split; [|reflexivity].
      destruct ss;
        by repeat (rewrite lookup_insert_ne by done); rewrite lookup_insert_eq.
  - destruct ss, (String.eqb blend "overlay"); cbn [negb];
      repeat (rewrite lookup_insert_ne by done);
      by rewrite ?lookup_insert_eq.
  - intros ->. subst ss. cbn.
    destruct (negb (String.eqb blend "overlay"));
      by repeat (rewrite lookup_insert_ne by done).
  - intros k Hk.
    assert (Hne : k <> "TANGRAM_LAYER_ORDER" /\ k <> "TANGRAM_FADE_ON_ZOOM_OUT"
                  /\ k <> "TANGRAM_FADE_ON_ZOOM_OUT_RATE"
                  /\ k <> "TANGRAM_FADE_IN_RATE"
                  /\ k <> "TANGRAM_VIEW_PAN_SNAP_RATE").
    { repeat split; intros ->; apply Hk;
        repeat first [apply list_elem_of_here | apply list_elem_of_further]. }
    destruct Hne as (H1 & H2 & H3 & H4 & H5).
    destruct ss, (negb (String.eqb blend "overlay"));
      by repeat (rewrite lookup_insert_ne by done).
Qed.

Lemma js_field_set_eq fields k v : js_field (js_set_field fields k v) k = v.
Proof.
  induction fields as [|[k' v'] rest IH]; cbn.
  - by rewrite String.eqb_refl.
  - destruct (String.eqb k k') eqn:E; cbn.
    + by rewrite String.eqb_refl.
    + by rewrite E.
Qed.

Lemma js_field_set_ne fields k v k' :
  k' <> k -> js_field (js_set_field fields k v) k' = js_field fields k'.
Proof.
  intros Hne. induction fields as [|[k0 v0] rest IH]; cbn.
  - by apply String.eqb_neq in Hne as ->.
  - destruct (String.eqb k k0) eqn:E; cbn.
    + apply String.eqb_eq in E as <-.
      by apply String.eqb_neq in Hne as ->.
    + by rewrite IH.
Qed.

(** Copying an object with distinct keys keeps what every key reads. *)
Lemma js_field_assign source :
  NoDup (map fst source) ->
  forall target k,
    js_field (js_assign target source) k
    = if bool_decide (k ∈ map fst source) then js_field source k
      else js_field target k.
Proof.
  unfold js_assign.
  induction source as [|[k0 v0] source IH]; intros Hnd target k; cbn.
  - reflexivity.
  - apply NoDup_cons in Hnd as [Hk0 Hnd]. rewrite (IH Hnd).
    destruct (String.eqb_spec k k0) as [->|Hne].
    + rewrite bool_decide_eq_false_2 by done.
      rewrite bool_decide_eq_true_2 by apply list_elem_of_here.
      apply js_field_set_eq.
    + destruct (bool_decide (k ∈ map fst source)) eqn:Hin.
      * apply bool_decide_eq_true in Hin.
        by rewrite bool_decide_eq_true_2 by (by apply list_elem_of_further).
      * apply bool_decide_eq_false in Hin.
        rewrite bool_decide_eq_false_2.
        -- by apply js_field_set_ne.
        -- intros Hin'. apply elem_of_cons in Hin' as [?|?]; done.
Qed.

(** X21. The options [makeMesh] passes to [Style.makeMesh] read the fade-in
    time of the style under [fade_in_time], whatever the caller gave under
    that name, and read every other name as the options of the caller do
    (as [undefined] when no options were given). *)
Theorem makeMesh_adds_fade_in_time :
  forall (M : Type) (Style_makeMesh : VertexData -> jsval -> jsval -> M)
         fade_in_time vertex_data vertex_elements options,
    NoDup (map fst (default [] options)) ->
    exists fields,
      makeMesh Style_makeMesh fade_in_time vertex_data vertex_elements options
      = Style_makeMesh vertex_data vertex_elements (JObj fields)
      /\ js_field fields "fade_in_time" = JNum fade_in_time
      /\ forall k,
           k <> "fade_in_time" ->
           js_field fields k = js_field (default [] options) k.
Proof.
  intros M Style_makeMesh fade vd ve options Hnd. unfold makeMesh.
  eexists. split; [reflexivity|]. split.
  - unfold js_assign at 1. cbn [foldl fst snd]. apply js_field_set_eq.
  - intros k Hk. unfold js_assign at 1. cbn [foldl fst snd].
    rewrite js_field_set_ne by done. rewrite (js_field_assign _ Hnd).
    destruct (bool_decide (k ∈ map fst (default [] options))) eqn:Hin;
      [reflexivity|].
    apply bool_decide_eq_false in Hin. cbn.
    induction (default [] options) as [|[k0 v0] rest IH]; cbn; [done|].
    destruct (String.eqb_spec k k0) as [->|Hne].
    + exfalso. apply Hin. cbn. apply list_elem_of_here.
    + apply IH.
      * by apply NoDup_cons in Hnd as [_ ?].
      * intros Hin'. apply Hin. cbn. by apply list_elem_of_further.
Qed.

Lemma forEach_text_labels Label_position
    (LabelPoint_text : jsval -> Q * Q -> TextLayout -> Label) texts tile :
  forall feature_queue (acc : list (TextObj * Label)),
    (Forall (fun fq => is_Some (text_info_of texts tile fq)) feature_queue ->
     forEach
       (fun fq labels =>
          match text_info_of texts tile fq with
          | Some text_info =>
              Ok (labels
                  ++ [(fq,
                       LabelPoint_text (Label_position (to_point_label fq))
                         (text_collision_size text_info) (to_layout fq))])
          | None => Throw TypeError
          end) feature_queue acc
     = Ok (acc
           ++ map (fun fq =>
                     (fq,
                      LabelPoint_text (Label_position (to_point_label fq))
                        (match text_info_of texts tile fq with
                         | Some info => text_collision_size info
                         | None => (0, 0)
                         end)
                        (to_layout fq))) feature_queue))
    /\ (Exists (fun fq => text_info_of texts tile fq = None) feature_queue ->
        forEach
          (fun fq labels =>
             match text_info_of texts tile fq with
             | Some text_info =>
                 Ok (labels
                     ++ [(fq,
                          LabelPoint_text (Label_position (to_point_label fq))
                            (text_collision_size text_info) (to_layout fq))])
             | None => Throw TypeError
             end) feature_queue acc
        = Throw TypeError).
Proof.
  induction feature_queue as [|fq queue IH]; intros acc; cbn [forEach map].
  - split; [intros _; by rewrite app_nil_r|]. intros Hex. inversion Hex.
  - split.
    + intros Hall. apply Forall_cons in Hall as [[info Hinfo] Hall].
      rewrite Hinfo. cbn [result_bind].
      rewrite (proj1 (IH _) Hall). by rewrite <- app_assoc.
    + intros Hex.
      destruct (text_info_of texts tile fq) as [info|] eqn:Hinfo;
        cbn [result_bind]; [|reflexivity].
      apply Exists_cons in Hex as [Hex|Hex]; [congruence|].
      exact (proj2 (IH _) Hex).
Qed.

(** X22. [buildTextLabels] returns one label per queued text, in the order
    of the queue, at the position of the point label and of the collision
    size of the text, when the text info of every queued text is there; it
    throws a [TypeError] when the info of one of them is missing. *)
Theorem buildTextLabels_follows_queue :
  forall Label_position LabelPoint_text texts tile feature_queue,
    (Forall (fun fq => is_Some (text_info_of texts tile fq)) feature_queue ->
     buildTextLabels Label_position LabelPoint_text texts tile feature_queue
     = Ok (map (fun fq =>
                  (fq,
                   LabelPoint_text (Label_position (to_point_label fq))
                     (match text_info_of texts tile fq with
                      | Some info => text_collision_size info
                      | None => (0, 0)
                      end)
                     (to_layout fq)))
               feature_queue))
    /\ (Exists (fun fq => text_info_of texts tile fq = None) feature_queue ->
        buildTextLabels Label_position LabelPoint_text texts tile feature_queue
        = Throw TypeError).
Proof.
  intros Label_position LabelPoint_text texts tile feature_queue.
  unfold buildTextLabels, for_loop.
  rewrite (for_loop_from_lookup
             (fun fq labels =>
                match text_info_of texts tile fq with
                | Some text_info =>
                    Ok (labels
                        ++ [(fq,
                             LabelPoint_text
                               (Label_position (to_point_label fq))
                               (text_collision_size text_info) (to_layout fq))])
                | None => Throw TypeError
                end) [] feature_queue).
  exact (forEach_text_labels Label_position LabelPoint_text texts tile
           feature_queue []).
Qed.

End PointsMore.

(** ** Properties of materials *)

Section MaterialFacts.

Variable expandVec4 : jsval -> jsval.
Variable parseColor : string -> jsval.
Variable shaderSrc_material : string.

Lemma js_prop_js_or config prop :
  js_prop (js_or config (JObj [])) prop = js_prop config prop.
Proof.
  unfold js_or. destruct (js_truthy config) eqn:E; [reflexivity|].
  destruct config; cbn in *; try reflexivity; discriminate.
Qed.

(** The material built from a config, property by property. *)
Lemma Material_constructor_eq config :
  Material.constructor expandVec4 parseColor config
  = Material.mk
      (match js_prop config "ambient" with
       | (JNum _ | JArr _) as value => JObj [("amount", expandVec4 value)]
       | JStr s => JObj [("amount", parseColor s)]
       | JUndefined | JNull => JUndefined
       | value => value
       end)
      (match js_prop config "diffuse" with
       | (JNum _ | JArr _) as value => JObj [("amount", expandVec4 value)]
       | JStr s => JObj [("amount", parseColor s)]
       | JUndefined | JNull => JUndefined
       | value => value
       end).
Proof.
  unfold Material.constructor, Material.material_props. cbn [foldl].
  rewrite !js_prop_js_or.
  destruct (js_prop config "ambient"), (js_prop config "diffuse"); reflexivity.
Qed.

(** X23. [Material.isValid] accepts exactly the configs from which the
    constructor builds a material with an ambient or a diffuse property;
    [null], [undefined] and configs without either give an empty
    material. *)
Theorem Material_isValid_iff_constructed :
  forall config,
    Material.isValid config
    = (negb (nullish (Material.ambient
                        (Material.constructor expandVec4 parseColor config)))
       || negb (nullish (Material.diffuse
                           (Material.constructor expandVec4 parseColor config))))%bool.
Proof.
  intros config. rewrite Material_constructor_eq. unfold Material.isValid.
  cbn [Material.ambient Material.diffuse].
  destruct config; cbn [nullish js_prop]; try reflexivity.
  destruct (js_field fields "ambient"), (js_field fields "diffuse"); reflexivity.
Qed.

(** X24. Injecting the material built from a config sets the two defines
    [TANGRAM_MATERIAL_AMBIENT] and [TANGRAM_MATERIAL_DIFFUSE], each to
    whether the config gives the property; it touches no other define, and
    replaces the material block and adds to the setup block, in this order.
    One of the two defines is true exactly when the config is valid. *)
Theorem Material_inject_defines :
  forall config style,
    let injected :=
      Material.inject shaderSrc_material
        (Material.constructor expandVec4 parseColor config) style in
    Material.defines injected !! "TANGRAM_MATERIAL_AMBIENT"
    = Some (JBool (negb (nullish (js_prop config "ambient"))))
    /\ Material.defines injected !! "TANGRAM_MATERIAL_DIFFUSE"
       = Some (JBool (negb (nullish (js_prop config "diffuse"))))
    /\ (forall k,
          k <> "TANGRAM_MATERIAL_AMBIENT" -> k <> "TANGRAM_MATERIAL_DIFFUSE" ->
          Material.defines injected !! k = Material.defines style !! k)
    /\ Material.shader_calls injected
       = Material.shader_calls style
         ++ [ReplaceShaderBlock "material" shaderSrc_material "Material";
             AddShaderBlock "setup" "
material = u_material;
" "Material"]
    /\ (Material.isValid config = true
        <-> Material.defines injected !! "TANGRAM_MATERIAL_AMBIENT"
            = Some (JBool true)
            \/ Material.defines injected !! "TANGRAM_MATERIAL_DIFFUSE"
               = Some (JBool true)).
Proof.
  intros config style injected. subst injected.
  rewrite Material_constructor_eq.
  unfold Material.inject, Material.material_props.
  cbn [foldl Material.defines Material.shader_calls Material.get String.eqb
       Ascii.eqb Bool.eqb Material.ambient Material.diffuse].
  change ("TANGRAM_MATERIAL_" +:+ toUpperCase "ambient")
    with "TANGRAM_MATERIAL_AMBIENT".
  change ("TANGRAM_MATERIAL_" +:+ toUpperCase "diffuse")
    with "TANGRAM_MATERIAL_DIFFUSE".
  assert (Hsolve :
    forall (a d : bool),
      <["TANGRAM_MATERIAL_DIFFUSE" := JBool d]>
        (<["TANGRAM_MATERIAL_AMBIENT" := JBool a]> (Material.defines style))
      !! "TANGRAM_MATERIAL_AMBIENT" = Some (JBool a)
      /\ <["TANGRAM_MATERIAL_DIFFUSE" := JBool d]>
           (<["TANGRAM_MATERIAL_AMBIENT" := JBool a]> (Material.defines style))
         !! "TANGRAM_MATERIAL_DIFFUSE" = Some (JBool d)
      /\ (forall k,
            k <> "TANGRAM_MATERIAL_AMBIENT" -> k <> "TANGRAM_MATERIAL_DIFFUSE" ->
            <["TANGRAM_MATERIAL_DIFFUSE" := JBool d]>
              (<["TANGRAM_MATERIAL_AMBIENT" := JBool a]> (Material.defines style))
            !! k = Material.defines style !! k)).
  { intros a d.
    split; [rewrite lookup_insert_ne by done; by rewrite lookup_insert_eq|].
    split; [by rewrite lookup_insert_eq|].
    intros k H1 H2. by rewrite !lookup_insert_ne. }
  assert (Hiff :
    forall (a d : bool),
      (a || d)%bool = true
      <-> <["TANGRAM_MATERIAL_DIFFUSE" := JBool d]>
            (<["TANGRAM_MATERIAL_AMBIENT" := JBool a]> (Material.defines style))
          !! "TANGRAM_MATERIAL_AMBIENT" = Some (JBool true)
          \/ <["TANGRAM_MATERIAL_DIFFUSE" := JBool d]>
               (<["TANGRAM_MATERIAL_AMBIENT" := JBool a]> (Material.defines style))
             !! "TANGRAM_MATERIAL_DIFFUSE" = Some (JBool true)).
  { intros a d. rewrite lookup_insert_ne by done. rewrite !lookup_insert_eq.
    destruct a, d; cbn; split; intros Hx;
      try reflexivity; try (by left); try (by right); try discriminate;
      destruct Hx as [E|E]; discriminate. }
  unfold Material.isValid.
  destruct config as [| |b|q|str|l|fields]; cbn [js_prop];
    try (cbn [nullish negb];
         destruct (Hsolve false false) as (H1 & H2 & H3);
         split; [exact H1|]; split; [exact H2|]; split; [exact H3|];
         split; [reflexivity|];
         rewrite <- (Hiff false false); cbn; split; discriminate).
  destruct (js_field fields "ambient") as [| |ba|qa|sa|la|fa];
    destruct (js_field fields "diffuse") as [| |bd|qd|sd|ld|fd];
    cbn [nullish negb];
    match goal with
    | |- <[_ := JBool ?d]> (<[_ := JBool ?a]> _) !! _ = _ /\ _ =>
        destruct (Hsolve a d) as (H1 & H2 & H3);
        split; [exact H1|]; split; [exact H2|]; split; [exact H3|];
        split; [reflexivity|];
        rewrite <- (Hiff a d); cbn; split; intros Hx;
        (reflexivity || discriminate)
    end.
Qed.

(** X25. A material built from a config uploads, ambient first, one [4fv]
    uniform [u_material.<property>] for each property the config gives as a
    number or an array (expanded), a color string (parsed) or an object (its
    [amount]); a property that is absent or [false] uploads nothing, so that
    no uniform is uploaded for a property whose define is false. *)
Theorem Material_setupProgram_uploads :
  forall config program,
    Material.setupProgram (Material.constructor expandVec4 parseColor config)
      program
    = program
      ++ material_upload expandVec4 parseColor config "ambient"
      ++ material_upload expandVec4 parseColor config "diffuse"
    /\ (forall prop,
          nullish (js_prop config prop) = true ->
          material_upload expandVec4 parseColor config prop = []).
Proof.
  intros config program. split.
  - rewrite Material_constructor_eq.
    unfold Material.setupProgram, Material.material_props, material_upload.
    cbn [foldl Material.get String.eqb Ascii.eqb Bool.eqb Material.ambient
         Material.diffuse].
    destruct (js_prop config "ambient") as [| |[|]| | | |];
      destruct (js_prop config "diffuse") as [| |[|]| | | |];
      cbn [js_truthy js_prop js_field String.eqb Ascii.eqb Bool.eqb app];
      rewrite ?app_nil_r, <- ?app_assoc; reflexivity.
  - intros prop Hn. unfold material_upload.
    destruct (js_prop config prop) as [| |[|]| | | |]; cbn in Hn;
      try discriminate; reflexivity.
Qed.

End MaterialFacts.

(** ** Properties of lights *)

Section LightFacts.

Variable expandVec3 : jsval -> jsval.
Variable parseColor : jsval -> list jsval.
Variable Math_sin : Q -> Q.
Variable Math_cos : Q -> Q.
Variable parseFloat : jsval -> jsval.
Variable Vector_normalize : jsval -> jsval.
Variable Vector_copy : jsval -> jsval.
Variable shaderSrc_directionalLight : string.

(** X26. [Light.setMode] writes both lighting defines, as booleans that are
    never both true: with lighting disabled both are false; with lighting
    enabled, fragment lighting is on for the mode [true], for no mode and
    for 'fragment', vertex lighting for 'vertex', and neither for any other
    mode.  No other define is touched. *)
Theorem Light_setMode_exclusive :
  forall enabled mode defines,
    exists fragment vertex : bool,
      Light.setMode enabled mode defines !! "TANGRAM_LIGHTING_FRAGMENT"
      = Some (JBool fragment)
      /\ Light.setMode enabled mode defines !! "TANGRAM_LIGHTING_VERTEX"
         = Some (JBool vertex)
      /\ (fragment && vertex)%bool = false
      /\ (enabled = false -> fragment = false /\ vertex = false)
      /\ (enabled = true ->
          (fragment = true
           <-> mode = JBool true \/ nullish mode = true
               \/ mode = JStr "fragment")
          /\ (vertex = true <-> mode = JStr "vertex"))
      /\ forall k,
           k <> "TANGRAM_LIGHTING_FRAGMENT" -> k <> "TANGRAM_LIGHTING_VERTEX" ->
           Light.setMode enabled mode defines !! k = defines !! k.
Proof.
  intros enabled mode defines. unfold Light.setMode, Light.Defines in *.
  cbv zeta. eexists _, _.
  split; [rewrite lookup_insert_ne by done; by rewrite lookup_insert_eq|].
  split; [by rewrite lookup_insert_eq|].
  split; [|split; [|split]].
  - destruct enabled; [|reflexivity].
    destruct mode as [| |[|]|q|m|l|fields]; cbn; try reflexivity.
    destruct (String.eqb_spec m "fragment") as [->|?]; reflexivity.
  - intros ->. split; reflexivity.
  - intros ->. split.
    + destruct mode as [| |[|]|q|m|l|fields]; cbn;
        try (split; [discriminate|intros [E|[E|E]]; discriminate]);
        try (split; [auto|reflexivity]).
      destruct (String.eqb_spec m "fragment") as [->|Hne]; split; auto;
        try discriminate.
      intros [E|[E|E]]; try discriminate. inversion E. contradiction.
    + destruct mode as [| |[|]|q|m|l|fields]; cbn;
        try (split; discriminate).
      destruct (String.eqb_spec m "vertex") as [->|Hne]; split; auto;
        try discriminate.
      intros E. inversion E. contradiction.
  - intros k H1 H2. by rewrite !lookup_insert_ne by done.
Qed.

Lemma light_types_directional (lights : list (string * Light.t)) :
  Forall (fun light => Light.type (snd light) = Some "directional") lights ->
  forall acc,
    foldl (fun types light =>
             if bool_decide (js_key (Light.type (snd light)) ∈ types) then types
             else types ++ [js_key (Light.type (snd light))])
          acc lights
    = if bool_decide ("directional" ∈ acc) then acc
      else match lights with
           | [] => acc
           | _ :: _ => acc ++ ["directional"]
           end.
Proof.
  induction 1 as [|light lights Ht Hall IH]; intros acc; cbn [foldl].
  - by destruct (bool_decide _).
  - rewrite Ht. cbn [js_key default from_option id].
    destruct (bool_decide ("directional" ∈ acc)) eqn:Hin; rewrite IH.
    + by rewrite Hin.
    + rewrite bool_decide_eq_true_2; [reflexivity|].
      apply elem_of_app. right. apply list_elem_of_here.
Qed.

Lemma light_types_elem (lights : list (string * Light.t)) :
  forall acc light,
    light ∈ lights ->
    js_key (Light.type (snd light))
    ∈ foldl (fun types light =>
               if bool_decide (js_key (Light.type (snd light)) ∈ types)
               then types
               else types ++ [js_key (Light.type (snd light))])
            acc lights.
Proof.
  assert (Hmono : forall (ls : list (string * Light.t)) acc t,
            t ∈ acc ->
            t ∈ foldl (fun types light =>
                         if bool_decide (js_key (Light.type (snd light)) ∈ types)
                         then types
                         else types ++ [js_key (Light.type (snd light))])
                      acc ls).
  { induction ls as [|l ls IH]; intros acc t Ht; cbn [foldl]; [done|].
    apply IH. destruct (bool_decide _); [done|].
    apply elem_of_app. by left. }
  induction lights as [|l lights IH]; intros acc light Hin.
  - by apply elem_of_nil in Hin.
  - cbn [foldl]. apply elem_of_cons in Hin as [->|Hin].
    + apply Hmono.
      destruct (bool_decide _) eqn:E.
      * by apply bool_decide_eq_true in E.
      * apply elem_of_app. right. apply list_elem_of_here.
    + by apply IH.
Qed.


Lemma forEach_type_inject_throws (types : list string) :
  forall calls,
    "undefined" ∈ types ->
    forEach (fun type calls =>
               try injected <-
                 Light.type_inject expandVec3 parseColor Math_sin Math_cos
                   parseFloat Vector_normalize Vector_copy
                   shaderSrc_directionalLight type;
               Ok (calls ++ injected)) types calls
    = Throw TypeError.
Proof.
  induction types as [|type types IH]; intros calls Hin.
  - by apply elem_of_nil in Hin.
  - cbn [forEach]. apply elem_of_cons in Hin as [<-|Hin]; [reflexivity|].
    destruct (Light.type_inject _ _ _ _ _ _ _ _ type) as [injected|[]];
      cbn [result_bind]; [by apply IH|reflexivity].
Qed.

Lemma forEach_inject_instances (lights : list (string * Light.t)) :
  forall calls lines,
    forEach (fun (light : string * Light.t)
                 (acc : list ShaderCall * string) =>
               let '(light_name, this) := light in
               let '(calls, calculateLights) := acc in
               Ok (calls ++ Light.inject_instance this,
                   calculateLights +:+ "calculateLight(" +:+ light_name
                   +:+ ", _eyeToPoint, _normal);
"))
            lights (calls, lines)
    = Ok (calls
          ++ concat (map (fun light => Light.inject_instance (snd light)) lights),
          foldl (fun lines light =>
                   lines +:+ "calculateLight(" +:+ fst light
                   +:+ ", _eyeToPoint, _normal);
")
                lines lights).
Proof.
  induction lights as [|[light_name this] lights IH]; intros calls lines.
  - cbn. by rewrite app_nil_r.
  - cbn [forEach result_bind map concat foldl fst snd]. rewrite IH.
    by rewrite <- app_assoc.
Qed.

(** X27. [Light.inject] always starts by removing the lighting block.  With
    lighting disabled that is all it does.  With lighting enabled and no
    lights it adds the lighting function with no light in it.  For
    directional lights it injects the directional source once, however many
    lights there are, then the instance blocks of each light in order, then
    the lighting function with one [calculateLight] line per light in order.
    A light without a type among directional lights makes it throw. *)
Theorem Light_inject_calls :
  forall enabled lights,
    let inject :=
      Light.inject expandVec3 parseColor Math_sin Math_cos parseFloat
        Vector_normalize Vector_copy shaderSrc_directionalLight enabled in
    (enabled = false -> inject lights = Ok [RemoveBlock "lighting"])
    /\ (enabled = true ->
        (lights = None \/ lights = Some []) ->
        inject lights
        = Ok [RemoveBlock "lighting";
              AddBlock "lighting" (Light.calculateFunction "")])
    /\ (enabled = true ->
        forall light ls,
          lights = Some (light :: ls) ->
          Forall (fun light => Light.type (snd light) = Some "directional")
                 (light :: ls) ->
          inject lights
          = Ok ([RemoveBlock "lighting";
                 AddBlock "lighting" shaderSrc_directionalLight]
                ++ concat (map (fun light => Light.inject_instance (snd light))
                               (light :: ls))
                ++ [AddBlock "lighting"
                      (Light.calculateFunction
                         (foldl (fun lines light =>
                                   lines +:+ "calculateLight(" +:+ fst light
                                   +:+ ", _eyeToPoint, _normal);
")
                                EmptyString (light :: ls)))])
          /\ inject lights = Ok (light_calls shaderSrc_directionalLight (light :: ls)))
    /\ (enabled = true ->
        forall ls,
          lights = Some ls ->
          Forall (fun light => Light.type (snd light) = Some "directional"
                               \/ Light.type (snd light) = None) ls ->
          Exists (fun light => Light.type (snd light) = None) ls ->
          inject lights = Throw TypeError).
Proof.
  intros enabled lights inject. subst inject.
  split; [|split; [|split]].
  - intros ->. reflexivity.
  - intros -> [->| ->]; reflexivity.
  - intros -> light ls -> Hall.
    assert (Ht : Light.light_types (light :: ls) = ["directional"]).
    { unfold Light.light_types.
      rewrite (light_types_directional (light :: ls) Hall []). reflexivity. }
    assert (Hty : forall calls,
              forEach (fun type calls =>
                         try injected <-
                           Light.type_inject expandVec3 parseColor Math_sin
                             Math_cos parseFloat Vector_normalize Vector_copy
                             shaderSrc_directionalLight type;
                         Ok (calls ++ injected)) ["directional"] calls
              = Ok (calls ++ [AddBlock "lighting" shaderSrc_directionalLight]))
      by reflexivity.
    unfold light_calls, Light.inject. rewrite Ht. cbn [negb].
    rewrite Hty. cbn [result_bind].
    rewrite forEach_inject_instances. cbn [result_bind map app Light.block].
    rewrite <- ?app_assoc. split; reflexivity.
  - intros -> ls -> Hall Hex.
    destruct ls as [|light ls]; [by apply Exists_nil in Hex|].
    unfold Light.inject. cbn [negb].
    rewrite forEach_type_inject_throws; [reflexivity|].
    apply Exists_exists in Hex as (l & Hl & Hnone).
    unfold Light.light_types.
    pose proof (light_types_elem (light :: ls) [] l Hl) as Hin.
    rewrite Hnone in Hin. exact Hin.
Qed.

(** X28. [Light.create] makes nothing for a type that is not registered,
    and for 'directional' a light of that type and struct whose direction
    is the normalized copy of the parsed components of the configured
    array; a configured direction that is truthy but not an array makes it
    throw. *)
Theorem Light_create_by_type :
  forall view config,
    let create :=
      Light.create expandVec3 parseColor Math_sin Math_cos parseFloat
        Vector_normalize Vector_copy view config in
    (Light.config_type config <> "directional" ->
     Light.config_type config ∉ Light.Object_prototype_names ->
     create = Ok None)
    /\ (Light.config_type config = "directional" ->
        forall components,
          Light.config_direction config = JArr components ->
          exists light,
            create = Ok (Some light)
            /\ Light.type light = Some "directional"
            /\ Light.struct_name light = Some "DirectionalLight"
            /\ Light.name light = Light.config_name config
            /\ Light.view light = view
            /\ Light.direction light
               = Vector_normalize (Vector_copy (JArr (map parseFloat components))))
    /\ (Light.config_type config = "directional" ->
        js_truthy (Light.config_direction config) = true ->
        (forall components, Light.config_direction config <> JArr components) ->
        create = Throw TypeError).
Proof.
  intros view config create. subst create. unfold Light.create.
  split; [|split].
  - intros Hne _. unfold Light.types_lookup, Light.types. cbn [find fst].
    destruct (String.eqb_spec "directional" (Light.config_type config))
      as [E|_]; [by symmetry in E|reflexivity].
  - intros -> components Hdir.
    change (Light.types_lookup _ _ _ _ _ _ _ "directional")
      with (Some (Light.DirectionalLight expandVec3 parseColor Math_sin
                    Math_cos parseFloat Vector_normalize Vector_copy)).
    unfold Light.DirectionalLight. rewrite Hdir.
    cbn [js_truthy Light._direction result_bind].
    eexists. split; [reflexivity|]. repeat split.
  - intros -> Htruthy Harr.
    change (Light.types_lookup _ _ _ _ _ _ _ "directional")
      with (Some (Light.DirectionalLight expandVec3 parseColor Math_sin
                    Math_cos parseFloat Vector_normalize Vector_copy)).
    unfold Light.DirectionalLight. rewrite Htruthy.
    cbn [Light._direction].
    destruct (Light.config_direction config) as [| |b|q|str|l|fields];
      try reflexivity.
    by destruct (Harr l).
Qed.

(** X29. Default colors of a directional light.  Diffuse defaults to 1 only
    when it is absent: a configured 0 is kept.  Ambient defaults to 0.5 when
    neither a direction nor an ambient color is configured, and to 0 when a
    direction is configured without an ambient color.  A color given as
    anything but a number keeps at most the first three parsed
    components. *)
Theorem DirectionalLight_default_colors :
  forall view config light,
    Light.DirectionalLight expandVec3 parseColor Math_sin Math_cos parseFloat
      Vector_normalize Vector_copy view config = Ok light ->
    (forall q, Light.config_diffuse config = JNum q ->
               Light.diffuse light = expandVec3 (JNum q))
    /\ (nullish (Light.config_diffuse config) = true ->
        Light.diffuse light = expandVec3 (JNum 1))
    /\ (nullish (Light.config_ambient config) = true ->
        Light.ambient light
        = expandVec3 (JNum (if js_truthy (Light.config_direction config)
                            then 0 else 0.5)))
    /\ (forall q, Light.config_ambient config = JNum q ->
        exists q', Light.ambient light = expandVec3 (JNum q') /\ q' == q)
    /\ (forall color,
          nullish color = false ->
          (forall q, color <> JNum q) ->
          (Light.config_ambient config = color ->
           Light.ambient light = JArr (take 3 (parseColor color)))
          /\ (Light.config_diffuse config = color ->
              Light.diffuse light = JArr (take 3 (parseColor color)))).
Proof.
  intros view config light E.
  assert (Hcolors :
            Light.diffuse light
            = Light.diffuse (Light.constructor expandVec3 parseColor view config)
            /\ Light.ambient light
               = if (negb (js_truthy (Light.config_direction config))
                     && nullish (Light.config_ambient config))%bool
                 then expandVec3 (JNum 0.5)
                 else Light.ambient
                        (Light.constructor expandVec3 parseColor view config)).
  { unfold Light.DirectionalLight in E.
    destruct (js_truthy (Light.config_direction config)) eqn:Ht;
      cbn [Light._direction Light.ambient Light.diffuse negb andb] in E |- *.
    - destruct (Light.config_direction config); try discriminate.
      inversion E; subst light. split; reflexivity.
    - inversion E; subst light. cbn [Light.set_direction Light.ambient
                                      Light.diffuse]. split; reflexivity. }
  destruct Hcolors as [Hd Ha]. rewrite Hd, Ha. clear Hd Ha E.
  unfold Light.constructor. cbn [Light.ambient Light.diffuse].
  split; [|split; [|split; [|split]]].
  - intros q ->. reflexivity.
  - intros Hn. rewrite Hn. reflexivity.
  - intros Hn. rewrite Hn. cbn [orb andb].
    destruct (js_truthy (Light.config_direction config)); cbn [negb];
      [|reflexivity].
    destruct (Light.config_ambient config); try discriminate; reflexivity.
  - intros q ->. cbn [nullish orb andb]. rewrite andb_false_r.
    unfold js_or. cbn [js_truthy]. unfold num_truthy.
    destruct (Qeq_bool q 0) eqn:Eq; cbn [negb].
    + exists 0. split; [reflexivity|]. symmetry. by apply Qeq_bool_iff.
    + exists q. split; reflexivity.
  - intros color Hn Hq. split; intros ->; rewrite Hn; cbn [orb andb].
    + rewrite andb_false_r.
      destruct color; try reflexivity; try discriminate.
      by destruct (Hq q).
    + destruct color; try reflexivity; try discriminate.
      by destruct (Hq q).
Qed.

End LightFacts.

(** ** The further properties on the sample data *)

Lemma addFeature_touches_one_queue_witness :
  exists w',
    @addFeature sample_collaborators sample_world sample_point
      (sample_draw (SizePair 10 10) None) sample_context = Ok w'
    /\ generation w' = generation sample_world.
Proof.
  eexists. split; [reflexivity|].
  exact (proj1 (@addFeature_touches_one_queue sample_collaborators sample_world
                  sample_point (sample_draw (SizePair 10 10) None)
                  sample_context _ eq_refl)).
Defined.

Lemma addFeature_queues_iff_witness :
  (exists w',
     @addFeature sample_sprite_collaborators sample_pin_world sample_point
       (sample_sprite_draw None (Some "pin")) sample_context = Ok w'
     /\ queues w' <> queues sample_pin_world)
  /\ (exists w',
        @addFeature sample_sprite_collaborators sample_pin_world sample_point
          (sample_sprite_draw (Some None) (Some "pin")) sample_context = Ok w'
        /\ ~ queues w' <> queues sample_pin_world).
Proof.
  split.
  - eexists. split; [reflexivity|].
    refine (proj2 (@addFeature_queues_iff sample_sprite_collaborators
                     sample_pin_world sample_point
                     (sample_sprite_draw None (Some "pin")) sample_context
                     _ _ eq_refl) _).
    + apply (bool_decide_unpack _). vm_compute. exact I.
    + split; [reflexivity|]. split; [right; reflexivity|].
      right. left. reflexivity.
  - eexists. split; [reflexivity|]. intros Hq.
    refine (_ (proj1 (@addFeature_queues_iff sample_sprite_collaborators
                        sample_pin_world sample_point
                        (sample_sprite_draw (Some None) (Some "pin"))
                        sample_context _ _ eq_refl) Hq)).
    + intros (_ & [[c Hc]|Ht] & _); discriminate.
    + apply (bool_decide_unpack _). vm_compute. exact I.
Defined.

Lemma getSpriteInfo_logs_missing_sprite_once_witness :
  (exists w1 entry,
     @getSpriteInfo sample_collaborators sample_sprite_world "atlas" (Some "pin")
     = Ok (w1, None)
     /\ logs w1 = [entry]
     /\ default ∅ (texture_missing_sprites w1 !! "atlas") = {["pin"]} ∪ ∅)
  /\ (exists w1,
        @getSpriteInfo sample_collaborators sample_sprite_world "atlas"
          (Some "constructor")
        = Ok (w1, None)
        /\ logs w1 = []).
Proof.
  split.
  - destruct (@getSpriteInfo_logs_missing_sprite_once sample_collaborators
                sample_sprite_world "atlas" "pin" _ ltac:(discriminate)
                ltac:(apply (bool_decide_unpack _); vm_compute; exact I)
                eq_refl)
      as (Hnew & _).
    destruct Hnew as ((entry & Hl & _) & Hrecord & _);
      [apply (bool_decide_unpack _); vm_compute; exact I|].
    eexists _, entry. split; [reflexivity|]. split; [exact Hl|exact Hrecord].
  - destruct (@getSpriteInfo_logs_missing_sprite_once sample_collaborators
                sample_sprite_world "atlas" "constructor" _
                ltac:(discriminate)
                ltac:(apply (bool_decide_unpack _); vm_compute; exact I)
                eq_refl)
      as (_ & Hold & _).
    destruct Hold as (Hl & _);
      [apply (bool_decide_unpack _); vm_compute; exact I|].
    eexists. split; [reflexivity|exact Hl].
Defined.

Lemma getSpriteInfo_found_is_silent_witness :
  exists w',
    @getSpriteInfo sample_collaborators sample_sprite_world "atlas" None
    = Ok (w', None)
    /\ w' = sample_sprite_world.
Proof.
  eexists. split; [reflexivity|].
  apply (@getSpriteInfo_found_is_silent sample_collaborators
           sample_sprite_world "atlas" None _ None eq_refl).
  right. reflexivity.
Defined.

Lemma outlined_size_edge_pct_witness :
  fst (outlined_size (10, 6) (Some 2, Some [0; 0; 0; 1])) = (10 + 2, 6 + 2)
  /\ 0 < snd (outlined_size (10, 6) (Some 2, Some [0; 0; 0; 1])).
Proof.
  destruct (outlined_size_edge_pct 10 6 2 [0; 0; 0; 1]) as (Hs & Hp & _);
    [discriminate | discriminate | reflexivity |].
  split; assumption.
Defined.

Lemma addFeature_boundary_labels_witness :
  exists w' q,
    @addFeature sample_boundary_collaborators sample_boundary_world sample_point
      (sample_draw (SizePair 10 10) (Some sample_text)) sample_context = Ok w'
    /\ queues w' !! "t1" = Some [q]
    /\ q_text_feature q = None.
Proof.
  destruct (@addFeature_boundary_labels sample_boundary_collaborators
              sample_boundary_world sample_point
              (sample_draw (SizePair 10 10) (Some sample_text)) sample_context
              sample_text _ eq_refl (ex_intro _ _ eq_refl) eq_refl eq_refl
              ltac:(discriminate) eq_refl)
    as (w' & q & E & Hq & Htf & _).
  exists w', q. split; [exact E|]. split; [exact Hq|exact Htf].
Defined.

Lemma endData_drains_queue_witness :
  exists w' point_objs text_objs,
    @endData sample_collaborators sample_passes sample_queued_world sample_tile
    = Ok (w', Colliding point_objs text_objs)
    /\ queues w' = delete "t1" (queues sample_queued_world)
    /\ @endData sample_collaborators sample_passes w' sample_tile
       = Throw TypeError.
Proof.
  eexists _, _, _. split; [reflexivity|].
  destruct (@endData_drains_queue sample_collaborators sample_passes
              sample_queued_world sample_tile _ _ _
              ltac:(intros ? ? ? ? ? E; inversion E; reflexivity)
              ltac:(intros ? ? ? ? ? E; inversion E; reflexivity)
              eq_refl)
    as (_ & _ & Hq & E & _).
  split; [exact Hq|exact E].
Defined.

Lemma endData_without_queue_throws_witness :
  exists w1,
    @addFeature sample_collaborators sample_world sample_point
      (sample_draw (SizePair 10 10) None)
      (mkContext (mkTile "t1" "1/0/0" 6 false (Some 1)) JUndefined) = Ok w1
    /\ @endData sample_collaborators sample_passes w1 (mkTile "t1" "1/0/0" 6 false (Some 1))
       = Throw TypeError.
Proof.
  apply (@endData_without_queue_throws sample_collaborators sample_passes sample_world
           sample_point (sample_draw (SizePair 10 10) None)
           (mkContext (mkTile "t1" "1/0/0" 6 false (Some 1)) JUndefined));
    [reflexivity | reflexivity | left; discriminate].
Defined.

Lemma endData_objects_follow_queue_witness :
  exists w' point_objs text_objs queue labelss,
    @endData sample_collaborators sample_passes sample_queued_world sample_tile
    = Ok (w', Colliding point_objs text_objs)
    /\ queues sample_queued_world !! "t1" = Some queue
    /\ map po_label point_objs = concat labelss.
Proof.
  destruct (@endData_objects_follow_queue sample_collaborators sample_passes
              sample_queued_world sample_tile _ _ _ eq_refl)
    as (queue & labelss & Hq & _ & Hp & _).
  eexists _, _, _, queue, labelss. split; [reflexivity|].
  split; [exact Hq|exact Hp].
Defined.

Lemma buildLabels_missing_coordinates_witness :
  @buildLabels sample_collaborators (10, 10)
    (mkGeometry "MultiPoint" JUndefined) (sample_options VERTEX)
  = Throw TypeError.
Proof.
  apply (@buildLabels_missing_coordinates sample_collaborators (10, 10)
           (sample_options VERTEX) "MultiPoint" JUndefined);
    left; reflexivity.
Defined.

Lemma buildLabel_writes_one_quad_witness :
  exists tile_data' mesh',
    @buildLabel sample_collaborators sample_label sample_sprite_style
      ("t1", "atlas") sample_context sample_mesh_tile_data
    = Ok (2%nat, tile_data')
    /\ get_mesh tile_data' ("t1", "atlas") = Some mesh'
    /\ length (vertex_quads (mesh_vertex_data mesh')) = 1%nat.
Proof.
  destruct (@buildLabel_writes_one_quad sample_collaborators sample_label
              sample_sprite_style "t1" "atlas" sample_context
              sample_mesh_tile_data _ _ _ eq_refl eq_refl)
    as (tile_data' & mesh' & E & Hm & Hq & _).
  exists tile_data', mesh'. split; [exact E|]. split; [exact Hm|].
  rewrite <- (length_map call_request), Hq. reflexivity.
Defined.

Lemma buildLabel_binds_texture_witness :
  exists geom_count tile_data' mesh' uniforms,
    @buildLabel sample_collaborators sample_label sample_sprite_style
      ("t1", "atlas") sample_context sample_mesh_tile_data
    = Ok (geom_count, tile_data')
    /\ get_mesh tile_data' ("t1", "atlas") = Some mesh'
    /\ mesh_uniforms mesh' = Some uniforms
    /\ uniforms !! "u_point_type" = Some (JNum 1).
Proof.
  destruct (@buildLabel_binds_texture sample_collaborators sample_label
              sample_sprite_style "t1" "atlas" sample_context
              sample_mesh_tile_data _ _ _ eq_refl eq_refl)
    as (geom_count & tile_data' & mesh' & uniforms & E & Hm & Hu & _ & Hp & _).
  exists geom_count, tile_data', mesh', uniforms.
  split; [exact E|]. split; [exact Hm|]. split; [exact Hu|exact Hp].
Defined.

Lemma buildArticulatedLabel_geom_count_witness :
  exists style' tile_data',
    @buildArticulatedLabel sample_collaborators sample_curved_label
      sample_curved_style sample_mesh sample_context sample_tile_data
    = Ok (style', tile_data', 8%nat).
Proof.
  destruct (@buildArticulatedLabel_geom_count sample_collaborators
              sample_curved_label sample_curved_style sample_mesh
              sample_context sample_tile_data _ _
              (@getTileMesh_by_key_returns sample_collaborators _
                 (sample_getTileMesh_by_key _))
              (ex_intro _ _ eq_refl) eq_refl eq_refl)
    as (tile_data' & E & _).
  eexists _, tile_data'. exact E.
Defined.

Lemma meshVariantTypeForDraw_key_collision_witness :
  variant_key (@meshVariantTypeForDraw sample_collaborators sample_text_style)
  = variant_key
      (@meshVariantTypeForDraw sample_collaborators sample_sprite_style)
  /\ variant_order
       (@meshVariantTypeForDraw sample_collaborators sample_text_style)
     = 1%nat
  /\ variant_order
       (@meshVariantTypeForDraw sample_collaborators sample_sprite_style)
     = 0%nat.
Proof.
  destruct (@meshVariantTypeForDraw_key_collision sample_collaborators "atlas"
              sample_text_style sample_sprite_style ltac:(discriminate)
              eq_refl eq_refl eq_refl)
    as (Et & Es & _).
  rewrite Et, Es. repeat split.
Defined.

Lemma makeMesh_adds_fade_in_time_witness :
  exists fields,
    makeMesh (fun _ _ options => options) 0.5
      (mkVertexData (mkVertexLayout attribs ∅) []) JUndefined
      (Some [("fade_in_time", JNum 3); ("retain", JBool true)])
    = JObj fields
    /\ js_field fields "fade_in_time" = JNum 0.5.
Proof.
  destruct (makeMesh_adds_fade_in_time jsval (fun _ _ options => options) 0.5
              (mkVertexData (mkVertexLayout attribs ∅) []) JUndefined
              (Some [("fade_in_time", JNum 3); ("retain", JBool true)]))
    as (fields & E & Hf & _).
  - apply (bool_decide_unpack _). vm_compute. exact I.
  - exists fields. split; [exact E|exact Hf].
Defined.

Lemma DirectionalLight_default_colors_witness :
  exists light,
    Light.DirectionalLight sample_expandVec3 sample_parseColor id id id id id
      JUndefined sample_light_config = Ok light
    /\ Light.ambient light = JArr [JNum 0.5; JNum 0.5; JNum 0.5]
    /\ Light.diffuse light = JArr [JNum 1; JNum 1; JNum 1].
Proof.
  eexists. split; [reflexivity|].
  destruct (DirectionalLight_default_colors sample_expandVec3 sample_parseColor
              id id id id id JUndefined sample_light_config _ eq_refl)
    as (_ & Hd & Ha & _).
  split; [exact (Ha eq_refl)|exact (Hd eq_refl)].
Defined.

Lemma Light_inject_calls_witness :
  Light.inject sample_expandVec3 sample_parseColor id id id id id
    "struct DirectionalLight;" true
    (Some [("sun", sample_light); ("moon", sample_light)])
  = Ok (light_calls "struct DirectionalLight;"
          [("sun", sample_light); ("moon", sample_light)])
  /\ Light.light_types [("sun", sample_light); ("moon", sample_light)]
     = ["directional"].
Proof.
  destruct (Light_inject_calls sample_expandVec3 sample_parseColor id id id id
              id "struct DirectionalLight;" true
              (Some [("sun", sample_light); ("moon", sample_light)]))
    as (_ & _ & Hin & _).
  destruct (Hin eq_refl _ _ eq_refl) as [_ E].
  - repeat constructor.
  - split; [exact E|reflexivity].
Defined.

Lemma Light_create_by_type_witness :
  Light.create sample_expandVec3 sample_parseColor id id id id id JUndefined
    (Light.mkConfig "lamp" "point" JUndefined JUndefined JUndefined)
  = Ok None
  /\ Light.create sample_expandVec3 sample_parseColor id id id id id JUndefined
       (Light.mkConfig "sun" "directional" JUndefined JUndefined (JStr "down"))
     = Throw TypeError.
Proof.
  split.
  - apply (proj1 (Light_create_by_type sample_expandVec3 sample_parseColor
                    id id id id id JUndefined
                    (Light.mkConfig "lamp" "point" JUndefined JUndefined
                       JUndefined))).
    + discriminate.
    + apply (bool_decide_unpack _). vm_compute. exact I.
  - apply (proj2 (proj2 (Light_create_by_type sample_expandVec3
                           sample_parseColor id id id id id JUndefined
                           (Light.mkConfig "sun" "directional" JUndefined
                              JUndefined (JStr "down")))));
      [reflexivity | reflexivity | discriminate].
Defined.

Lemma reset_forgets_queues_and_missing_sprites_witness :
  @endData sample_collaborators sample_passes
    (@reset sample_collaborators (fun _ => tt) sample_queued_world) sample_tile
  = Throw TypeError.
Proof.
  apply (@reset_forgets_queues_and_missing_sprites sample_collaborators sample_passes
           (fun _ => tt) sample_queued_world).
  reflexivity.
Defined.

Lemma buildTextLabels_follows_queue_witness :
  @buildTextLabels sample_collaborators fst
    (fun position size _ => (position, size)) ∅ sample_tile
    [@mkTextObj sample_collaborators sample_point sample_text sample_context
       "label" "key" (mkTextLayout None 0 true JUndefined)
       (JArr [JNum 1; JNum 2], (10, 10)) 0]
  = Throw TypeError.
Proof.
  apply (@buildTextLabels_follows_queue sample_collaborators).
  apply Exists_cons_hd. reflexivity.
Defined.

Lemma Light_setMode_exclusive_witness :
  Light.setMode true (JStr "vertex") ∅ !! "TANGRAM_LIGHTING_VERTEX"
  = Some (JBool true)
  /\ Light.setMode true (JStr "vertex") ∅ !! "TANGRAM_LIGHTING_FRAGMENT"
     = Some (JBool false).
Proof.
  destruct (Light_setMode_exclusive true (JStr "vertex") ∅)
    as (fragment & vertex & Hf & Hv & Hex & _ & Hon & _).
  destruct (Hon eq_refl) as [_ Hvertex].
  rewrite Hf, Hv. rewrite (proj2 Hvertex eq_refl) in Hex |- *.
  rewrite andb_true_r in Hex. rewrite Hex. split; reflexivity.
Defined.
